(** * Gaia engine: planet state, save slots and terrain noise

    A shallow embedding of [src/sim/planetState.ts], [src/sim/saveSlots.ts],
    [src/utils/storage.ts] and the noise module ([initNoise], [perlin4D],
    [fbmNoise]), followed by the properties of the specification.

    Modelling conventions.
    - JavaScript numbers are exact rationals ([Q]) extended with [NaN] and the
      two infinities; rounding of binary floating point is not modelled and
      [-0] is identified with [0], as [===] does.
    - A value of TypeScript type [unknown] is a tree of type [unknown]:
      objects are association lists read by their first matching key.
    - Exceptions are an error monad ([result]); the mutable [localStorage]
      and the module-level permutation table are passed explicitly.
    - [JSON], [Date] and number printing belong to the JavaScript runtime,
      not to the repository: they are fields of a [Runtime] record, and the
      properties of the ECMAScript specification that the proofs rely on are
      collected in [RuntimeLaws]. *)

From Stdlib Require Import ZArith QArith Qround Lia Lqa Bool List Ascii String.
From Stdlib Require Import DecimalString DecimalZ.
From stdpp Require Import gmap strings.
Import ListNotations.

Set Warnings "-register-all".

Local Open Scope string_scope.
Local Open Scope Z_scope.

(** ** Numbers *)

Inductive number : Type :=
| Num (q : Q)
| NaN
| PosInfinity
| NegInfinity.

Definition Number_isFinite (n : number) : bool :=
  match n with Num _ => true | _ => false end.

Definition Qltb (a b : Q) : bool := negb (Qle_bool b a).

Definition Int (z : Z) : number := Num (inject_Z z).

(** [Math.max] and [Math.min] on two arguments. *)
Definition Math_max (a b : number) : number :=
  match a, b with
  | NaN, _ | _, NaN => NaN
  | PosInfinity, _ | _, PosInfinity => PosInfinity
  | NegInfinity, x | x, NegInfinity => x
  | Num x, Num y => if Qltb x y then Num y else Num x
  end.

Definition Math_min (a b : number) : number :=
  match a, b with
  | NaN, _ | _, NaN => NaN
  | NegInfinity, _ | _, NegInfinity => NegInfinity
  | PosInfinity, x | x, PosInfinity => x
  | Num x, Num y => if Qltb y x then Num y else Num x
  end.

(** ** Values of type [unknown] *)

Inductive unknown : Type :=
| JUndefined
| JNull
| JBool (b : bool)
| JNumber (n : number)
| JString (s : string)
| JArray (items : list unknown)
| JObject (props : list (string * unknown)).

(** [value.key]: the first property named [key], [undefined] when absent. *)
Fixpoint prop (key : string) (props : list (string * unknown)) : unknown :=
  match props with
  | [] => JUndefined
  | (k, v) :: rest => if String.eqb k key then v else prop key rest
  end.

(** ['key' in value]. *)
Fixpoint has_prop (key : string) (props : list (string * unknown)) : bool :=
  match props with
  | [] => false
  | (k, _) :: rest => String.eqb k key || has_prop key rest
  end.

(** ** Exceptions *)

Inductive exn : Type :=
| Error (message : string)
| SyntaxError (message : string)
| RangeError (message : string)
| PlanetSaveSlotEmptyError (message : string)
| PlanetSaveCorruptedError (message : string)
| PlanetSaveUnsupportedVersionError (message : string)
| PlanetSaveIncompatibleError (message : string).

Definition exn_message (e : exn) : string :=
  match e with
  | Error m | SyntaxError m | RangeError m | PlanetSaveSlotEmptyError m
  | PlanetSaveCorruptedError m | PlanetSaveUnsupportedVersionError m
  | PlanetSaveIncompatibleError m => m
  end.

Inductive result (A : Type) : Type :=
| Ok (a : A)
| Throw (e : exn).
Arguments Ok {A} a.
Arguments Throw {A} e.

Definition bind {A B : Type} (r : result A) (k : A -> result B) : result B :=
  match r with
  | Ok a => k a
  | Throw e => Throw e
  end.

Notation "'let*' x ':=' r 'in' k" := (bind r (fun x => k))
  (at level 10, x name, r at level 100, k at level 200).

(** ** The JavaScript runtime *)

Inductive parsed : Type :=
| Parsed (value : unknown)
| Malformed (message : string).

Record Runtime : Type := {
  (** [JSON.parse]: the document, or the message of the [SyntaxError]. *)
  JSON_parse : string -> parsed;
  JSON_stringify : unknown -> string;
  (** [Date.parse]: a time value in milliseconds, [None] for [NaN]. *)
  Date_parse : string -> option Z;
  (** [new Date(t).toISOString()] for a valid time value [t]. *)
  Date_toISOString : Z -> string;
  (** [String(n)], also used by template literals. *)
  Number_toString : number -> string
}.

(** ** [src/sim/planetState.ts]: the data model *)

Definition PLANET_STATE_VERSION : Z := 1.

Record AtmosphericGasComposition : Type := {
  gas : string;
  percentage : number
}.

Record AtmosphereState : Type := {
  gases : list AtmosphericGasComposition;
  surfacePressureKPa : number;
  greenhouseCoefficient : number
}.

Inductive TectonicPlateType : Type := continental | oceanic.

Record TectonicPlateState : Type := {
  plate_id : string;
  plate_name : string;
  plate_type : TectonicPlateType;
  areaFraction : number;
  driftRateCmPerYear : number
}.

Inductive HeightUnit : Type := meters.

(** Grid dimensions are integer valued in every state that the module
    builds; they are kept as integers. *)
Record HeightFieldState : Type := {
  hf_width : Z;
  hf_height : Z;
  hf_unit : HeightUnit;
  hf_values : list number
}.

Record GeologyState : Type := {
  plates : list TectonicPlateState;
  heightField : HeightFieldState;
  volcanismIndex : number
}.

Record Coordinates : Type := {
  latitude : number;
  longitude : number
}.

Record RiverSystemState : Type := {
  river_id : string;
  river_name : string;
  lengthKm : number;
  river_source : Coordinates;
  river_mouth : Coordinates
}.

Record RiverNetworkState : Type := {
  seed : option number;
  systems : list RiverSystemState
}.

Record IceCapsState : Type := {
  northCoverageFraction : number;
  southCoverageFraction : number
}.

Record HydrologyState : Type := {
  oceanCoverage : number;
  rivers : RiverNetworkState;
  iceCaps : IceCapsState
}.

Record BiomeCellState : Type := {
  biome : string;
  biodiversity : number
}.

Record BiomeMapState : Type := {
  bm_width : Z;
  bm_height : Z;
  cells : list BiomeCellState
}.

Record BiosphereState : Type := {
  biomeMap : BiomeMapState;
  biodiversityIndex : number
}.

Inductive CivilizationPopulationKind : Type := outpost | settlement | city.

Inductive CivilizationTechLevel : Type :=
| none | tribal | agrarian | industrial | digital | spacefaring.

Record PopulationCenterState : Type := {
  pop_id : string;
  pop_name : string;
  population : number;
  pop_kind : CivilizationPopulationKind;
  pop_coordinates : Coordinates
}.

Record CivilizationState : Type := {
  populations : list PopulationCenterState;
  techLevel : CivilizationTechLevel;
  pollutionIndex : number
}.

Record ClimateState : Type := {
  axialTiltDegrees : number;
  albedo : number;
  greenhouseMultiplier : number;
  currentTime : number;
  yearLength : number
}.

(** The [version] field has the literal type [1]; it is the constant
    [PLANET_STATE_VERSION] in every state. *)
Record PlanetState : Type := {
  atmosphere : AtmosphereState;
  geology : GeologyState;
  hydrology : HydrologyState;
  biosphere : BiosphereState;
  civilization : CivilizationState;
  climate : ClimateState
}.

Definition version (_ : PlanetState) : Z := PLANET_STATE_VERSION.

Definition DEFAULT_HEIGHT_FIELD_WIDTH : Z := 64.
Definition DEFAULT_HEIGHT_FIELD_HEIGHT : Z := 32.
Definition DEFAULT_BIOME_MAP_WIDTH : Z := 64.
Definition DEFAULT_BIOME_MAP_HEIGHT : Z := 32.

(** ** Guards and clamps *)

Definition isNumber (value : unknown) : option Q :=
  match value with
  | JNumber (Num q) => Some q
  | _ => None
  end.

Definition isRecord (value : unknown) : option (list (string * unknown)) :=
  match value with
  | JObject props => Some props
  | _ => None
  end.

Definition isArray (value : unknown) : option (list unknown) :=
  match value with
  | JArray items => Some items
  | _ => None
  end.

Definition ensureNumber (value : unknown) (fallback : number) : number :=
  match isNumber value with
  | Some q => Num q
  | None => fallback
  end.

Definition ensurePositiveInteger (value : unknown) (fallback : Z) (minimum : Z) : Z :=
  match isNumber value with
  | None => fallback
  | Some q =>
      let rounded := Qfloor q in
      if rounded <? minimum then fallback else rounded
  end.

(** Code units that [String.prototype.trim] removes, among the first 256. *)
Definition isWhiteSpace (c : ascii) : bool :=
  let n := nat_of_ascii c in
  ((9 <=? n)%nat && (n <=? 13)%nat) || (n =? 32)%nat || (n =? 160)%nat.

Fixpoint trimStart (s : string) : string :=
  match s with
  | EmptyString => EmptyString
  | String c rest => if isWhiteSpace c then trimStart rest else s
  end.

Fixpoint trimEnd (s : string) : string :=
  match s with
  | EmptyString => EmptyString
  | String c rest =>
      match trimEnd rest with
      | EmptyString => if isWhiteSpace c then EmptyString else String c EmptyString
      | rest' => String c rest'
      end
  end.

Definition trim (s : string) : string := trimEnd (trimStart s).

Definition isBlank (s : string) : bool := (String.length (trim s) =? 0)%nat.

Definition ensureString (value : unknown) (fallback : string) : string :=
  match value with
  | JString s => if isBlank s then fallback else s
  | _ => fallback
  end.

Definition clamp (lo hi : Q) (value : number) : number :=
  match value with
  | Num q =>
      if Qltb q lo then Num lo
      else if Qltb hi q then Num hi
      else Num q
  | _ => Num 0
  end.

Definition clamp01 : number -> number := clamp 0 1.
Definition clampPercentage : number -> number := clamp 0 100.
Definition clampLatitude : number -> number := clamp (-90) 90.
Definition clampLongitude : number -> number := clamp (-180) 180.

(** An [Array] holds at most [2^32 - 1] elements: [Array.from({ length })]
    and a [push] past that length throw a [RangeError]. *)
Definition MAX_ARRAY_LENGTH : Z := 2 ^ 32 - 1.

Definition Array_from_length {A : Type} (length : Z) (fill : A) : result (list A) :=
  if MAX_ARRAY_LENGTH <? length
  then Throw (RangeError "Invalid array length")
  else Ok (repeat fill (Z.to_nat length)).

Definition Array_push_all {A : Type} (target extra : list A) : result (list A) :=
  if MAX_ARRAY_LENGTH <? Z.of_nat (List.length target + List.length extra)
  then Throw (RangeError "Invalid array length")
  else Ok (target ++ extra)%list.

(** [array.slice(0, end)] for an integer [end]. *)
Fixpoint slice0 {A : Type} (items : list A) (end_ : Z) : list A :=
  match items with
  | [] => []
  | x :: rest => if 0 <? end_ then x :: slice0 rest (end_ - 1) else []
  end.

Definition padArray (length : Z) : result (list number) :=
  Array_from_length length (Num 0).

Definition padBiomeCells (length : Z) : result (list BiomeCellState) :=
  Array_from_length length {| biome := "ocean"; biodiversity := Num 0 |}.

(** [array.map(f).filter(Boolean)] for an [f] that returns an object or [null]. *)
Fixpoint mapFilter {A B : Type} (f : A -> option B) (items : list A) : list B :=
  match items with
  | [] => []
  | x :: rest =>
      match f x with
      | Some y => y :: mapFilter f rest
      | None => mapFilter f rest
      end
  end.

(** ** Default states *)

Definition createDefaultAtmosphereState : AtmosphereState :=
  {| gases :=
       [ {| gas := "nitrogen"; percentage := Num 78 |};
         {| gas := "oxygen"; percentage := Num 21 |};
         {| gas := "argon"; percentage := Num 0.9 |};
         {| gas := "carbon-dioxide"; percentage := Num 0.04 |} ];
     surfacePressureKPa := Num 101.325;
     greenhouseCoefficient := Num 0.3 |}.

(** [padArray(64 * 32)] stays below the array limit and returns this list. *)
Definition createDefaultHeightFieldState : HeightFieldState :=
  {| hf_width := DEFAULT_HEIGHT_FIELD_WIDTH;
     hf_height := DEFAULT_HEIGHT_FIELD_HEIGHT;
     hf_unit := meters;
     hf_values :=
       repeat (Num 0) (Z.to_nat (DEFAULT_HEIGHT_FIELD_WIDTH * DEFAULT_HEIGHT_FIELD_HEIGHT)) |}.

Definition createDefaultTectonicPlates : list TectonicPlateState := [].

Definition createDefaultGeologyState : GeologyState :=
  {| plates := createDefaultTectonicPlates;
     heightField := createDefaultHeightFieldState;
     volcanismIndex := Num 0 |}.

Definition createDefaultRiverNetworkState : RiverNetworkState :=
  {| seed := None; systems := [] |}.

Definition createDefaultIceCapsState : IceCapsState :=
  {| northCoverageFraction := Num 0.05; southCoverageFraction := Num 0.04 |}.

Definition createDefaultHydrologyState : HydrologyState :=
  {| oceanCoverage := Num 0.72;
     rivers := createDefaultRiverNetworkState;
     iceCaps := createDefaultIceCapsState |}.

Definition createDefaultBiomeMapState : BiomeMapState :=
  {| bm_width := DEFAULT_BIOME_MAP_WIDTH;
     bm_height := DEFAULT_BIOME_MAP_HEIGHT;
     cells :=
       repeat {| biome := "ocean"; biodiversity := Num 0 |}
              (Z.to_nat (DEFAULT_BIOME_MAP_WIDTH * DEFAULT_BIOME_MAP_HEIGHT)) |}.

Definition createDefaultBiosphereState : BiosphereState :=
  {| biomeMap := createDefaultBiomeMapState; biodiversityIndex := Num 0.1 |}.

Definition createDefaultCivilizationState : CivilizationState :=
  {| populations := []; techLevel := none; pollutionIndex := Num 0 |}.

Definition createDefaultClimateState : ClimateState :=
  {| axialTiltDegrees := Num 23.5;
     albedo := Num 0.3;
     greenhouseMultiplier := Num 1;
     currentTime := Num 0;
     yearLength := Num 365 |}.

Definition createDefaultPlanetState : PlanetState :=
  {| atmosphere := createDefaultAtmosphereState;
     geology := createDefaultGeologyState;
     hydrology := createDefaultHydrologyState;
     biosphere := createDefaultBiosphereState;
     civilization := createDefaultCivilizationState;
     climate := createDefaultClimateState |}.

(** ** Normalizers *)

(** [value === 'literal']. *)
Definition isLiteral (value : unknown) (literal : string) : bool :=
  match value with
  | JString s => String.eqb s literal
  | _ => false
  end.

Definition normalizeAtmosphericGas (value : unknown) : option AtmosphericGasComposition :=
  match isRecord value with
  | None => None
  | Some o =>
      let name := ensureString (prop "gas" o) "" in
      if (String.length name =? 0)%nat then None
      else
        match isNumber (prop "percentage" o) with
        | None => None
        | Some p => Some {| gas := name; percentage := clampPercentage (Num p) |}
        end
  end.

Definition normalizeAtmosphere (value : unknown) : AtmosphereState :=
  let defaults := createDefaultAtmosphereState in
  match isRecord value with
  | None => defaults
  | Some o =>
      let gasesRaw := isArray (prop "gases" o) in
      let normalized := option_map (mapFilter normalizeAtmosphericGas) gasesRaw in
      {| gases :=
           match normalized with
           | Some (g :: rest) => g :: rest
           | _ => gases defaults
           end;
         surfacePressureKPa :=
           ensureNumber (prop "surfacePressureKPa" o) (surfacePressureKPa defaults);
         greenhouseCoefficient :=
           ensureNumber (prop "greenhouseCoefficient" o) (greenhouseCoefficient defaults) |}
  end.

Definition normalizeTectonicPlate (value : unknown) : option TectonicPlateState :=
  match isRecord value with
  | None => None
  | Some o =>
      let id := ensureString (prop "id" o) "" in
      if (String.length id =? 0)%nat then None
      else
        let name := ensureString (prop "name" o) id in
        let type := if isLiteral (prop "type" o) "oceanic" then oceanic else continental in
        Some {| plate_id := id;
                plate_name := name;
                plate_type := type;
                areaFraction := clamp01 (ensureNumber (prop "areaFraction" o) (Num 0));
                driftRateCmPerYear := ensureNumber (prop "driftRateCmPerYear" o) (Num 0) |}
  end.

Definition normalizeHeightField (value : unknown) : result HeightFieldState :=
  let defaults := createDefaultHeightFieldState in
  match isRecord value with
  | None => Ok defaults
  | Some o =>
      let width := ensurePositiveInteger (prop "width" o) (hf_width defaults) 1 in
      let height := ensurePositiveInteger (prop "height" o) (hf_height defaults) 1 in
      let expectedLength := width * height in
      let valuesRaw := match isArray (prop "values" o) with Some a => a | None => [] end in
      let values :=
        slice0 (map (fun entry => ensureNumber entry (Num 0)) valuesRaw) expectedLength in
      let* values :=
        (if Z.of_nat (List.length values) <? expectedLength
         then let* padding := padArray (expectedLength - Z.of_nat (List.length values)) in
              Array_push_all values padding
         else Ok values) in
      Ok {| hf_width := width; hf_height := height; hf_unit := meters; hf_values := values |}
  end.

Definition normalizeGeology (value : unknown) : result GeologyState :=
  let defaults := createDefaultGeologyState in
  match isRecord value with
  | None => Ok defaults
  | Some o =>
      let platesRaw := isArray (prop "plates" o) in
      let normalized := option_map (mapFilter normalizeTectonicPlate) platesRaw in
      let* field := normalizeHeightField (prop "heightField" o) in
      Ok {| plates := match normalized with Some p => p | None => plates defaults end;
            heightField := field;
            volcanismIndex :=
              clamp01 (ensureNumber (prop "volcanismIndex" o) (volcanismIndex defaults)) |}
  end.

Definition normalizeCoordinates (value : unknown) : Coordinates :=
  match isRecord value with
  | None => {| latitude := Num 0; longitude := Num 0 |}
  | Some o =>
      {| latitude := clampLatitude (ensureNumber (prop "latitude" o) (Num 0));
         longitude := clampLongitude (ensureNumber (prop "longitude" o) (Num 0)) |}
  end.

Definition normalizeRiverSystem (value : unknown) : option RiverSystemState :=
  match isRecord value with
  | None => None
  | Some o =>
      let id := ensureString (prop "id" o) "" in
      if (String.length id =? 0)%nat then None
      else
        let name := ensureString (prop "name" o) id in
        Some {| river_id := id;
                river_name := name;
                lengthKm := ensureNumber (prop "lengthKm" o) (Num 0);
                river_source := normalizeCoordinates (prop "source" o);
                river_mouth := normalizeCoordinates (prop "mouth" o) |}
  end.

Definition normalizeRiverNetwork (value : unknown) : RiverNetworkState :=
  let defaults := createDefaultRiverNetworkState in
  match isRecord value with
  | None => defaults
  | Some o =>
      let systemsRaw := isArray (prop "systems" o) in
      let normalized := option_map (mapFilter normalizeRiverSystem) systemsRaw in
      {| seed :=
           match isNumber (prop "seed" o) with
           | Some q => Some (Num q)
           | None => seed defaults
           end;
         systems := match normalized with Some s => s | None => systems defaults end |}
  end.

Definition normalizeIceCaps (value : unknown) : IceCapsState :=
  let defaults := createDefaultIceCapsState in
  match isRecord value with
  | None => defaults
  | Some o =>
      {| northCoverageFraction :=
           clamp01 (ensureNumber (prop "northCoverageFraction" o)
                                 (northCoverageFraction defaults));
         southCoverageFraction :=
           clamp01 (ensureNumber (prop "southCoverageFraction" o)
                                 (southCoverageFraction defaults)) |}
  end.

Definition normalizeHydrology (value : unknown) : HydrologyState :=
  let defaults := createDefaultHydrologyState in
  match isRecord value with
  | None => defaults
  | Some o =>
      {| oceanCoverage :=
           clamp01 (ensureNumber (prop "oceanCoverage" o) (oceanCoverage defaults));
         rivers := normalizeRiverNetwork (prop "rivers" o);
         iceCaps := normalizeIceCaps (prop "iceCaps" o) |}
  end.

Definition normalizeBiomeCell (value : unknown) : option BiomeCellState :=
  match isRecord value with
  | None => None
  | Some o =>
      let name := ensureString (prop "biome" o) "" in
      if (String.length name =? 0)%nat then None
      else Some {| biome := name;
                   biodiversity := clamp01 (ensureNumber (prop "biodiversity" o) (Num 0)) |}
  end.

Definition normalizeBiomeMap (value : unknown) : result BiomeMapState :=
  let defaults := createDefaultBiomeMapState in
  match isRecord value with
  | None => Ok defaults
  | Some o =>
      let width := ensurePositiveInteger (prop "width" o) (bm_width defaults) 1 in
      let height := ensurePositiveInteger (prop "height" o) (bm_height defaults) 1 in
      let expectedLength := width * height in
      let rawCells := match isArray (prop "cells" o) with Some a => a | None => [] end in
      let kept := slice0 (mapFilter normalizeBiomeCell rawCells) expectedLength in
      let* kept :=
        (if Z.of_nat (List.length kept) <? expectedLength
         then let* padding := padBiomeCells (expectedLength - Z.of_nat (List.length kept)) in
              Array_push_all kept padding
         else Ok kept) in
      Ok {| bm_width := width; bm_height := height; cells := kept |}
  end.

Definition normalizeBiosphere (value : unknown) : result BiosphereState :=
  let defaults := createDefaultBiosphereState in
  match isRecord value with
  | None => Ok defaults
  | Some o =>
      let* map := normalizeBiomeMap (prop "biomeMap" o) in
      Ok {| biomeMap := map;
            biodiversityIndex :=
              clamp01 (ensureNumber (prop "biodiversityIndex" o)
                                    (biodiversityIndex defaults)) |}
  end.

Definition normalizePopulationCenter (value : unknown) : option PopulationCenterState :=
  match isRecord value with
  | None => None
  | Some o =>
      let id := ensureString (prop "id" o) "" in
      if (String.length id =? 0)%nat then None
      else
        let name := ensureString (prop "name" o) id in
        let kind :=
          if isLiteral (prop "kind" o) "settlement" then settlement
          else if isLiteral (prop "kind" o) "city" then city
          else outpost in
        Some {| pop_id := id;
                pop_name := name;
                pop_kind := kind;
                population := Math_max (Num 0) (ensureNumber (prop "population" o) (Num 0));
                pop_coordinates := normalizeCoordinates (prop "coordinates" o) |}
  end.

Definition normalizeCivilization (value : unknown) : CivilizationState :=
  let defaults := createDefaultCivilizationState in
  match isRecord value with
  | None => defaults
  | Some o =>
      let populationsRaw := isArray (prop "populations" o) in
      let normalized := option_map (mapFilter normalizePopulationCenter) populationsRaw in
      let level := prop "techLevel" o in
      let normalizedTechLevel :=
        if isLiteral level "tribal" then tribal
        else if isLiteral level "agrarian" then agrarian
        else if isLiteral level "industrial" then industrial
        else if isLiteral level "digital" then digital
        else if isLiteral level "spacefaring" then spacefaring
        else none in
      {| populations := match normalized with Some p => p | None => populations defaults end;
         techLevel := normalizedTechLevel;
         pollutionIndex :=
           clamp01 (ensureNumber (prop "pollutionIndex" o) (pollutionIndex defaults)) |}
  end.

Definition normalizeClimate (value : unknown) : ClimateState :=
  let defaults := createDefaultClimateState in
  match isRecord value with
  | None => defaults
  | Some o =>
      {| axialTiltDegrees :=
           Math_min
             (Math_max (ensureNumber (prop "axialTiltDegrees" o) (axialTiltDegrees defaults))
                       (Num 0))
             (Num 90);
         albedo := clamp01 (ensureNumber (prop "albedo" o) (albedo defaults));
         greenhouseMultiplier :=
           Math_max (Num 0)
                    (ensureNumber (prop "greenhouseMultiplier" o)
                                  (greenhouseMultiplier defaults));
         currentTime :=
           Math_max (Num 0) (ensureNumber (prop "currentTime" o) (currentTime defaults));
         yearLength :=
           Math_max (Num 1) (ensureNumber (prop "yearLength" o) (yearLength defaults)) |}
  end.

Definition normalizePlanetStateV1 (value : list (string * unknown)) : result PlanetState :=
  let atmosphere' := normalizeAtmosphere (prop "atmosphere" value) in
  let* geology' := normalizeGeology (prop "geology" value) in
  let hydrology' := normalizeHydrology (prop "hydrology" value) in
  let* biosphere' := normalizeBiosphere (prop "biosphere" value) in
  Ok {| atmosphere := atmosphere';
        geology := geology';
        hydrology := hydrology';
        biosphere := biosphere';
        civilization := normalizeCivilization (prop "civilization" value);
        climate := normalizeClimate (prop "climate" value) |}.

Definition PLANET_STATE_NORMALIZERS (version : Z)
  : option (list (string * unknown) -> result PlanetState) :=
  if version =? PLANET_STATE_VERSION then Some normalizePlanetStateV1 else None.

Definition migratePlanetState (rt : Runtime) (value : unknown) : result PlanetState :=
  match isRecord value with
  | None => Ok createDefaultPlanetState
  | Some o =>
      let version := ensurePositiveInteger (prop "version" o) PLANET_STATE_VERSION 1 in
      match PLANET_STATE_NORMALIZERS version with
      | None =>
          Throw (Error ("Unsupported planet state version: "
                          ++ Number_toString rt (Int version)))
      | Some normalizer => normalizer o
      end
  end.

(** ** Serialization

    A typed state is a JavaScript object; [PlanetState_toValue] is that
    object as a value of type [unknown], which [JSON.stringify] prints. *)

Definition AtmosphericGasComposition_toValue (g : AtmosphericGasComposition) : unknown :=
  JObject [("gas", JString (gas g)); ("percentage", JNumber (percentage g))].

Definition AtmosphereState_toValue (a : AtmosphereState) : unknown :=
  JObject
    [("gases", JArray (map AtmosphericGasComposition_toValue (gases a)));
     ("surfacePressureKPa", JNumber (surfacePressureKPa a));
     ("greenhouseCoefficient", JNumber (greenhouseCoefficient a))].

Definition TectonicPlateType_toValue (t : TectonicPlateType) : unknown :=
  JString match t with continental => "continental" | oceanic => "oceanic" end.

Definition TectonicPlateState_toValue (p : TectonicPlateState) : unknown :=
  JObject
    [("id", JString (plate_id p));
     ("name", JString (plate_name p));
     ("type", TectonicPlateType_toValue (plate_type p));
     ("areaFraction", JNumber (areaFraction p));
     ("driftRateCmPerYear", JNumber (driftRateCmPerYear p))].

Definition HeightFieldState_toValue (h : HeightFieldState) : unknown :=
  JObject
    [("width", JNumber (Int (hf_width h)));
     ("height", JNumber (Int (hf_height h)));
     ("unit", JString match hf_unit h with meters => "meters" end);
     ("values", JArray (map JNumber (hf_values h)))].

Definition GeologyState_toValue (g : GeologyState) : unknown :=
  JObject
    [("plates", JArray (map TectonicPlateState_toValue (plates g)));
     ("heightField", HeightFieldState_toValue (heightField g));
     ("volcanismIndex", JNumber (volcanismIndex g))].

Definition Coordinates_toValue (c : Coordinates) : unknown :=
  JObject [("latitude", JNumber (latitude c)); ("longitude", JNumber (longitude c))].

Definition RiverSystemState_toValue (r : RiverSystemState) : unknown :=
  JObject
    [("id", JString (river_id r));
     ("name", JString (river_name r));
     ("lengthKm", JNumber (lengthKm r));
     ("source", Coordinates_toValue (river_source r));
     ("mouth", Coordinates_toValue (river_mouth r))].

Definition RiverNetworkState_toValue (r : RiverNetworkState) : unknown :=
  JObject
    [("seed", match seed r with Some n => JNumber n | None => JNull end);
     ("systems", JArray (map RiverSystemState_toValue (systems r)))].

Definition IceCapsState_toValue (i : IceCapsState) : unknown :=
  JObject
    [("northCoverageFraction", JNumber (northCoverageFraction i));
     ("southCoverageFraction", JNumber (southCoverageFraction i))].

Definition HydrologyState_toValue (h : HydrologyState) : unknown :=
  JObject
    [("oceanCoverage", JNumber (oceanCoverage h));
     ("rivers", RiverNetworkState_toValue (rivers h));
     ("iceCaps", IceCapsState_toValue (iceCaps h))].

Definition BiomeCellState_toValue (c : BiomeCellState) : unknown :=
  JObject [("biome", JString (biome c)); ("biodiversity", JNumber (biodiversity c))].

Definition BiomeMapState_toValue (m : BiomeMapState) : unknown :=
  JObject
    [("width", JNumber (Int (bm_width m)));
     ("height", JNumber (Int (bm_height m)));
     ("cells", JArray (map BiomeCellState_toValue (cells m)))].

Definition BiosphereState_toValue (b : BiosphereState) : unknown :=
  JObject
    [("biomeMap", BiomeMapState_toValue (biomeMap b));
     ("biodiversityIndex", JNumber (biodiversityIndex b))].

Definition CivilizationPopulationKind_toValue (k : CivilizationPopulationKind) : unknown :=
  JString match k with
          | outpost => "outpost"
          | settlement => "settlement"
          | city => "city"
          end.

Definition CivilizationTechLevel_toValue (t : CivilizationTechLevel) : unknown :=
  JString match t with
          | none => "none"
          | tribal => "tribal"
          | agrarian => "agrarian"
          | industrial => "industrial"
          | digital => "digital"
          | spacefaring => "spacefaring"
          end.

Definition PopulationCenterState_toValue (p : PopulationCenterState) : unknown :=
  JObject
    [("id", JString (pop_id p));
     ("name", JString (pop_name p));
     ("kind", CivilizationPopulationKind_toValue (pop_kind p));
     ("population", JNumber (population p));
     ("coordinates", Coordinates_toValue (pop_coordinates p))].

Definition CivilizationState_toValue (c : CivilizationState) : unknown :=
  JObject
    [("populations", JArray (map PopulationCenterState_toValue (populations c)));
     ("techLevel", CivilizationTechLevel_toValue (techLevel c));
     ("pollutionIndex", JNumber (pollutionIndex c))].

Definition ClimateState_toValue (c : ClimateState) : unknown :=
  JObject
    [("axialTiltDegrees", JNumber (axialTiltDegrees c));
     ("albedo", JNumber (albedo c));
     ("greenhouseMultiplier", JNumber (greenhouseMultiplier c));
     ("currentTime", JNumber (currentTime c));
     ("yearLength", JNumber (yearLength c))].

Definition PlanetState_props (s : PlanetState) : list (string * unknown) :=
  [("version", JNumber (Int (version s)));
   ("atmosphere", AtmosphereState_toValue (atmosphere s));
   ("geology", GeologyState_toValue (geology s));
   ("hydrology", HydrologyState_toValue (hydrology s));
   ("biosphere", BiosphereState_toValue (biosphere s));
   ("civilization", CivilizationState_toValue (civilization s));
   ("climate", ClimateState_toValue (climate s))].

Definition PlanetState_toValue (s : PlanetState) : unknown :=
  JObject (PlanetState_props s).

Definition serializePlanetState (rt : Runtime) (state : PlanetState) : string :=
  JSON_stringify rt (PlanetState_toValue state).

Definition deserializePlanetState (rt : Runtime) (payload : unknown) : result PlanetState :=
  match payload with
  | JString text =>
      match JSON_parse rt text with
      | Parsed value => migratePlanetState rt value
      | Malformed message => Throw (SyntaxError message)
      end
  | _ => migratePlanetState rt payload
  end.

(** ** [src/utils/storage.ts]

    [resolveStorage()] returns the host's [localStorage] when there is one
    and otherwise a storage that keeps nothing; the state of the world is
    the storage it resolves to. *)

Inductive Storage : Type :=
| LocalStorage (items : gmap string string)
| NoopStorage.

Definition getItem (storage : Storage) (key : string) : option string :=
  match storage with
  | LocalStorage items => items !! key
  | NoopStorage => None
  end.

Definition setItem (storage : Storage) (key value : string) : Storage :=
  match storage with
  | LocalStorage items => LocalStorage (<[key := value]> items)
  | NoopStorage => NoopStorage
  end.

Definition removeItem (storage : Storage) (key : string) : Storage :=
  match storage with
  | LocalStorage items => LocalStorage (delete key items)
  | NoopStorage => NoopStorage
  end.

(** ** [src/sim/saveSlots.ts] *)

Module SaveSlots.

Definition PLANET_SAVE_FORMAT_VERSION : Z := 1.
Definition SAVE_SLOT_COUNT : Z := 3.
Definition SAVE_SLOT_KEY_PREFIX : string := "planet-save-slot-".
Definition ISO_EPOCH (rt : Runtime) : string := Date_toISOString rt 0.
Definition MAX_LABEL_LENGTH : nat := 64.

Record PlanetSaveMetadata : Type := {
  slot : Z;
  label : string;
  createdAt : string;
  updatedAt : string
}.

(** [formatVersion] has the literal type [1]. *)
Record PlanetSave : Type := {
  metadata : PlanetSaveMetadata;
  planetStateVersion : Z;
  planetState : PlanetState
}.

Definition formatVersion (_ : PlanetSave) : Z := PLANET_SAVE_FORMAT_VERSION.

Record PlanetSaveSlotSummaryAvailable : Type := {
  available_slot : Z;
  available_label : string;
  available_metadata : PlanetSaveMetadata;
  available_planetStateVersion : Z
}.

Inductive PlanetSaveSlotSummary : Type :=
| SummaryEmpty (slot : Z) (label : string)
| SummaryAvailable (summary : PlanetSaveSlotSummaryAvailable)
| SummaryCorrupted (slot : Z) (label : string) (reason : string)
| SummaryIncompatible (slot : Z) (label : string) (reason : string).

Definition isPlanetSaveSlotAvailable (summary : PlanetSaveSlotSummary)
  : option PlanetSaveSlotSummaryAvailable :=
  match summary with
  | SummaryAvailable a => Some a
  | _ => None
  end.

(** A [Date] object holds a time value or is invalid. *)
Definition Date : Type := option Z.

Definition Date_prototype_toISOString (rt : Runtime) (date : Date) : result string :=
  match date with
  | Some t => Ok (Date_toISOString rt t)
  | None => Throw (RangeError "Invalid time value")
  end.

Record SavePlanetStateOptions : Type := {
  option_label : option string;
  option_timestamp : option Date
}.

Record DeserializePlanetSaveOptions : Type := {
  expectedSlot : option number
}.

Definition ensureString (value : unknown) (fallback : string) : string :=
  match value with
  | JString s => if isBlank s then fallback else trim s
  | _ => fallback
  end.

Definition ensurePositiveInteger (value : unknown) : option Z :=
  match value with
  | JNumber (Num q) =>
      let rounded := Qfloor q in
      if 0 <? rounded then Some rounded else None
  | _ => None
  end.

Definition ensureSlotIndex (value : unknown) : option Z :=
  match value with
  | JNumber (Num q) =>
      let rounded := Qfloor q in
      if (rounded <? 0) || (SAVE_SLOT_COUNT <=? rounded) then None else Some rounded
  | _ => None
  end.

Definition ensureISODate (rt : Runtime) (value : unknown) (fallback : string) : string :=
  match value with
  | JString s =>
      match Date_parse rt s with
      | Some parsed => Date_toISOString rt parsed
      | None => fallback
      end
  | _ => fallback
  end.

Definition sanitizeLabel (value : unknown) (fallback : string) : string :=
  let label := ensureString value fallback in
  if (MAX_LABEL_LENGTH <? String.length label)%nat
  then substring 0 MAX_LABEL_LENGTH label
  else label.

Definition defaultSlotLabel (rt : Runtime) (slot : Z) : string :=
  "Slot " ++ Number_toString rt (Int (slot + 1)).

Definition getSlotKey (rt : Runtime) (slot : Z) : string :=
  SAVE_SLOT_KEY_PREFIX ++ Number_toString rt (Int slot).

Definition Number_isInteger (n : number) : bool :=
  match n with
  | Num q => Qeq_bool q (inject_Z (Qfloor q))
  | _ => false
  end.

(** [a !== b] on numbers. *)
Definition Number_differs (a b : number) : bool :=
  match a, b with
  | Num x, Num y => negb (Qeq_bool x y)
  | PosInfinity, PosInfinity | NegInfinity, NegInfinity => false
  | _, _ => true
  end.

(** Returns the integer that a valid [slot] is. *)
Definition assertValidSlotIndex (rt : Runtime) (slot : number) : result Z :=
  match slot with
  | Num q =>
      if negb (Number_isInteger slot) || Qltb q 0 || negb (Qltb q (inject_Z SAVE_SLOT_COUNT))
      then Throw (RangeError ("Invalid save slot index: " ++ Number_toString rt slot))
      else Ok (Qfloor q)
  | _ => Throw (RangeError ("Invalid save slot index: " ++ Number_toString rt slot))
  end.

Definition normalizePlanetSaveV1 (rt : Runtime) (payload : list (string * unknown))
    (options : option DeserializePlanetSaveOptions) : result PlanetSave :=
  match isRecord (prop "metadata" payload) with
  | None => Throw (PlanetSaveCorruptedError "Save metadata is missing or invalid")
  | Some metadataRaw =>
      let slotFromPayload := ensureSlotIndex (prop "slot" metadataRaw) in
      let expected := match options with Some o => expectedSlot o | None => None end in
      match slotFromPayload, expected with
      | None, Some _ => Throw (PlanetSaveCorruptedError "Save metadata slot is invalid")
      | None, None => Throw (PlanetSaveCorruptedError "Save metadata slot is missing")
      | Some slot', _ =>
          let mismatch :=
            match expected with
            | Some e => if Number_differs (Int slot') e then Some e else None
            | None => None
            end in
          match mismatch with
          | Some e =>
              Throw (PlanetSaveCorruptedError
                       ("Save metadata slot " ++ Number_toString rt (Int slot')
                          ++ " does not match expected slot " ++ Number_toString rt e))
          | None =>
              let fallbackLabel := defaultSlotLabel rt slot' in
              let created := ensureISODate rt (prop "createdAt" metadataRaw) (ISO_EPOCH rt) in
              let updatedCandidate := ensureISODate rt (prop "updatedAt" metadataRaw) created in
              let createdTimestamp := Date_parse rt created in
              let updatedTimestamp := Date_parse rt updatedCandidate in
              let metadata' :=
                {| slot := slot';
                   label := sanitizeLabel (prop "label" metadataRaw) fallbackLabel;
                   createdAt := created;
                   updatedAt :=
                     match updatedTimestamp with
                     | None => created
                     | Some u =>
                         match createdTimestamp with
                         | Some c => if u <? c then created else Date_toISOString rt u
                         | None => Date_toISOString rt u
                         end
                     end |} in
              if negb (has_prop "planetStateVersion" payload)
              then Throw (PlanetSaveCorruptedError
                            "Save payload is missing the planet state version")
              else
                match ensurePositiveInteger (prop "planetStateVersion" payload) with
                | None =>
                    Throw (PlanetSaveCorruptedError
                             "Save payload includes an invalid planet state version")
                | Some planetStateVersionRaw =>
                    if PLANET_STATE_VERSION <? planetStateVersionRaw
                    then Throw (PlanetSaveIncompatibleError
                                  ("Planet state version "
                                     ++ Number_toString rt (Int planetStateVersionRaw)
                                     ++ " is newer than supported version "
                                     ++ Number_toString rt (Int PLANET_STATE_VERSION)))
                    else if negb (has_prop "planetState" payload)
                    then Throw (PlanetSaveCorruptedError
                                  "Save payload is missing the planet state data")
                    else
                      match deserializePlanetState rt (prop "planetState" payload) with
                      | Throw error => Throw (PlanetSaveIncompatibleError (exn_message error))
                      | Ok state =>
                          Ok {| metadata := metadata';
                                planetStateVersion := version state;
                                planetState := state |}
                      end
                end
          end
      end
  end.

Definition PLANET_SAVE_NORMALIZERS (version : Z)
  : option (Runtime -> list (string * unknown) -> option DeserializePlanetSaveOptions
            -> result PlanetSave) :=
  if version =? PLANET_SAVE_FORMAT_VERSION then Some normalizePlanetSaveV1 else None.

Definition parseSavePayload (rt : Runtime) (payload : unknown)
    (options : option DeserializePlanetSaveOptions) : result PlanetSave :=
  let* raw :=
    match payload with
    | JString text =>
        match JSON_parse rt text with
        | Parsed value => Ok value
        | Malformed _ => Throw (PlanetSaveCorruptedError "Save payload is not valid JSON")
        end
    | _ => Ok payload
    end in
  match isRecord raw with
  | None => Throw (PlanetSaveCorruptedError "Save payload must be an object")
  | Some props =>
      let versionValue := prop "version" props in
      if negb (has_prop "version" props)
      then Throw (PlanetSaveCorruptedError "Save payload is missing the format version")
      else
        match ensurePositiveInteger versionValue with
        | None => Throw (PlanetSaveCorruptedError "Save payload has an invalid format version")
        | Some version =>
            match PLANET_SAVE_NORMALIZERS version with
            | None =>
                Throw (PlanetSaveUnsupportedVersionError
                         ("Unsupported save format version: "
                            ++ match versionValue with
                               | JNumber n => Number_toString rt n
                               | _ => ""
                               end))
            | Some normalizer => normalizer rt props options
            end
        end
  end.

Definition readSaveFromStorage (rt : Runtime) (storage : Storage) (slot : Z)
  : result PlanetSave :=
  let key := getSlotKey rt slot in
  match getItem storage key with
  | None =>
      Throw (PlanetSaveSlotEmptyError
               ("Save slot " ++ Number_toString rt (Int (slot + 1)) ++ " is empty"))
  | Some raw => parseSavePayload rt (JString raw) (Some {| expectedSlot := Some (Int slot) |})
  end.

Definition tryReadSaveFromStorage (rt : Runtime) (storage : Storage) (slot : Z)
  : result (option PlanetSave) :=
  match readSaveFromStorage rt storage slot with
  | Ok save => Ok (Some save)
  | Throw (PlanetSaveSlotEmptyError _)
  | Throw (PlanetSaveCorruptedError _)
  | Throw (PlanetSaveUnsupportedVersionError _)
  | Throw (PlanetSaveIncompatibleError _) => Ok None
  | Throw error => Throw error
  end.

Definition PlanetSaveMetadata_toValue (m : PlanetSaveMetadata) : unknown :=
  JObject
    [("slot", JNumber (Int (slot m)));
     ("label", JString (label m));
     ("createdAt", JString (createdAt m));
     ("updatedAt", JString (updatedAt m))].

Definition buildSerializedSavePayload (state : PlanetState) (m : PlanetSaveMetadata)
  : unknown :=
  JObject
    [("version", JNumber (Int PLANET_SAVE_FORMAT_VERSION));
     ("metadata", PlanetSaveMetadata_toValue m);
     ("planetStateVersion", JNumber (Int (version state)));
     ("planetState", PlanetState_toValue state)].

Definition serializePlanetSave (rt : Runtime) (state : PlanetState) (m : PlanetSaveMetadata)
  : string :=
  JSON_stringify rt (buildSerializedSavePayload state m).

Definition deserializePlanetSave (rt : Runtime) (payload : unknown)
    (options : option DeserializePlanetSaveOptions) : result PlanetSave :=
  parseSavePayload rt payload options.

(** [now] is the time value that [new Date()] reads from the clock. *)
Definition savePlanetStateToSlot (rt : Runtime) (now : Z) (storage : Storage)
    (slot : number) (state : PlanetState) (options : option SavePlanetStateOptions)
  : result (PlanetSave * Storage) :=
  let* slot' := assertValidSlotIndex rt slot in
  let* existing := tryReadSaveFromStorage rt storage slot' in
  let chosen :=
    match options with
    | Some o => match option_timestamp o with Some d => d | None => Some now end
    | None => Some now
    end in
  let* timestamp := Date_prototype_toISOString rt chosen in
  let requested := match options with Some o => option_label o | None => None end in
  let metadata' :=
    {| slot := slot';
       label :=
         sanitizeLabel
           (JString match requested with
                    | Some l => l
                    | None =>
                        match existing with
                        | Some e => label (metadata e)
                        | None => defaultSlotLabel rt slot'
                        end
                    end)
           (defaultSlotLabel rt slot');
       createdAt :=
         match existing with
         | Some e => createdAt (metadata e)
         | None => timestamp
         end;
       updatedAt := timestamp |} in
  let serialized := buildSerializedSavePayload state metadata' in
  let storage' := setItem storage (getSlotKey rt slot') (JSON_stringify rt serialized) in
  Ok ({| metadata := metadata';
         planetStateVersion := version state;
         planetState := state |}, storage').

Definition loadPlanetSaveSlot (rt : Runtime) (storage : Storage) (slot : number)
  : result PlanetSave :=
  let* slot' := assertValidSlotIndex rt slot in
  readSaveFromStorage rt storage slot'.

Definition clearPlanetSaveSlot (rt : Runtime) (storage : Storage) (slot : number)
  : result Storage :=
  let* slot' := assertValidSlotIndex rt slot in
  Ok (removeItem storage (getSlotKey rt slot')).

(** One iteration of the loop of [listPlanetSaveSlots]. *)
Definition summarizeSlot (rt : Runtime) (storage : Storage) (slot : Z)
  : result PlanetSaveSlotSummary :=
  let key := getSlotKey rt slot in
  let label' := defaultSlotLabel rt slot in
  match getItem storage key with
  | None => Ok (SummaryEmpty slot label')
  | Some raw =>
      match parseSavePayload rt (JString raw) (Some {| expectedSlot := Some (Int slot) |}) with
      | Ok save =>
          Ok (SummaryAvailable
                {| available_slot := slot;
                   available_label := label (metadata save);
                   available_metadata := metadata save;
                   available_planetStateVersion := planetStateVersion save |})
      | Throw (PlanetSaveUnsupportedVersionError message)
      | Throw (PlanetSaveIncompatibleError message) =>
          Ok (SummaryIncompatible slot label' message)
      | Throw (PlanetSaveCorruptedError message) =>
          Ok (SummaryCorrupted slot label' message)
      | Throw error => Throw error
      end
  end.

Fixpoint listLoop (rt : Runtime) (storage : Storage) (remaining : nat) (slot : Z)
  : result (list PlanetSaveSlotSummary) :=
  match remaining with
  | O => Ok []
  | S remaining' =>
      let* summary := summarizeSlot rt storage slot in
      let* rest := listLoop rt storage remaining' (slot + 1) in
      Ok (summary :: rest)
  end.

Definition listPlanetSaveSlots (rt : Runtime) (storage : Storage)
  : result (list PlanetSaveSlotSummary) :=
  listLoop rt storage (Z.to_nat SAVE_SLOT_COUNT) 0.

(** The body of the loop of [findMostRecentValidSaveSlot]. *)
Definition considerSummary (rt : Runtime) (latest : option PlanetSaveSlotSummaryAvailable)
    (summary : PlanetSaveSlotSummary) : option PlanetSaveSlotSummaryAvailable :=
  match isPlanetSaveSlotAvailable summary with
  | None => latest
  | Some candidate =>
      match latest with
      | None => Some candidate
      | Some current =>
          let latestTimestamp := Date_parse rt (updatedAt (available_metadata current)) in
          let candidateTimestamp := Date_parse rt (updatedAt (available_metadata candidate)) in
          match candidateTimestamp with
          | None => latest
          | Some c =>
              match latestTimestamp with
              | None => Some candidate
              | Some l => if l <? c then Some candidate else latest
              end
          end
      end
  end.

Definition findMostRecentValidSaveSlot (rt : Runtime) (storage : Storage)
  : result (option PlanetSaveSlotSummaryAvailable) :=
  let* summaries := listPlanetSaveSlots rt storage in
  Ok (fold_left (considerSummary rt) summaries None).

End SaveSlots.

(** ** The noise module ([initNoise], [perlin4D], [fbmNoise])

    [P] is the module-level [Uint8Array(512)]; it is passed explicitly.
    Seeds, coordinates and octave parameters are finite numbers. *)

Module Noise.

Local Open Scope Q_scope.

(** Reading a typed array outside its bounds gives [undefined];
    writing there does nothing; [undefined] is stored as [0]. *)
Definition Uint8_get (array : list Z) (i : Z) : option Z :=
  if (i <? 0)%Z then None else array !! Z.to_nat i.

Definition Uint8_set (array : list Z) (i : Z) (value : option Z) : list Z :=
  if (i <? 0)%Z then array
  else <[Z.to_nat i := match value with Some v => (v mod 256)%Z | None => 0%Z end]> array.

(** The state of the module before the first [initNoise]. *)
Definition P_initial : list Z := repeat 0%Z 512.

(** [Math.trunc], and the remainder [a % b] of two finite numbers. *)
Definition Qtrunc (q : Q) : Z := if Qltb q 0 then Qceiling q else Qfloor q.

Definition Qrem (a b : Q) : Q := a - b * inject_Z (Qtrunc (a / b)).

(** The Fisher-Yates loop [for (let i = 255; i > 0; i--)]. *)
Fixpoint shuffleLoop (steps : nat) (i : Z) (state : Q) (permutation : list Z) : list Z :=
  match steps with
  | O => permutation
  | S steps' =>
      let state' := Qrem (state * 9301 + 49297) 233280 in
      let j := Qfloor (state' / 233280 * inject_Z (i + 1)) in
      let temp := Uint8_get permutation i in
      let permutation1 := Uint8_set permutation i (Uint8_get permutation j) in
      let permutation2 := Uint8_set permutation1 j temp in
      shuffleLoop steps' (i - 1)%Z state' permutation2
  end.

(** The loop [for (let i = 0; i < 256; i++)] that duplicates the table. *)
Fixpoint copyLoop (steps : nat) (i : Z) (permutation P : list Z) : list Z :=
  match steps with
  | O => P
  | S steps' =>
      let P1 := Uint8_set P i (Uint8_get permutation i) in
      let P2 := Uint8_set P1 (i + 256)%Z (Uint8_get permutation i) in
      copyLoop steps' (i + 1)%Z permutation P2
  end.

Definition identityPermutation : list Z := map Z.of_nat (seq 0 256).

Definition shuffled (seed : Q) : list Z :=
  shuffleLoop 255 255 seed identityPermutation.

Definition initializePermutation (seed : Q) (P : list Z) : list Z :=
  copyLoop 256 0 (shuffled seed) P.

Definition fade (t : Q) : Q := t * t * t * (t * (t * 6 - 15) + 10).

Definition lerp (t a b : Q) : Q := a + t * (b - a).

Definition grad (hash : Z) (x y z w : Q) : Q :=
  let h := Z.land hash 15 in
  let u := if (h <? 8)%Z then x else y in
  let v := if (h <? 4)%Z then y else if (h =? 12)%Z || (h =? 14)%Z then x else z in
  let w_ := if (h <? 4)%Z then z else if (h =? 12)%Z || (h =? 14)%Z then y else w in
  (if (Z.land h 1 =? 0)%Z then u else - u)
  + (if (Z.land h 2 =? 0)%Z then v else - v)
  + (if (Z.land h 4 =? 0)%Z then w_ else - w_).

(** [P[i]]; the indices of [perlin4D] stay within the 512 entries. *)
Definition at_ (P : list Z) (i : Z) : Z := nth (Z.to_nat i) P 0%Z.

Definition perlin4D (P : list Z) (x y z w : Q) : Q :=
  let xi := Z.land (Qfloor x) 255 in
  let yi := Z.land (Qfloor y) 255 in
  let zi := Z.land (Qfloor z) 255 in
  let wi := Z.land (Qfloor w) 255 in
  let xf := x - inject_Z (Qfloor x) in
  let yf := y - inject_Z (Qfloor y) in
  let zf := z - inject_Z (Qfloor z) in
  let wf := w - inject_Z (Qfloor w) in
  let u := fade xf in
  let v := fade yf in
  let t := fade zf in
  let s := fade wf in
  let p0 := at_ P xi in
  let p1 := at_ P (xi + 1) in
  let p00 := at_ P (p0 + yi) in
  let p01 := at_ P (p0 + yi + 1) in
  let p10 := at_ P (p1 + yi) in
  let p11 := at_ P (p1 + yi + 1) in
  let p000 := at_ P (p00 + zi) in
  let p001 := at_ P (p00 + zi + 1) in
  let p010 := at_ P (p01 + zi) in
  let p011 := at_ P (p01 + zi + 1) in
  let p100 := at_ P (p10 + zi) in
  let p101 := at_ P (p10 + zi + 1) in
  let p110 := at_ P (p11 + zi) in
  let p111 := at_ P (p11 + zi + 1) in
  let g0000 := grad (at_ P (p000 + wi)) xf yf zf wf in
  let g0001 := grad (at_ P (p000 + wi + 1)) xf yf zf (wf - 1) in
  let g0010 := grad (at_ P (p001 + wi)) xf yf (zf - 1) wf in
  let g0011 := grad (at_ P (p001 + wi + 1)) xf yf (zf - 1) (wf - 1) in
  let g0100 := grad (at_ P (p010 + wi)) xf (yf - 1) zf wf in
  let g0101 := grad (at_ P (p010 + wi + 1)) xf (yf - 1) zf (wf - 1) in
  let g0110 := grad (at_ P (p011 + wi)) xf (yf - 1) (zf - 1) wf in
  let g0111 := grad (at_ P (p011 + wi + 1)) xf (yf - 1) (zf - 1) (wf - 1) in
  let g1000 := grad (at_ P (p100 + wi)) (xf - 1) yf zf wf in
  let g1001 := grad (at_ P (p100 + wi + 1)) (xf - 1) yf zf (wf - 1) in
  let g1010 := grad (at_ P (p101 + wi)) (xf - 1) yf (zf - 1) wf in
  let g1011 := grad (at_ P (p101 + wi + 1)) (xf - 1) yf (zf - 1) (wf - 1) in
  let g1100 := grad (at_ P (p110 + wi)) (xf - 1) (yf - 1) zf wf in
  let g1101 := grad (at_ P (p110 + wi + 1)) (xf - 1) (yf - 1) zf (wf - 1) in
  let g1110 := grad (at_ P (p111 + wi)) (xf - 1) (yf - 1) (zf - 1) wf in
  let g1111 := grad (at_ P (p111 + wi + 1)) (xf - 1) (yf - 1) (zf - 1) (wf - 1) in
  let l0000 := lerp s g0000 g0001 in
  let l0001 := lerp s g0010 g0011 in
  let l0010 := lerp s g0100 g0101 in
  let l0011 := lerp s g0110 g0111 in
  let l0100 := lerp s g1000 g1001 in
  let l0101 := lerp s g1010 g1011 in
  let l0110 := lerp s g1100 g1101 in
  let l0111 := lerp s g1110 g1111 in
  let l000 := lerp t l0000 l0001 in
  let l001 := lerp t l0010 l0011 in
  let l010 := lerp t l0100 l0101 in
  let l011 := lerp t l0110 l0111 in
  let l00 := lerp v l000 l001 in
  let l01 := lerp v l010 l011 in
  lerp u l00 l01.

(** [a / b] on finite numbers: a zero divisor gives an infinity or [NaN]. *)
Definition Number_div (a b : Q) : number :=
  if Qeq_bool b 0
  then if Qltb 0 a then PosInfinity else if Qltb a 0 then NegInfinity else NaN
  else Num (a / b).

Record fbmState : Type := {
  value : Q;
  amplitude : Q;
  frequency : Q;
  maxValue : Q
}.

(** The body of the loop of [fbmNoise], run [steps] times. *)
Fixpoint fbmLoop (P : list Z) (x y z w persistence lacunarity : Q) (steps : nat)
    (st : fbmState) : fbmState :=
  match steps with
  | O => st
  | S steps' =>
      fbmLoop P x y z w persistence lacunarity steps'
        {| value :=
             value st
             + perlin4D P (x * frequency st) (y * frequency st)
                          (z * frequency st) (w * frequency st) * amplitude st;
           maxValue := maxValue st + amplitude st;
           amplitude := amplitude st * persistence;
           frequency := frequency st * lacunarity |}
  end.

(** [for (let i = 0; i < octaves; i++)] runs [ceil(octaves)] times. *)
Definition iterations (octaves : Q) : nat := Z.to_nat (Qceiling octaves).

Definition fbmValue (P : list Z) (x y z w octaves persistence lacunarity : Q) : number :=
  let final :=
    fbmLoop P x y z w persistence lacunarity (iterations octaves)
      {| value := 0; amplitude := 1; frequency := 1; maxValue := 0 |} in
  Number_div (value final) (maxValue final).

(** The exported functions as state transformers over [P]. *)
Definition initNoise (seed : Q) (P : list Z) : unit * list Z :=
  (tt, initializePermutation seed P).

Definition fbmNoise (x y z w octaves persistence lacunarity : Q) (P : list Z)
  : number * list Z :=
  (fbmValue P x y z w octaves persistence lacunarity, P).

End Noise.

(** ** Invariants of the data model (section 3 of the specification) *)

Definition Qleb (a b : Q) : bool := Qle_bool a b.

(** A finite number between [lo] and [hi]. *)
Definition within (lo hi : Q) (n : number) : bool :=
  match n with
  | Num q => Qleb lo q && Qleb q hi
  | _ => false
  end.

(** A finite number that is at least [lo]. *)
Definition atLeast (lo : Q) (n : number) : bool :=
  match n with
  | Num q => Qleb lo q
  | _ => false
  end.

Definition nonBlank (s : string) : bool := negb (isBlank s).

Definition AtmosphericGasComposition_valid (g : AtmosphericGasComposition) : bool :=
  nonBlank (gas g) && within 0 100 (percentage g).

Definition AtmosphereState_valid (a : AtmosphereState) : bool :=
  negb (Nat.eqb (List.length (gases a)) 0)
  && forallb AtmosphericGasComposition_valid (gases a)
  && Number_isFinite (surfacePressureKPa a)
  && Number_isFinite (greenhouseCoefficient a).

Definition TectonicPlateState_valid (p : TectonicPlateState) : bool :=
  nonBlank (plate_id p) && nonBlank (plate_name p)
  && within 0 1 (areaFraction p) && Number_isFinite (driftRateCmPerYear p).

Definition HeightFieldState_valid (h : HeightFieldState) : bool :=
  (1 <=? hf_width h) && (1 <=? hf_height h)
  && (Z.of_nat (List.length (hf_values h)) =? hf_width h * hf_height h)
  && forallb Number_isFinite (hf_values h).

Definition GeologyState_valid (g : GeologyState) : bool :=
  forallb TectonicPlateState_valid (plates g)
  && HeightFieldState_valid (heightField g)
  && within 0 1 (volcanismIndex g).

Definition Coordinates_valid (c : Coordinates) : bool :=
  within (-90) 90 (latitude c) && within (-180) 180 (longitude c).

Definition RiverSystemState_valid (r : RiverSystemState) : bool :=
  nonBlank (river_id r) && nonBlank (river_name r)
  && Number_isFinite (lengthKm r)
  && Coordinates_valid (river_source r) && Coordinates_valid (river_mouth r).

Definition RiverNetworkState_valid (r : RiverNetworkState) : bool :=
  match seed r with Some n => Number_isFinite n | None => true end
  && forallb RiverSystemState_valid (systems r).

Definition IceCapsState_valid (i : IceCapsState) : bool :=
  within 0 1 (northCoverageFraction i) && within 0 1 (southCoverageFraction i).

Definition HydrologyState_valid (h : HydrologyState) : bool :=
  within 0 1 (oceanCoverage h)
  && RiverNetworkState_valid (rivers h)
  && IceCapsState_valid (iceCaps h).

Definition BiomeCellState_valid (c : BiomeCellState) : bool :=
  nonBlank (biome c) && within 0 1 (biodiversity c).

Definition BiomeMapState_valid (m : BiomeMapState) : bool :=
  (1 <=? bm_width m) && (1 <=? bm_height m)
  && (Z.of_nat (List.length (cells m)) =? bm_width m * bm_height m)
  && forallb BiomeCellState_valid (cells m).

Definition BiosphereState_valid (b : BiosphereState) : bool :=
  BiomeMapState_valid (biomeMap b) && within 0 1 (biodiversityIndex b).

Definition PopulationCenterState_valid (p : PopulationCenterState) : bool :=
  nonBlank (pop_id p) && nonBlank (pop_name p)
  && atLeast 0 (population p) && Coordinates_valid (pop_coordinates p).

Definition CivilizationState_valid (c : CivilizationState) : bool :=
  forallb PopulationCenterState_valid (populations c)
  && within 0 1 (pollutionIndex c).

Definition ClimateState_valid (c : ClimateState) : bool :=
  within 0 90 (axialTiltDegrees c)
  && within 0 1 (albedo c)
  && atLeast 0 (greenhouseMultiplier c)
  && atLeast 0 (currentTime c)
  && atLeast 1 (yearLength c).

(** A structurally valid planet state. *)
Definition PlanetState_valid (s : PlanetState) : bool :=
  AtmosphereState_valid (atmosphere s)
  && GeologyState_valid (geology s)
  && HydrologyState_valid (hydrology s)
  && BiosphereState_valid (biosphere s)
  && CivilizationState_valid (civilization s)
  && ClimateState_valid (climate s).

(** [items] cut or padded with [fill] to exactly [n] entries. *)
Definition fit {A : Type} (n : Z) (fill : A) (items : list A) : list A :=
  (firstn (Z.to_nat n) items ++ repeat fill (Z.to_nat n - List.length items))%list.

(** The number of cells that a grid object asks for. *)
Definition expectedCells (defaultWidth defaultHeight : Z) (o : list (string * unknown)) : Z :=
  ensurePositiveInteger (prop "width" o) defaultWidth 1
  * ensurePositiveInteger (prop "height" o) defaultHeight 1.

Definition arrayOrEmpty (value : unknown) : list unknown :=
  match isArray value with Some a => a | None => [] end.

(** A payload that is not a plain object: any value other than an object
    or a string, or a string of JSON text whose document is not an object. *)
Definition notAnObject (rt : Runtime) (payload : unknown) : Prop :=
  match payload with
  | JObject _ => False
  | JString text => exists v, JSON_parse rt text = Parsed v /\ isRecord v = None
  | _ => True
  end.

(** The grids of [o] fit in an array. *)
Definition gridsFit (o : list (string * unknown)) : Prop :=
  (forall g f, prop "geology" o = JObject g -> prop "heightField" g = JObject f ->
               expectedCells DEFAULT_HEIGHT_FIELD_WIDTH DEFAULT_HEIGHT_FIELD_HEIGHT f
               <= MAX_ARRAY_LENGTH)
  /\ (forall b f, prop "biosphere" o = JObject b -> prop "biomeMap" b = JObject f ->
                  expectedCells DEFAULT_BIOME_MAP_WIDTH DEFAULT_BIOME_MAP_HEIGHT f
                  <= MAX_ARRAY_LENGTH).

(** The errors that [parseSavePayload] classifies a payload with. *)
Definition isSaveError (e : exn) : bool :=
  match e with
  | PlanetSaveCorruptedError _
  | PlanetSaveUnsupportedVersionError _
  | PlanetSaveIncompatibleError _ => true
  | _ => false
  end.

(** The slot [k] of a payload passes the check against [options.expectedSlot]. *)
Definition acceptsSlot (options : option SaveSlots.DeserializePlanetSaveOptions) (k : Z)
  : Prop :=
  match options with
  | Some {| SaveSlots.expectedSlot := Some e |} => SaveSlots.Number_differs (Int k) e = false
  | _ => True
  end.

(** The time value that a timestamp of a save record denotes. *)
Definition timeOf (rt : Runtime) (timestamp : string) : option Z := Date_parse rt timestamp.

(** [updatedAt] does not precede [createdAt]. *)
Definition chronological (rt : Runtime) (m : SaveSlots.PlanetSaveMetadata) : Prop :=
  exists c u : Z,
    timeOf rt (SaveSlots.createdAt m) = Some c
    /\ timeOf rt (SaveSlots.updatedAt m) = Some u
    /\ c <= u.

(** The [status] tag of a slot summary. *)
Definition status (summary : SaveSlots.PlanetSaveSlotSummary) : string :=
  match summary with
  | SaveSlots.SummaryEmpty _ _ => "empty"
  | SaveSlots.SummaryAvailable _ => "available"
  | SaveSlots.SummaryCorrupted _ _ _ => "corrupted"
  | SaveSlots.SummaryIncompatible _ _ _ => "incompatible"
  end.

(** The available summaries of a listing, in slot order. *)
Fixpoint availableSummaries (summaries : list SaveSlots.PlanetSaveSlotSummary)
  : list SaveSlots.PlanetSaveSlotSummaryAvailable :=
  match summaries with
  | [] => []
  | summary :: rest =>
      match SaveSlots.isPlanetSaveSlotAvailable summary with
      | Some a => a :: availableSummaries rest
      | None => availableSummaries rest
      end
  end.

(** The parsed [updatedAt] timestamp of an available summary. *)
Definition stamp (rt : Runtime) (a : SaveSlots.PlanetSaveSlotSummaryAvailable) : option Z :=
  timeOf rt (SaveSlots.updatedAt (SaveSlots.available_metadata a)).

(** [chosen] is the first of the [candidates] with the greatest timestamp. *)
Definition firstLatest (rt : Runtime) (candidates : list SaveSlots.PlanetSaveSlotSummaryAvailable)
    (chosen : SaveSlots.PlanetSaveSlotSummaryAvailable) : Prop :=
  exists (before after : list SaveSlots.PlanetSaveSlotSummaryAvailable) (latest : Z),
    candidates = (before ++ chosen :: after)%list
    /\ stamp rt chosen = Some latest
    /\ (forall b, In b before -> exists t, stamp rt b = Some t /\ t < latest)
    /\ (forall b, In b after -> exists t, stamp rt b = Some t /\ t <= latest).

(** ** What the proofs assume of the runtime *)

Definition isDigit (c : ascii) : bool :=
  let n := nat_of_ascii c in (48 <=? n)%nat && (n <=? 57)%nat.

(** Keys that look like array indices are enumerated first by the
    runtime, whatever their position in the source text. *)
Definition isIndexKey (key : string) : bool :=
  match key with
  | EmptyString => false
  | String c rest =>
      forallb isDigit (list_ascii_of_string key)
      && (negb (Ascii.eqb c "0") || (String.length rest =? 0)%nat)
  end.

Fixpoint distinctKeys (keys : list string) : bool :=
  match keys with
  | [] => true
  | k :: rest => negb (existsb (String.eqb k) rest) && distinctKeys rest
  end.

(** Values that [JSON.stringify] prints and [JSON.parse] reads back
    unchanged: no [undefined], finite numbers, objects whose keys are
    distinct and keep their order. *)
Fixpoint json_clean (v : unknown) : bool :=
  match v with
  | JUndefined => false
  | JNull | JBool _ | JString _ => true
  | JNumber n => Number_isFinite n
  | JArray items => forallb json_clean items
  | JObject props =>
      distinctKeys (map fst props)
      && negb (existsb isIndexKey (map fst props))
      && forallb (fun '(_, value) => json_clean value) props
  end.

(** Time values range over 100,000,000 days on either side of the epoch. *)
Definition valid_time (t : Z) : Prop := Z.abs t <= 8640000000000000.

(** Integers below [10^21] print in plain decimal. *)
Definition decimal (z : Z) : string := NilZero.string_of_int (Z.to_int z).

Record RuntimeLaws (rt : Runtime) : Prop := {
  JSON_parse_stringify :
    forall v, json_clean v = true -> JSON_parse rt (JSON_stringify rt v) = Parsed v;
  Date_parse_valid :
    forall s t, Date_parse rt s = Some t -> valid_time t;
  Date_parse_toISOString :
    forall t, valid_time t -> Date_parse rt (Date_toISOString rt t) = Some t;
  Number_toString_integer :
    forall z, Z.abs z < 10 ^ 21 -> Number_toString rt (Int z) = decimal z
}.

(** ** A reference runtime

    An executable instance of [Runtime] that satisfies [RuntimeLaws]; the
    examples run on it.  Documents are printed in a compact prefix code and
    time values as a decimal count of milliseconds. *)

Module Reference.

Fixpoint print_positive (p : positive) : string :=
  match p with
  | xH => "."
  | xO p' => String "0" (print_positive p')
  | xI p' => String "1" (print_positive p')
  end.

Fixpoint read_positive (s : string) : option (positive * string) :=
  match s with
  | EmptyString => None
  | String c rest =>
      if Ascii.eqb c "." then Some (xH, rest)
      else if Ascii.eqb c "0"
      then match read_positive rest with
           | Some (p, rest') => Some (xO p, rest')
           | None => None
           end
      else if Ascii.eqb c "1"
      then match read_positive rest with
           | Some (p, rest') => Some (xI p, rest')
           | None => None
           end
      else None
  end.

Definition print_nat (n : nat) : string := print_positive (Pos.of_succ_nat n).

Definition read_nat (s : string) : option (nat * string) :=
  match read_positive s with
  | Some (p, rest) => Some (Nat.pred (Pos.to_nat p), rest)
  | None => None
  end.

Definition print_Z (z : Z) : string :=
  match z with
  | Z0 => "z"
  | Zpos p => String "p" (print_positive p)
  | Zneg p => String "n" (print_positive p)
  end.

Definition read_Z (s : string) : option (Z * string) :=
  match s with
  | EmptyString => None
  | String c rest =>
      if Ascii.eqb c "z" then Some (Z0, rest)
      else if Ascii.eqb c "p"
      then match read_positive rest with
           | Some (p, rest') => Some (Zpos p, rest')
           | None => None
           end
      else if Ascii.eqb c "n"
      then match read_positive rest with
           | Some (p, rest') => Some (Zneg p, rest')
           | None => None
           end
      else None
  end.

(** The first [n] characters and the rest. *)
Fixpoint split_at (n : nat) (s : string) : option (string * string) :=
  match n with
  | O => Some (EmptyString, s)
  | S n' =>
      match s with
      | EmptyString => None
      | String c rest =>
          match split_at n' rest with
          | Some (taken, rest') => Some (String c taken, rest')
          | None => None
          end
      end
  end.

Definition print_string (s : string) : string := print_nat (String.length s) ++ s.

Definition read_string (s : string) : option (string * string) :=
  match read_nat s with
  | Some (n, rest) => split_at n rest
  | None => None
  end.

Definition print_number (n : number) : string :=
  match n with
  | Num q => String "q" (print_Z (Qnum q) ++ print_positive (Qden q))
  | NaN => "N"
  | PosInfinity => "I"
  | NegInfinity => "J"
  end.

Definition read_number (s : string) : option (number * string) :=
  match s with
  | EmptyString => None
  | String c rest =>
      if Ascii.eqb c "N" then Some (NaN, rest)
      else if Ascii.eqb c "I" then Some (PosInfinity, rest)
      else if Ascii.eqb c "J" then Some (NegInfinity, rest)
      else if Ascii.eqb c "q"
      then match read_Z rest with
           | Some (num, rest') =>
               match read_positive rest' with
               | Some (den, rest'') => Some (Num (num # den), rest'')
               | None => None
               end
           | None => None
           end
      else None
  end.

Fixpoint print_all {A : Type} (print : A -> string) (items : list A) : string :=
  match items with
  | [] => EmptyString
  | x :: rest => print x ++ print_all print rest
  end.

Fixpoint read_all {A : Type} (read : string -> option (A * string)) (n : nat) (s : string)
  : option (list A * string) :=
  match n with
  | O => Some ([], s)
  | S n' =>
      match read s with
      | Some (x, rest) =>
          match read_all read n' rest with
          | Some (xs, rest') => Some (x :: xs, rest')
          | None => None
          end
      | None => None
      end
  end.

Fixpoint depth (v : unknown) : nat :=
  match v with
  | JArray items => S (fold_right (fun x acc => Nat.max (depth x) acc) O items)
  | JObject props => S (fold_right (fun '(_, x) acc => Nat.max (depth x) acc) O props)
  | _ => O
  end.

Fixpoint print_value (v : unknown) : string :=
  match v with
  | JUndefined => "U"
  | JNull => "L"
  | JBool true => "T"
  | JBool false => "F"
  | JNumber n => String "#" (print_number n)
  | JString s => String "S" (print_string s)
  | JArray items =>
      String "A" (print_nat (List.length items) ++ print_all print_value items)
  | JObject props =>
      String "O" (print_nat (List.length props)
                    ++ print_all (fun '(k, x) => print_string k ++ print_value x) props)
  end.

Definition read_property (read : string -> option (unknown * string)) (s : string)
  : option ((string * unknown) * string) :=
  match read_string s with
  | Some (k, rest) =>
      match read rest with
      | Some (x, rest') => Some ((k, x), rest')
      | None => None
      end
  | None => None
  end.

Fixpoint read_value (fuel : nat) (s : string) : option (unknown * string) :=
  match fuel with
  | O => None
  | S fuel' =>
      match s with
      | EmptyString => None
      | String c rest =>
          if Ascii.eqb c "U" then Some (JUndefined, rest)
          else if Ascii.eqb c "L" then Some (JNull, rest)
          else if Ascii.eqb c "T" then Some (JBool true, rest)
          else if Ascii.eqb c "F" then Some (JBool false, rest)
          else if Ascii.eqb c "#"
          then match read_number rest with
               | Some (n, rest') => Some (JNumber n, rest')
               | None => None
               end
          else if Ascii.eqb c "S"
          then match read_string rest with
               | Some (t, rest') => Some (JString t, rest')
               | None => None
               end
          else if Ascii.eqb c "A"
          then match read_nat rest with
               | Some (n, rest') =>
                   match read_all (read_value fuel') n rest' with
                   | Some (items, rest'') => Some (JArray items, rest'')
                   | None => None
                   end
               | None => None
               end
          else if Ascii.eqb c "O"
          then match read_nat rest with
               | Some (n, rest') =>
                   match read_all (read_property (read_value fuel')) n rest' with
                   | Some (props, rest'') => Some (JObject props, rest'')
                   | None => None
                   end
               | None => None
               end
          else None
      end
  end.

Definition stringify (v : unknown) : string := print_nat (depth v) ++ print_value v.

Definition parse (text : string) : parsed :=
  match read_nat text with
  | Some (d, rest) =>
      match read_value (S d) rest with
      | Some (v, EmptyString) => Parsed v
      | _ => Malformed "Unexpected token"
      end
  | None => Malformed "Unexpected token"
  end.

Definition valid_timeb (t : Z) : bool := Z.abs t <=? 8640000000000000.

Definition toISOString (t : Z) : string := decimal t.

Definition parseDate (s : string) : option Z :=
  match NilZero.int_of_string s with
  | Some d =>
      let t := Z.of_int d in
      if valid_timeb t && String.eqb (decimal t) s then Some t else None
  | None => None
  end.

Definition toString (n : number) : string :=
  match n with
  | Num q =>
      if Qeq_bool q (inject_Z (Qfloor q)) then decimal (Qfloor q)
      else decimal (Qnum q) ++ "/" ++ decimal (Zpos (Qden q))
  | NaN => "NaN"
  | PosInfinity => "Infinity"
  | NegInfinity => "-Infinity"
  end.

Definition runtime : Runtime :=
  {| JSON_parse := parse;
     JSON_stringify := stringify;
     Date_parse := parseDate;
     Date_toISOString := toISOString;
     Number_toString := toString |}.

End Reference.

(** ** Inputs of the examples *)

(** A payload with blank names, out-of-range numbers and a short grid. *)
Definition untidyPayload : unknown :=
  JObject
    [("version", JNumber (Int 1));
     ("atmosphere",
      JObject [("gases",
                JArray [JObject [("gas", JString ""); ("percentage", JNumber (Num 99))];
                        JObject [("gas", JString "neon"); ("percentage", JNumber (Num 140))]]);
               ("surfacePressureKPa", JString "invalid")]);
     ("geology",
      JObject [("heightField",
                JObject [("width", JNumber (Num 2.5)); ("height", JNumber (Int 2));
                         ("values", JArray [JNumber (Num 7); JNull; JNumber (Num 1);
                                            JNumber (Num 2); JNumber (Num 3)])])]);
     ("biosphere",
      JObject [("biomeMap",
                JObject [("height", JNumber (Int 1)); ("width", JNumber (Int 2));
                         ("cells", JArray [JObject [("biome", JString "")];
                                           JObject [("biome", JString "forest");
                                                    ("biodiversity", JNumber (Num 5))]])])]);
     ("climate", JObject [("albedo", JNumber (Num 5)); ("yearLength", JNumber NaN)])].

(** A grid object without dimensions whose array is longer than 64 * 32,
    and one whose array is empty. *)
Definition missingDimensions : list (string * unknown) :=
  [("values", JArray (repeat (JNumber (Num 5)) 2050))].

(** A save file whose height field asks for 100000 x 100000 values. *)
Definition oversizedGrid : unknown :=
  JObject
    [("version", JNumber (Int 1));
     ("geology",
      JObject [("heightField",
                JObject [("width", JNumber (Int 100000));
                         ("height", JNumber (Int 100000));
                         ("values", JArray [])])])].

(** A save payload for slot 2 whose [planetState] is [null], and one whose
    [planetState] is the JSON text of an array. *)
Definition envelope (state : unknown) : list (string * unknown) :=
  [("version", JNumber (Int 1));
   ("metadata", JObject [("slot", JNumber (Int 2)); ("label", JString "  Backup  ")]);
   ("planetStateVersion", JNumber (Int 1));
   ("planetState", state)].

(** The default planet with an albedo outside [0, 1]. *)
Definition brightPlanet : PlanetState :=
  {| atmosphere := createDefaultAtmosphereState;
     geology := createDefaultGeologyState;
     hydrology := createDefaultHydrologyState;
     biosphere := createDefaultBiosphereState;
     civilization := createDefaultCivilizationState;
     climate :=
       {| axialTiltDegrees := Num 23.5;
          albedo := Num 5;
          greenhouseMultiplier := Num 1;
          currentTime := Num 0;
          yearLength := Num 365 |} |}.

Definition emptyStorage : Storage := LocalStorage ∅.

(** The state that [untidyPayload] normalizes to. *)
Definition smallPlanet : PlanetState :=
  match untidyPayload with
  | JObject props =>
      match normalizePlanetStateV1 props with
      | Ok s => s
      | Throw _ => createDefaultPlanetState
      end
  | _ => createDefaultPlanetState
  end.

(** Slot 0 holds text that is not JSON, slot 1 a record saved at
    2024-01-02T09:00:00Z, slot 2 nothing. *)
Definition scenarioStorage : Storage :=
  match SaveSlots.savePlanetStateToSlot Reference.runtime 1704186000000 emptyStorage (Int 1)
          smallPlanet None with
  | Ok (_, storage) => setItem storage "planet-save-slot-0" "not-json"
  | Throw _ => emptyStorage
  end.

(** [initNoise(seed)] followed by two calls of [fbmNoise] with the same
    arguments: the two results and the table that is left. *)
Definition noiseSession (seed x y z w octaves persistence lacunarity : Q) (P : list Z)
  : number * number * list Z :=
  let '(_, P1) := Noise.initNoise seed P in
  let '(first, P2) := Noise.fbmNoise x y z w octaves persistence lacunarity P1 in
  let '(second, P3) := Noise.fbmNoise x y z w octaves persistence lacunarity P2 in
  (first, second, P3).

(** Every entry is a byte. *)
Definition bytes (table : list Z) : Prop := Forall (fun v => 0 <= v < 256) table.

(** * The rest of the save-slot interface and the code around the core *)

(** [summary.slot], a field of every variant of a slot summary. *)
Definition summarySlot (summary : SaveSlots.PlanetSaveSlotSummary) : Z :=
  match summary with
  | SaveSlots.SummaryEmpty k _
  | SaveSlots.SummaryCorrupted k _ _
  | SaveSlots.SummaryIncompatible k _ _ => k
  | SaveSlots.SummaryAvailable a => SaveSlots.available_slot a
  end.

(** A number that is one of the slot indices [0 .. SAVE_SLOT_COUNT - 1]. *)
Definition denotesSlot (slot : number) (k : Z) : Prop :=
  match slot with
  | Num q => (q == inject_Z k)%Q /\ 0 <= k < SaveSlots.SAVE_SLOT_COUNT
  | _ => False
  end.

(** The slots of [storage] hold nothing. *)
Definition noSaves (rt : Runtime) (storage : Storage) : Prop :=
  forall k, 0 <= k < SaveSlots.SAVE_SLOT_COUNT ->
            getItem storage (SaveSlots.getSlotKey rt k) = None.

(** ** [src/app/DevMenu.tsx]: the helpers of the developer menu *)

Module DevMenu.
Import SaveSlots.

Definition DEFAULT_SLOT_LABEL (rt : Runtime) (slot : Z) : string :=
  "Slot " ++ Number_toString rt (Int (slot + 1)).

Definition summarizeSlotStatus (summary : PlanetSaveSlotSummary) : string :=
  match summary with
  | SummaryAvailable a => "Updated " ++ updatedAt (available_metadata a)
  | SummaryCorrupted _ _ reason | SummaryIncompatible _ _ reason => reason
  | SummaryEmpty _ _ => "Empty slot"
  end.

(** Every exception of the model is an [Error], so the last branch of the
    source ("An unexpected error occurred ...") is not reached. *)
Definition resolveErrorMessage (error : exn) : string :=
  match error with
  | PlanetSaveUnsupportedVersionError _ => "Save format is not supported by this build."
  | PlanetSaveIncompatibleError _ =>
      "Saved planet state is incompatible with the current schema."
  | PlanetSaveCorruptedError _ => "Save slot data is corrupted."
  | PlanetSaveSlotEmptyError _ => "Save slot is empty."
  | Error message | SyntaxError message | RangeError message => message
  end.

(** The callback of [available.reduce] in [mostRecentSlot]. *)
Definition laterOf (rt : Runtime) (latest current : PlanetSaveSlotSummaryAvailable)
  : PlanetSaveSlotSummaryAvailable :=
  let latestTime := Date_parse rt (updatedAt (available_metadata latest)) in
  let currentTime := Date_parse rt (updatedAt (available_metadata current)) in
  match currentTime with
  | None => latest
  | Some c =>
      match latestTime with
      | None => current
      | Some l => if l <? c then current else latest
      end
  end.

(** [slots.filter(isPlanetSaveSlotAvailable)] and the [reduce] without an
    initial value over it. *)
Definition mostRecentSlot (rt : Runtime) (slots : list PlanetSaveSlotSummary)
  : option PlanetSaveSlotSummaryAvailable :=
  match mapFilter isPlanetSaveSlotAvailable slots with
  | [] => None
  | first :: rest => Some (fold_left (laterOf rt) rest first)
  end.

End DevMenu.

(** A save payload whose planet state asks for a grid beyond the array limit. *)
Definition oversizedSave : unknown := JObject (envelope oversizedGrid).

(** The first character of [s] is not white space. *)
Definition startsVisible (s : string) : bool :=
  match s with
  | EmptyString => false
  | String c _ => negb (isWhiteSpace c)
  end.

(** [options?.timestamp ?? new Date()] in [savePlanetStateToSlot]. *)
Definition chosenTimestamp (now : Z) (options : option SaveSlots.SavePlanetStateOptions)
  : SaveSlots.Date :=
  match options with
  | Some o =>
      match SaveSlots.option_timestamp o with
      | Some d => d
      | None => Some now
      end
  | None => Some now
  end.

(** ** Arithmetic of numbers

    The operators of JavaScript on finite numbers, [NaN] and the
    infinities.  A zero divisor counts as [+0]: the divisors of the code
    below are differences and sums, whose zero is [+0]. *)

Definition Number_negate (a : number) : number :=
  match a with
  | Num x => Num (- x)
  | NaN => NaN
  | PosInfinity => NegInfinity
  | NegInfinity => PosInfinity
  end.

(** [a + b]. *)
Definition Number_plus (a b : number) : number :=
  match a, b with
  | NaN, _ | _, NaN => NaN
  | Num x, Num y => Num (x + y)
  | PosInfinity, NegInfinity | NegInfinity, PosInfinity => NaN
  | PosInfinity, _ | _, PosInfinity => PosInfinity
  | NegInfinity, _ | _, NegInfinity => NegInfinity
  end.

(** [a - b]. *)
Definition Number_minus (a b : number) : number := Number_plus a (Number_negate b).

(** An infinity multiplied or divided by a finite number of the sign of [x]. *)
Definition signed (x : Q) (infinity : number) : number :=
  if Qltb 0 x then infinity
  else if Qltb x 0 then Number_negate infinity
  else NaN.

(** [a * b]. *)
Definition Number_times (a b : number) : number :=
  match a, b with
  | NaN, _ | _, NaN => NaN
  | Num x, Num y => Num (x * y)
  | Num x, PosInfinity | PosInfinity, Num x => signed x PosInfinity
  | Num x, NegInfinity | NegInfinity, Num x => signed x NegInfinity
  | PosInfinity, PosInfinity | NegInfinity, NegInfinity => PosInfinity
  | PosInfinity, NegInfinity | NegInfinity, PosInfinity => NegInfinity
  end.

(** [a / b]. *)
Definition Number_over (a b : number) : number :=
  match a, b with
  | NaN, _ | _, NaN => NaN
  | Num x, Num y => if Qeq_bool y 0 then signed x PosInfinity else Num (x / y)
  | Num _, _ => Num 0
  | PosInfinity, Num y => if Qltb y 0 then NegInfinity else PosInfinity
  | NegInfinity, Num y => if Qltb y 0 then PosInfinity else NegInfinity
  | _, _ => NaN
  end.

(** [a % b]: the remainder has the sign of the dividend. *)
Definition Number_remainder (a b : number) : number :=
  match a, b with
  | Num x, Num y => if Qeq_bool y 0 then NaN else Num (Noise.Qrem x y)
  | Num x, PosInfinity | Num x, NegInfinity => Num x
  | _, _ => NaN
  end.

(** [a < b]. *)
Definition Number_less (a b : number) : bool :=
  match a, b with
  | NaN, _ | _, NaN => false
  | Num x, Num y => Qltb x y
  | _, NegInfinity | PosInfinity, _ => false
  | _, _ => true
  end.

Definition Math_floor (n : number) : number :=
  match n with
  | Num q => Int (Qfloor q)
  | _ => n
  end.

(** [Math.round]: the nearest integer, a tie going up. *)
Definition Math_round (n : number) : number :=
  match n with
  | Num q => Int (Qfloor (q + (1 # 2)))
  | _ => n
  end.

(** The conversion of a number that is stored in a [Uint8Array]. *)
Definition ToUint8 (n : number) : Z :=
  match n with
  | Num q => Noise.Qtrunc q mod 256
  | _ => 0
  end.

(** ** The heightmap module: colours ([getBiomeColor], [colorizeHeightmap]) *)

Module Terrain.

Record ColorThresholds : Type := {
  waterLevel : number;
  beachLevel : number;
  plainsLevel : number;
  hillsLevel : number
}.

Record BiomeColor : Type := {
  r : number;
  g : number;
  b : number
}.

Definition getBiomeColor (height : number) (thresholds : ColorThresholds) : BiomeColor :=
  if Number_less height (waterLevel thresholds) then
    {| r := Num 0.1; g := Num 0.2; b := Num 0.4 |}
  else if Number_less height (beachLevel thresholds) then
    let t :=
      Number_over (Number_minus height (waterLevel thresholds))
        (Number_minus (beachLevel thresholds) (waterLevel thresholds)) in
    {| r := Number_plus (Num 0.1) (Number_times t (Num 0.9));
       g := Number_plus (Num 0.3) (Number_times t (Num 0.5));
       b := Number_plus (Num 0.1) (Number_times t (Num 0.2)) |}
  else if Number_less height (plainsLevel thresholds) then
    let t :=
      Number_over (Number_minus height (beachLevel thresholds))
        (Number_minus (plainsLevel thresholds) (beachLevel thresholds)) in
    {| r := Number_minus (Num 1) (Number_times t (Num 0.2));
       g := Number_plus (Num 0.8) (Number_times t (Num 0.1));
       b := Number_minus (Num 0.3) (Number_times t (Num 0.2)) |}
  else if Number_less height (hillsLevel thresholds) then
    let t :=
      Number_over (Number_minus height (plainsLevel thresholds))
        (Number_minus (hillsLevel thresholds) (plainsLevel thresholds)) in
    {| r := Number_minus (Num 0.8) (Number_times t (Num 0.2));
       g := Number_minus (Num 0.9) (Number_times t (Num 0.2));
       b := Number_plus (Num 0.1) (Number_times t (Num 0.1)) |}
  else
    let t :=
      Number_over (Number_minus height (hillsLevel thresholds))
        (Number_minus (Num 1) (hillsLevel thresholds)) in
    {| r := Number_plus (Num 0.6) (Number_times t (Num 0.3));
       g := Number_plus (Num 0.6) (Number_times t (Num 0.3));
       b := Number_plus (Num 0.6) (Number_times t (Num 0.3)) |}.

(** [colors[i] = value] on the [Uint8Array] of the colours. *)
Definition Uint8_store (colors : list Z) (i : Z) (value : number) : list Z :=
  if i <? 0 then colors else <[Z.to_nat i := ToUint8 value]> colors.

(** The loop [for (let i = 0; i < heights.length; i++)]; [heights[i]] is
    an entry of the [Float32Array]. *)
Fixpoint colorizeLoop (steps : nat) (i : Z) (heights : list number)
    (thresholds : ColorThresholds) (colors : list Z) : list Z :=
  match steps with
  | O => colors
  | S steps' =>
      let biomeColor := getBiomeColor (nth (Z.to_nat i) heights NaN) thresholds in
      let colors1 :=
        Uint8_store colors (i * 3) (Math_round (Number_times (r biomeColor) (Num 255))) in
      let colors2 :=
        Uint8_store colors1 (i * 3 + 1)
          (Math_round (Number_times (g biomeColor) (Num 255))) in
      let colors3 :=
        Uint8_store colors2 (i * 3 + 2)
          (Math_round (Number_times (b biomeColor) (Num 255))) in
      colorizeLoop steps' (i + 1) heights thresholds colors3
  end.

Definition colorizeHeightmap (heights : list number) (thresholds : ColorThresholds)
  : list Z :=
  colorizeLoop (List.length heights) 0 heights thresholds
    (repeat 0 (List.length heights * 3)).

End Terrain.

(** The byte that [colorizeHeightmap] stores for a colour channel. *)
Definition channelByte (channel : number) : Z :=
  ToUint8 (Math_round (Number_times channel (Num 255))).

(** The three bytes of a height. *)
Definition pixel (thresholds : Terrain.ColorThresholds) (height : number) : list Z :=
  let color := Terrain.getBiomeColor height thresholds in
  [channelByte (Terrain.r color); channelByte (Terrain.g color);
   channelByte (Terrain.b color)].

(** A finite number between [lo] and [hi]. *)
Definition between (lo hi : Q) (n : number) : Prop :=
  exists q, n = Num q /\ (lo <= q <= hi)%Q.

(** ** [src/stores/climateStore.ts]

    The store is its state; a method that calls [set] with a partial state
    is the function from the state before to the state after. *)

Module ClimateStore.

Record ClimateStoreState : Type := {
  climate : ClimateState;
  showTemperatureOverlay : bool
}.

Definition createDefaultClimateSnapshot : ClimateStoreState :=
  {| climate := createDefaultClimateState; showTemperatureOverlay := false |}.

Definition setAxialTilt (tilt : number) (state : ClimateStoreState) : ClimateStoreState :=
  {| climate :=
       {| axialTiltDegrees := Math_max (Num 0) (Math_min (Num 90) tilt);
          albedo := albedo (climate state);
          greenhouseMultiplier := greenhouseMultiplier (climate state);
          currentTime := currentTime (climate state);
          yearLength := yearLength (climate state) |};
     showTemperatureOverlay := showTemperatureOverlay state |}.

Definition setAlbedo (value : number) (state : ClimateStoreState) : ClimateStoreState :=
  {| climate :=
       {| axialTiltDegrees := axialTiltDegrees (climate state);
          albedo := Math_max (Num 0) (Math_min (Num 1) value);
          greenhouseMultiplier := greenhouseMultiplier (climate state);
          currentTime := currentTime (climate state);
          yearLength := yearLength (climate state) |};
     showTemperatureOverlay := showTemperatureOverlay state |}.

Definition setGreenhouseMultiplier (multiplier : number) (state : ClimateStoreState)
  : ClimateStoreState :=
  {| climate :=
       {| axialTiltDegrees := axialTiltDegrees (climate state);
          albedo := albedo (climate state);
          greenhouseMultiplier := Math_max (Num 0) multiplier;
          currentTime := currentTime (climate state);
          yearLength := yearLength (climate state) |};
     showTemperatureOverlay := showTemperatureOverlay state |}.

Definition setCurrentTime (time : number) (state : ClimateStoreState) : ClimateStoreState :=
  {| climate :=
       {| axialTiltDegrees := axialTiltDegrees (climate state);
          albedo := albedo (climate state);
          greenhouseMultiplier := greenhouseMultiplier (climate state);
          currentTime := Math_max (Num 0) time;
          yearLength := yearLength (climate state) |};
     showTemperatureOverlay := showTemperatureOverlay state |}.

Definition setYearLength (length : number) (state : ClimateStoreState) : ClimateStoreState :=
  {| climate :=
       {| axialTiltDegrees := axialTiltDegrees (climate state);
          albedo := albedo (climate state);
          greenhouseMultiplier := greenhouseMultiplier (climate state);
          currentTime := currentTime (climate state);
          yearLength := Math_max (Num 1) length |};
     showTemperatureOverlay := showTemperatureOverlay state |}.

Definition incrementTime (days : number) (state : ClimateStoreState) : ClimateStoreState :=
  {| climate :=
       {| axialTiltDegrees := axialTiltDegrees (climate state);
          albedo := albedo (climate state);
          greenhouseMultiplier := greenhouseMultiplier (climate state);
          currentTime :=
            Number_remainder (Number_plus (currentTime (climate state)) days)
              (yearLength (climate state));
          yearLength := yearLength (climate state) |};
     showTemperatureOverlay := showTemperatureOverlay state |}.

Definition toggleTemperatureOverlay (state : ClimateStoreState) : ClimateStoreState :=
  {| climate := climate state;
     showTemperatureOverlay := negb (showTemperatureOverlay state) |}.

Definition setShowTemperatureOverlay (show : bool) (state : ClimateStoreState)
  : ClimateStoreState :=
  {| climate := climate state; showTemperatureOverlay := show |}.

Definition reset (_ : ClimateStoreState) : ClimateStoreState :=
  createDefaultClimateSnapshot.

Definition selectSeasonProgress (state : ClimateStoreState) : number :=
  Number_over (currentTime (climate state)) (yearLength (climate state)).

(** A call of a method of the store. *)
Inductive Call : Type :=
| SetAxialTilt (tilt : number)
| SetAlbedo (albedo : number)
| SetGreenhouseMultiplier (multiplier : number)
| SetCurrentTime (time : number)
| SetYearLength (length : number)
| IncrementTime (days : number)
| ToggleTemperatureOverlay
| SetShowTemperatureOverlay (show : bool)
| Reset.

Definition perform (state : ClimateStoreState) (call : Call) : ClimateStoreState :=
  match call with
  | SetAxialTilt tilt => setAxialTilt tilt state
  | SetAlbedo value => setAlbedo value state
  | SetGreenhouseMultiplier multiplier => setGreenhouseMultiplier multiplier state
  | SetCurrentTime time => setCurrentTime time state
  | SetYearLength length => setYearLength length state
  | IncrementTime days => incrementTime days state
  | ToggleTemperatureOverlay => toggleTemperatureOverlay state
  | SetShowTemperatureOverlay show => setShowTemperatureOverlay show state
  | Reset => reset state
  end.

(** A call with a finite argument; a time step that is not negative. *)
Definition finiteCall (call : Call) : Prop :=
  match call with
  | SetAxialTilt n | SetAlbedo n | SetGreenhouseMultiplier n | SetCurrentTime n
  | SetYearLength n => Number_isFinite n = true
  | IncrementTime days => atLeast 0 days = true
  | _ => True
  end.

End ClimateStore.

(** ** The terrain store ([useTerrainStore]) *)

Module TerrainStore.

Record TerrainSnapshot : Type := {
  seed : number;
  scale : number;
  persistence : number;
  lacunarity : number;
  octaves : number;
  waterLevel : number;
  beachLevel : number;
  plainsLevel : number;
  hillsLevel : number
}.

Definition DEFAULT_TERRAIN_SNAPSHOT : TerrainSnapshot :=
  {| seed := Num 12345;
     scale := Num 0.5;
     persistence := Num 0.5;
     lacunarity := Num 2;
     octaves := Num 6;
     waterLevel := Num 0.4;
     beachLevel := Num 0.42;
     plainsLevel := Num 0.55;
     hillsLevel := Num 0.75 |}.

Definition createDefaultTerrainSnapshot : TerrainSnapshot := DEFAULT_TERRAIN_SNAPSHOT.

(** [Math.max(lo, Math.min(hi, value))]. *)
Definition limited (lo hi : Q) (value : number) : number :=
  Math_max (Num lo) (Math_min (Num hi) value).

(** A call of a method of the store; [RandomizeSeed] carries the number
    that [Math.random()] returns. *)
Inductive Call : Type :=
| SetSeed (seed : number)
| SetScale (scale : number)
| SetPersistence (persistence : number)
| SetLacunarity (lacunarity : number)
| SetOctaves (octaves : number)
| SetWaterLevel (level : number)
| SetBeachLevel (level : number)
| SetPlainsLevel (level : number)
| SetHillsLevel (level : number)
| RandomizeSeed (random : number)
| Reset.

Definition setSeed (value : number) (s : TerrainSnapshot) : TerrainSnapshot :=
  {| seed := value;
     scale := scale s;
     persistence := persistence s;
     lacunarity := lacunarity s;
     octaves := octaves s;
     waterLevel := waterLevel s;
     beachLevel := beachLevel s;
     plainsLevel := plainsLevel s;
     hillsLevel := hillsLevel s |}.

Definition setScale (value : number) (s : TerrainSnapshot) : TerrainSnapshot :=
  {| seed := seed s;
     scale := limited 0.01 2 value;
     persistence := persistence s;
     lacunarity := lacunarity s;
     octaves := octaves s;
     waterLevel := waterLevel s;
     beachLevel := beachLevel s;
     plainsLevel := plainsLevel s;
     hillsLevel := hillsLevel s |}.

Definition setPersistence (value : number) (s : TerrainSnapshot) : TerrainSnapshot :=
  {| seed := seed s;
     scale := scale s;
     persistence := limited 0 1 value;
     lacunarity := lacunarity s;
     octaves := octaves s;
     waterLevel := waterLevel s;
     beachLevel := beachLevel s;
     plainsLevel := plainsLevel s;
     hillsLevel := hillsLevel s |}.

Definition setLacunarity (value : number) (s : TerrainSnapshot) : TerrainSnapshot :=
  {| seed := seed s;
     scale := scale s;
     persistence := persistence s;
     lacunarity := limited 1 4 value;
     octaves := octaves s;
     waterLevel := waterLevel s;
     beachLevel := beachLevel s;
     plainsLevel := plainsLevel s;
     hillsLevel := hillsLevel s |}.

Definition setOctaves (value : number) (s : TerrainSnapshot) : TerrainSnapshot :=
  {| seed := seed s;
     scale := scale s;
     persistence := persistence s;
     lacunarity := lacunarity s;
     octaves := limited 1 10 (Math_floor value);
     waterLevel := waterLevel s;
     beachLevel := beachLevel s;
     plainsLevel := plainsLevel s;
     hillsLevel := hillsLevel s |}.

Definition setWaterLevel (value : number) (s : TerrainSnapshot) : TerrainSnapshot :=
  {| seed := seed s;
     scale := scale s;
     persistence := persistence s;
     lacunarity := lacunarity s;
     octaves := octaves s;
     waterLevel := limited 0 1 value;
     beachLevel := beachLevel s;
     plainsLevel := plainsLevel s;
     hillsLevel := hillsLevel s |}.

Definition setBeachLevel (value : number) (s : TerrainSnapshot) : TerrainSnapshot :=
  {| seed := seed s;
     scale := scale s;
     persistence := persistence s;
     lacunarity := lacunarity s;
     octaves := octaves s;
     waterLevel := waterLevel s;
     beachLevel := limited 0 1 value;
     plainsLevel := plainsLevel s;
     hillsLevel := hillsLevel s |}.

Definition setPlainsLevel (value : number) (s : TerrainSnapshot) : TerrainSnapshot :=
  {| seed := seed s;
     scale := scale s;
     persistence := persistence s;
     lacunarity := lacunarity s;
     octaves := octaves s;
     waterLevel := waterLevel s;
     beachLevel := beachLevel s;
     plainsLevel := limited 0 1 value;
     hillsLevel := hillsLevel s |}.

Definition setHillsLevel (value : number) (s : TerrainSnapshot) : TerrainSnapshot :=
  {| seed := seed s;
     scale := scale s;
     persistence := persistence s;
     lacunarity := lacunarity s;
     octaves := octaves s;
     waterLevel := waterLevel s;
     beachLevel := beachLevel s;
     plainsLevel := plainsLevel s;
     hillsLevel := limited 0 1 value |}.

(** [value] is the number that [Math.random()] returns. *)
Definition randomizeSeed (value : number) (s : TerrainSnapshot) : TerrainSnapshot :=
  {| seed := Math_floor (Number_times value (Num 1000000));
     scale := scale s;
     persistence := persistence s;
     lacunarity := lacunarity s;
     octaves := octaves s;
     waterLevel := waterLevel s;
     beachLevel := beachLevel s;
     plainsLevel := plainsLevel s;
     hillsLevel := hillsLevel s |}.

Definition reset (_ : TerrainSnapshot) : TerrainSnapshot := createDefaultTerrainSnapshot.

Definition perform (s : TerrainSnapshot) (call : Call) : TerrainSnapshot :=
  match call with
  | SetSeed value => setSeed value s
  | SetScale value => setScale value s
  | SetPersistence value => setPersistence value s
  | SetLacunarity value => setLacunarity value s
  | SetOctaves value => setOctaves value s
  | SetWaterLevel value => setWaterLevel value s
  | SetBeachLevel value => setBeachLevel value s
  | SetPlainsLevel value => setPlainsLevel value s
  | SetHillsLevel value => setHillsLevel value s
  | RandomizeSeed random => randomizeSeed random s
  | Reset => reset s
  end.

(** The argument of a call is not [NaN]. *)
Definition definite (call : Call) : Prop :=
  match call with
  | SetSeed n | SetScale n | SetPersistence n | SetLacunarity n | SetOctaves n
  | SetWaterLevel n | SetBeachLevel n | SetPlainsLevel n | SetHillsLevel n
  | RandomizeSeed n => n <> NaN
  | Reset => True
  end.

(** The ranges that the setters clamp to. *)
Definition inRange (s : TerrainSnapshot) : Prop :=
  between 0.01 2 (scale s)
  /\ between 0 1 (persistence s)
  /\ between 1 4 (lacunarity s)
  /\ (exists n : Z, octaves s = Int n /\ 1 <= n <= 10)
  /\ between 0 1 (waterLevel s)
  /\ between 0 1 (beachLevel s)
  /\ between 0 1 (plainsLevel s)
  /\ between 0 1 (hillsLevel s).

End TerrainStore.

(** The calls of an evening at the climate panel. *)
Definition climateSession : list ClimateStore.Call :=
  [ ClimateStore.SetAxialTilt (Num 120);
    ClimateStore.SetAlbedo (Num (-2));
    ClimateStore.SetYearLength (Num 0.25);
    ClimateStore.IncrementTime (Num 400.5);
    ClimateStore.ToggleTemperatureOverlay;
    ClimateStore.SetGreenhouseMultiplier (Num 1.5) ].

(** The calls of a session at the terrain panel. *)
Definition terrainSession : list TerrainStore.Call :=
  [ TerrainStore.SetOctaves (Num 12.5);
    TerrainStore.SetPersistence NegInfinity;
    TerrainStore.SetLacunarity (Num 0.5);
    TerrainStore.SetScale PosInfinity;
    TerrainStore.RandomizeSeed (Num 0.25);
    TerrainStore.SetHillsLevel (Num 3) ].

(** ** The event bus ([createEventBus])

    A listener is a function, compared by identity: it is modelled by a
    number that names it.  [emit] returns the calls that it makes, in
    order; what a listener does when called is outside the bus, which is
    not changed while it emits. *)

Module EventBus.

Definition Listener : Type := nat.

(** A [Set] of listeners in insertion order. *)
Definition ListenerSet : Type := list Listener.

Definition ListenerMap : Type := gmap string ListenerSet.

Definition Set_has (listener : Listener) (set : ListenerSet) : bool :=
  existsb (Nat.eqb listener) set.

Definition Set_add (listener : Listener) (set : ListenerSet) : ListenerSet :=
  if Set_has listener set then set else (set ++ [listener])%list.

Definition Set_delete (listener : Listener) (set : ListenerSet) : ListenerSet :=
  List.filter (fun other => negb (Nat.eqb listener other)) set.

(** [createEventBus()]: the map of a new bus. *)
Definition createEventBus : ListenerMap := ∅.

Definition emit {Payload : Type} (event : string) (payload : Payload)
    (listeners : ListenerMap) : list (Listener * Payload) :=
  match listeners !! event with
  | None => []
  | Some set => map (fun listener => (listener, payload)) set
  end.

(** [getListenerSet] stores a new set when the event has none; [on] adds
    the listener to it. *)
Definition on (event : string) (listener : Listener) (listeners : ListenerMap)
  : ListenerMap :=
  let set :=
    match listeners !! event with
    | Some set => set
    | None => []
    end in
  <[event := Set_add listener set]> listeners.

Definition off (event : string) (listener : Listener) (listeners : ListenerMap)
  : ListenerMap :=
  match listeners !! event with
  | None => listeners
  | Some set =>
      let set' := Set_delete listener set in
      if (List.length set' =? 0)%nat then delete event listeners
      else <[event := set']> listeners
  end.

Definition clear (event : option string) (listeners : ListenerMap) : ListenerMap :=
  match event with
  | None => ∅
  | Some event' => delete event' listeners
  end.

End EventBus.

(** No event of the bus has an empty set, and no listener is twice in a set. *)
Definition tidy (listeners : EventBus.ListenerMap) : Prop :=
  forall event set, listeners !! event = Some set -> set <> [] /\ List.NoDup set.

(** The listeners that [emit] calls for [event], in order. *)
Definition called (event : string) (listeners : EventBus.ListenerMap)
  : list EventBus.Listener :=
  map fst (EventBus.emit event tt listeners).

(** ** [src/stores/notificationStore.ts] *)

Module NotificationStore.

Inductive NotificationVariant : Type := info | warn | error.

(** [durationMs?: number | null]: absent, [null] or a number. *)
Inductive Duration : Type :=
| DurationAbsent
| DurationNull
| DurationOf (milliseconds : number).

Record NotificationEntry : Type := {
  id : string;
  variant : NotificationVariant;
  message : string;
  title : option string;
  createdAt : Z;
  durationMs : option number
}.

Record NotificationInput : Type := {
  input_id : option string;
  input_variant : NotificationVariant;
  input_message : string;
  input_title : option string;
  input_durationMs : Duration
}.

(** The state of the module: the store and the counter [notificationSeed]. *)
Record State : Type := {
  notifications : list NotificationEntry;
  notificationSeed : Z
}.

Definition initial : State := {| notifications := []; notificationSeed := 0 |}.

Definition DEFAULT_DURATION_MS : Q := 6000.

(** [now] is what [Date.now()] returns. *)
Definition createNotificationId (rt : Runtime) (now : Z) (state : State) : string * State :=
  let seed := notificationSeed state + 1 in
  ("toast-" ++ Number_toString rt (Int now) ++ "-" ++ Number_toString rt (Int seed),
   {| notifications := notifications state; notificationSeed := seed |}).

Definition resolveDuration (duration : Duration) : option number :=
  match duration with
  | DurationOf d => if Number_less (Num 0) d then Some d else None
  | DurationNull => None
  | DurationAbsent => Some (Num DEFAULT_DURATION_MS)
  end.

Definition differs (id' : string) (item : NotificationEntry) : bool :=
  negb (String.eqb (id item) id').

(** [push]; the clock is read for the identifier, when none is given, and
    again for [createdAt]. *)
Definition push (rt : Runtime) (now created : Z) (input : NotificationInput) (state : State)
  : NotificationEntry * State :=
  let '(id', state1) :=
    match input_id input with
    | Some given => (given, state)
    | None => createNotificationId rt now state
    end in
  let notification :=
    {| id := id';
       variant := input_variant input;
       message := input_message input;
       title := input_title input;
       createdAt := created;
       durationMs := resolveDuration (input_durationMs input) |} in
  (notification,
   {| notifications := (List.filter (differs id') (notifications state1) ++ [notification])%list;
      notificationSeed := notificationSeed state1 |}).

Definition dismiss (id' : string) (state : State) : State :=
  {| notifications := List.filter (differs id') (notifications state);
     notificationSeed := notificationSeed state |}.

Definition clear (state : State) : State :=
  {| notifications := []; notificationSeed := notificationSeed state |}.

Record NotifyOptions : Type := {
  options_id : option string;
  options_title : option string;
  options_durationMs : Duration
}.

Definition dispatchNotification (rt : Runtime) (now created : Z)
    (variant' : NotificationVariant) (message' : string) (options : option NotifyOptions)
    (state : State) : NotificationEntry * State :=
  push rt now created
    {| input_id := match options with Some o => options_id o | None => None end;
       input_variant := variant';
       input_message := message';
       input_title := match options with Some o => options_title o | None => None end;
       input_durationMs :=
         match options with Some o => options_durationMs o | None => DurationAbsent end |}
    state.

Definition notifyInfo rt now created := dispatchNotification rt now created info.
Definition notifyWarn rt now created := dispatchNotification rt now created warn.
Definition notifyError rt now created := dispatchNotification rt now created error.
Definition notify := dispatchNotification.
Definition dismissNotification := dismiss.
Definition clearNotifications := clear.

(** A call of the interface. *)
Inductive Call : Type :=
| Notify (now created : Z) (variant : NotificationVariant) (message : string)
         (options : option NotifyOptions)
| Dismiss (id : string)
| Clear.

Definition perform (rt : Runtime) (state : State) (call : Call) : State :=
  match call with
  | Notify now created variant' message' options =>
      snd (notify rt now created variant' message' options state)
  | Dismiss id' => dismissNotification id' state
  | Clear => clearNotifications state
  end.

End NotificationStore.

(** A duration of a notification: none, or a number above 0. *)
Definition properDuration (duration : option number) : Prop :=
  match duration with
  | None => True
  | Some d => Number_less (Num 0) d = true
  end.

(** The identifiers of the store are distinct and its durations proper. *)
Definition properStore (state : NotificationStore.State) : Prop :=
  List.NoDup (map NotificationStore.id (NotificationStore.notifications state))
  /\ Forall (fun n => properDuration (NotificationStore.durationMs n))
       (NotificationStore.notifications state).

(** ** The climate model: temperature colours ([getTemperatureColor]) *)

(** [a >= b]. *)
Definition Number_atLeast (a b : number) : bool :=
  match a, b with
  | NaN, _ | _, NaN => false
  | Num x, Num y => Qleb y x
  | PosInfinity, _ | _, NegInfinity => true
  | _, _ => false
  end.

Module ClimateModel.

Definition kelvinToCelsius (tempKelvin : number) : number :=
  Number_minus tempKelvin (Num 273.15).

Definition celsiusToKelvin (tempCelsius : number) : number :=
  Number_plus tempCelsius (Num 273.15).

Record TemperatureRange : Type := {
  min : Q;
  max : Q;
  color : string
}.

Definition ranges : list TemperatureRange :=
  [ {| min := -50; max := -20; color := "#0000ff" |};
    {| min := -20; max := -10; color := "#0080ff" |};
    {| min := -10; max := 0; color := "#00ffff" |};
    {| min := 0; max := 10; color := "#00ff80" |};
    {| min := 10; max := 20; color := "#00ff00" |};
    {| min := 20; max := 30; color := "#80ff00" |};
    {| min := 30; max := 40; color := "#ffff00" |};
    {| min := 40; max := 50; color := "#ff8000" |};
    {| min := 50; max := 100; color := "#ff0000" |} ].

(** The loop [for (const range of ranges)], which returns from the
    function at the first range that holds the temperature. *)
Fixpoint firstRange (tempCelsius : number) (remaining : list TemperatureRange)
  : option string :=
  match remaining with
  | [] => None
  | range :: rest =>
      if Number_atLeast tempCelsius (Num (min range))
         && Number_less tempCelsius (Num (max range))
      then Some (color range)
      else firstRange tempCelsius rest
  end.

Definition getTemperatureColor (tempCelsius : number) : string :=
  match firstRange tempCelsius ranges with
  | Some found => found
  | None => if Number_less tempCelsius (Num (-50)) then "#000080" else "#800000"
  end.

End ClimateModel.

(** ** The tick scheduler ([createTickScheduler])

    The scheduler is the record of the variables that its closures share.
    An operation returns the scheduler after it and what it did to the
    outside: the listeners that it called through the bus, with the events,
    and its calls of the timer.  The clock reading of an operation that
    reads [now()] is an argument; options and clock readings are finite
    numbers; the timer returns a handle other than [null], so the field
    [timerHandle] tells whether a timer is pending.  A listener returns
    normally and calls neither the scheduler nor its bus while it runs. *)

Module Scheduler.

Definition DEFAULT_FIXED_DELTA_MS : Q := 50.
Definition DEFAULT_FRAME_INTERVAL_MS : Q := 16.
Definition DEFAULT_MAX_STEPS_PER_FRAME : Q := 200.

Record SimulationSpeedOption : Type := {
  label : string;
  multiplier : Q
}.

Record SimulationTickEvent : Type := {
  tick_frame : Z;
  tick_fixedDeltaMs : Q;
  tick_elapsedMs : Q;
  tick_speed : Q
}.

Record SimulationState : Type := {
  state_running : bool;
  state_speed : Q
}.

(** The payload of the events [tick] and [state]. *)
Inductive SimulationEvent : Type :=
| Tick (event : SimulationTickEvent)
| StateChange (state : SimulationState).

Record SimulationTickSchedulerOptions : Type := {
  option_fixedDeltaMs : option Q;
  option_frameIntervalMs : option Q;
  option_maxStepsPerFrame : option Q;
  option_speeds : option (list SimulationSpeedOption);
  option_initialSpeedMultiplier : option Q;
  option_autoStart : bool;
  option_bus : option EventBus.ListenerMap
}.

Definition DEFAULT_SIMULATION_SPEEDS : list SimulationSpeedOption :=
  [ {| label := "1x"; multiplier := 1 |};
    {| label := "5x"; multiplier := 5 |};
    {| label := "20x"; multiplier := 20 |} ].

Inductive Effect : Type :=
| Call (listener : EventBus.Listener) (event : SimulationEvent)
| TimerSet (delay : Q)
| TimerClear.

Record Scheduler : Type := {
  fixedDeltaMs : Q;
  frameIntervalMs : Q;
  maxStepsPerFrame : Q;
  speedOptions : list SimulationSpeedOption;
  running : bool;
  speed : Q;
  lastTime : option Q;
  accumulator : Q;
  frame : Z;
  elapsedMs : Q;
  timerHandle : bool;
  bus : EventBus.ListenerMap
}.

(** [Math.max] and [Math.min] of two finite numbers. *)
Definition maximum (a b : Q) : Q := if Qltb a b then b else a.
Definition minimum (a b : Q) : Q := if Qltb b a then b else a.

(** The scheduler with new values of its variables. *)
Definition assign (s : Scheduler) (running' : bool) (speed' : Q) (lastTime' : option Q)
    (accumulator' : Q) (frame' : Z) (elapsedMs' : Q) (timerHandle' : bool)
    (bus' : EventBus.ListenerMap) : Scheduler :=
  {| fixedDeltaMs := fixedDeltaMs s;
     frameIntervalMs := frameIntervalMs s;
     maxStepsPerFrame := maxStepsPerFrame s;
     speedOptions := speedOptions s;
     running := running';
     speed := speed';
     lastTime := lastTime';
     accumulator := accumulator';
     frame := frame';
     elapsedMs := elapsedMs';
     timerHandle := timerHandle';
     bus := bus' |}.

Definition getState (s : Scheduler) : SimulationState :=
  {| state_running := running s; state_speed := speed s |}.

(** [bus.emit(event, payload)]: the calls of the listeners. *)
Definition publish (event : string) (payload : SimulationEvent) (s : Scheduler)
  : list Effect :=
  map (fun '(listener, sent) => Call listener sent) (EventBus.emit event payload (bus s)).

Definition emitState (s : Scheduler) : list Effect :=
  publish "state" (StateChange (getState s)) s.

Definition scheduleLoop (s : Scheduler) : Scheduler * list Effect :=
  if negb (running s) || timerHandle s then (s, [])
  else
    (assign s (running s) (speed s) (lastTime s) (accumulator s) (frame s) (elapsedMs s)
       true (bus s),
     [TimerSet (frameIntervalMs s)]).

(** The loop [while (accumulator >= fixedDeltaMs && steps < maxStepsPerFrame)]:
    the number of steps, the scheduler and the calls made. *)
Fixpoint stepLoop (fuel : nat) (activeSpeed : Q) (steps : Z) (s : Scheduler)
  : Z * Scheduler * list Effect :=
  match fuel with
  | O => (steps, s, [])
  | S fuel' =>
      if Qleb (fixedDeltaMs s) (accumulator s)
         && Qltb (inject_Z steps) (maxStepsPerFrame s)
      then
        let s' :=
          assign s (running s) (speed s) (lastTime s)
            (accumulator s - fixedDeltaMs s) (frame s + 1)
            (elapsedMs s + fixedDeltaMs s) (timerHandle s) (bus s) in
        let calls :=
          publish "tick"
            (Tick {| tick_frame := frame s';
                     tick_fixedDeltaMs := fixedDeltaMs s';
                     tick_elapsedMs := elapsedMs s';
                     tick_speed := activeSpeed |}) s' in
        let '(steps', s'', rest) := stepLoop fuel' activeSpeed (steps + 1) s' in
        (steps', s'', (calls ++ rest)%list)
      else (steps, s, [])
  end.

(** The loop ends after at most this many steps, when [steps] has reached
    [maxStepsPerFrame]. *)
Definition stepBound (s : Scheduler) : nat := Z.to_nat (Qceiling (maxStepsPerFrame s)).

Definition loop (currentTime : Q) (s : Scheduler) : Scheduler * list Effect :=
  if negb (running s) then (s, [])
  else
    match lastTime s with
    | None =>
        scheduleLoop
          (assign s (running s) (speed s) (Some currentTime) (accumulator s) (frame s)
             (elapsedMs s) (timerHandle s) (bus s))
    | Some last =>
        let delta := (currentTime - last)%Q in
        let s1 :=
          assign s (running s) (speed s) (Some currentTime) (accumulator s) (frame s)
            (elapsedMs s) (timerHandle s) (bus s) in
        if Qleb delta 0 then scheduleLoop s1
        else
          let activeSpeed := speed s1 in
          let s2 :=
            assign s1 (running s1) (speed s1) (lastTime s1)
              (accumulator s1 + delta * activeSpeed) (frame s1) (elapsedMs s1)
              (timerHandle s1) (bus s1) in
          let '(steps, s3, calls) := stepLoop (stepBound s2) activeSpeed 0 s2 in
          let s4 :=
            if Qeq_bool (inject_Z steps) (maxStepsPerFrame s3)
               && Qleb (fixedDeltaMs s3) (accumulator s3)
            then
              assign s3 (running s3) (speed s3) (lastTime s3)
                (Noise.Qrem (accumulator s3) (fixedDeltaMs s3)) (frame s3) (elapsedMs s3)
                (timerHandle s3) (bus s3)
            else s3 in
          let '(s5, timer) := scheduleLoop s4 in
          (s5, (calls ++ timer)%list)
    end.

(** The callback that [scheduleLoop] hands to the timer. *)
Definition timerFired (currentTime : Q) (s : Scheduler) : Scheduler * list Effect :=
  loop currentTime
    (assign s (running s) (speed s) (lastTime s) (accumulator s) (frame s) (elapsedMs s)
       false (bus s)).

Definition play (currentTime : Q) (s : Scheduler) : Scheduler * list Effect :=
  if running s then (s, [])
  else
    let s1 :=
      assign s true (speed s) (Some currentTime) (accumulator s) (frame s) (elapsedMs s)
        (timerHandle s) (bus s) in
    let '(s2, timer) := scheduleLoop s1 in
    (s2, (emitState s1 ++ timer)%list).

Definition pause (s : Scheduler) : Scheduler * list Effect :=
  if negb (running s) then (s, [])
  else
    let s1 :=
      assign s false (speed s) None (accumulator s) (frame s) (elapsedMs s) false (bus s) in
    (s1, ((if timerHandle s then [TimerClear] else []) ++ emitState s1)%list).

Definition toggle (currentTime : Q) (s : Scheduler) : Scheduler * list Effect :=
  if running s then pause s else play currentTime s.

(** [speedMultipliers.has(multiplier)]. *)
Definition hasMultiplier (value : Q) (options : list SimulationSpeedOption) : bool :=
  existsb (fun option => Qeq_bool (multiplier option) value) options.

Definition setSpeed (rt : Runtime) (value : Q) (s : Scheduler)
  : result (Scheduler * list Effect) :=
  if negb (hasMultiplier value (speedOptions s))
  then Throw (Error ("Unsupported speed multiplier: " ++ Number_toString rt (Num value)))
  else if Qeq_bool value (speed s) then Ok (s, [])
  else
    let s1 :=
      assign s (running s) value (lastTime s) (accumulator s) (frame s) (elapsedMs s)
        (timerHandle s) (bus s) in
    Ok (s1, emitState s1).

Definition onTick (listener : EventBus.Listener) (s : Scheduler) : Scheduler :=
  assign s (running s) (speed s) (lastTime s) (accumulator s) (frame s) (elapsedMs s)
    (timerHandle s) (EventBus.on "tick" listener (bus s)).

Definition onStateChange (listener : EventBus.Listener) (s : Scheduler)
  : Scheduler * list Effect :=
  (assign s (running s) (speed s) (lastTime s) (accumulator s) (frame s) (elapsedMs s)
     (timerHandle s) (EventBus.on "state" listener (bus s)),
   [Call listener (StateChange (getState s))]).

(** The function that [onTick] and [onStateChange] return: [off(event, listener)]. *)
Definition unsubscribe (event : string) (listener : EventBus.Listener) (s : Scheduler)
  : Scheduler :=
  assign s (running s) (speed s) (lastTime s) (accumulator s) (frame s) (elapsedMs s)
    (timerHandle s) (EventBus.off event listener (bus s)).

Definition dispose (s : Scheduler) : Scheduler * list Effect :=
  let '(s1, effects) := pause s in
  (assign s1 (running s1) (speed s1) (lastTime s1) 0 0 0 (timerHandle s1)
     (EventBus.clear None (bus s1)),
   effects).

Definition getSpeeds (s : Scheduler) : list SimulationSpeedOption := speedOptions s.
Definition getFixedDeltaMs (s : Scheduler) : Q := fixedDeltaMs s.

Definition createTickScheduler (options : SimulationTickSchedulerOptions) (currentTime : Q)
  : result (Scheduler * list Effect) :=
  let fixedDeltaMs' :=
    match option_fixedDeltaMs options with
    | Some value => value
    | None => DEFAULT_FIXED_DELTA_MS
    end in
  if Qleb fixedDeltaMs' 0
  then Throw (Error "fixedDeltaMs must be greater than zero.")
  else
    let frameIntervalMs' :=
      maximum 0
        match option_frameIntervalMs options with
        | Some value => value
        | None => minimum DEFAULT_FRAME_INTERVAL_MS fixedDeltaMs'
        end in
    let maxStepsPerFrame' :=
      maximum 1
        match option_maxStepsPerFrame options with
        | Some value => value
        | None => DEFAULT_MAX_STEPS_PER_FRAME
        end in
    let speedOptions' :=
      map (fun option => {| label := label option; multiplier := multiplier option |})
        match option_speeds options with
        | Some speeds => speeds
        | None => DEFAULT_SIMULATION_SPEEDS
        end in
    match speedOptions' with
    | [] => Throw (Error "At least one speed option must be provided.")
    | first :: _ =>
        if existsb (fun option => Qleb (multiplier option) 0) speedOptions'
        then Throw (Error "Speed multipliers must be greater than zero.")
        else
          let initialSpeed :=
            match option_initialSpeedMultiplier options with
            | Some value => value
            | None => multiplier first
            end in
          if negb (hasMultiplier initialSpeed speedOptions')
          then Throw (Error
                        "Initial speed multiplier must be one of the configured speed options.")
          else
            let s :=
              {| fixedDeltaMs := fixedDeltaMs';
                 frameIntervalMs := frameIntervalMs';
                 maxStepsPerFrame := maxStepsPerFrame';
                 speedOptions := speedOptions';
                 running := false;
                 speed := initialSpeed;
                 lastTime := None;
                 accumulator := 0;
                 frame := 0;
                 elapsedMs := 0;
                 timerHandle := false;
                 bus :=
                   match option_bus options with
                   | Some given => given
                   | None => EventBus.createEventBus
                   end |} in
            if option_autoStart options
            then
              let '(s1, effects) := play currentTime s in
              Ok (s1, (emitState s ++ effects)%list)
            else Ok (s, emitState s)
    end.

(** The default [options = {}]. *)
Definition noOptions : SimulationTickSchedulerOptions :=
  {| option_fixedDeltaMs := None;
     option_frameIntervalMs := None;
     option_maxStepsPerFrame := None;
     option_speeds := None;
     option_initialSpeedMultiplier := None;
     option_autoStart := false;
     option_bus := None |}.

(** A call of the interface of the scheduler, or the firing of its timer. *)
Inductive Operation : Type :=
| Play (currentTime : Q)
| Pause
| Toggle (currentTime : Q)
| SetSpeed (value : Q)
| OnTick (listener : EventBus.Listener)
| OnStateChange (listener : EventBus.Listener)
| Unsubscribe (event : string) (listener : EventBus.Listener)
| Dispose
| TimerFired (currentTime : Q).

(** An operation that throws leaves the scheduler as it was. *)
Definition perform (rt : Runtime) (s : Scheduler) (operation : Operation)
  : Scheduler * list Effect :=
  match operation with
  | Play currentTime => play currentTime s
  | Pause => pause s
  | Toggle currentTime => toggle currentTime s
  | SetSpeed value =>
      match setSpeed rt value s with
      | Ok outcome => outcome
      | Throw _ => (s, [])
      end
  | OnTick listener => (onTick listener s, [])
  | OnStateChange listener => onStateChange listener s
  | Unsubscribe event listener => (unsubscribe event listener s, [])
  | Dispose => dispose s
  | TimerFired currentTime => if timerHandle s then timerFired currentTime s else (s, [])
  end.

End Scheduler.

(** What holds of a scheduler between two operations. *)
Definition steady (s : Scheduler.Scheduler) : Prop :=
  (0 < Scheduler.fixedDeltaMs s)%Q
  /\ (0 <= Scheduler.frameIntervalMs s)%Q
  /\ (1 <= Scheduler.maxStepsPerFrame s)%Q
  /\ Forall (fun option => (0 < Scheduler.multiplier option)%Q) (Scheduler.speedOptions s)
  /\ Scheduler.hasMultiplier (Scheduler.speed s) (Scheduler.speedOptions s) = true
  /\ (0 <= Scheduler.accumulator s)%Q
  /\ 0 <= Scheduler.frame s
  /\ (0 <= Scheduler.elapsedMs s)%Q
  /\ (Scheduler.timerHandle s = true -> Scheduler.running s = true)
  /\ (Scheduler.running s = true <-> Scheduler.lastTime s <> None).

(** The tick events that the effects deliver to a listener, in order. *)
Fixpoint ticksOf (listener : EventBus.Listener) (effects : list Scheduler.Effect)
  : list Scheduler.SimulationTickEvent :=
  match effects with
  | [] => []
  | Scheduler.Call called (Scheduler.Tick event) :: rest =>
      if Nat.eqb called listener then event :: ticksOf listener rest
      else ticksOf listener rest
  | _ :: rest => ticksOf listener rest
  end.

(** The options that [createTickScheduler] accepts. *)
Definition acceptable (options : Scheduler.SimulationTickSchedulerOptions) : Prop :=
  let speeds :=
    match Scheduler.option_speeds options with
    | Some speeds => speeds
    | None => Scheduler.DEFAULT_SIMULATION_SPEEDS
    end in
  (0 < match Scheduler.option_fixedDeltaMs options with
       | Some value => value
       | None => Scheduler.DEFAULT_FIXED_DELTA_MS
       end)%Q
  /\ speeds <> []
  /\ Forall (fun option => (0 < Scheduler.multiplier option)%Q) speeds
  /\ match Scheduler.option_initialSpeedMultiplier options with
     | Some value => Exists (fun option => (Scheduler.multiplier option == value)%Q) speeds
     | None => True
     end.

(** The result of a sequence of operations: the scheduler and all effects. *)
Fixpoint session (rt : Runtime) (s : Scheduler.Scheduler)
    (operations : list Scheduler.Operation) : Scheduler.Scheduler * list Scheduler.Effect :=
  match operations with
  | [] => (s, [])
  | operation :: rest =>
      let '(s1, effects) := Scheduler.perform rt s operation in
      let '(s2, later) := session rt s1 rest in
      (s2, (effects ++ later)%list)
  end.

(** The frames from [first + 1] on, [count] of them. *)
Definition framesAfter (first : Z) (count : nat) : list Z :=
  map (fun k => first + 1 + Z.of_nat k) (seq 0 count).

(** Less than one fixed step of time is waiting in the accumulator. *)
Definition drained (s : Scheduler.Scheduler) : Prop :=
  (Scheduler.accumulator s < Scheduler.fixedDeltaMs s)%Q.

(** [maxStepsPerFrame] is a whole number. *)
Definition wholeSteps (s : Scheduler.Scheduler) : Prop :=
  exists n : Z, (Scheduler.maxStepsPerFrame s == inject_Z n)%Q.

(** * Properties *)

(** ** Comparisons and clamps *)

Lemma Qleb_le (a b : Q) : Qleb a b = true <-> (a <= b)%Q.
Proof. unfold Qleb. apply Qle_bool_iff. Qed.

Lemma Qltb_lt (a b : Q) : Qltb a b = true <-> (a < b)%Q.
Proof.
  unfold Qltb. rewrite negb_true_iff.
  destruct (Qle_bool b a) eqn:E.
  - apply Qle_bool_iff in E. split; [discriminate | intros H; lra].
  - split; [intros _ | reflexivity].
    destruct (Qlt_le_dec a b) as [H | H]; [exact H |].
    apply Qle_bool_iff in H. congruence.
Qed.

Lemma Qltb_ge (a b : Q) : Qltb a b = false <-> (b <= a)%Q.
Proof.
  unfold Qltb. rewrite negb_false_iff. apply Qle_bool_iff.
Qed.

(** Case analysis on every rational comparison of the goal. *)
Ltac qcases :=
  repeat match goal with
    | |- context [Qltb ?a ?b] =>
        let E := fresh "E" in
        destruct (Qltb a b) eqn:E;
        [apply Qltb_lt in E | apply Qltb_ge in E]
    | |- context [Qleb ?a ?b] =>
        let E := fresh "E" in
        destruct (Qleb a b) eqn:E;
        [apply Qleb_le in E | apply not_true_iff_false in E; rewrite Qleb_le in E]
    end.

Lemma clamp_within (lo hi : Q) (n : number) :
  (lo <= 0)%Q -> (0 <= hi)%Q -> within lo hi (clamp lo hi n) = true.
Proof.
  intros Hlo Hhi. destruct n as [q | | |]; simpl.
  all: qcases; simpl; rewrite ?andb_true_iff, ?Qleb_le; try split; try lra.
Qed.


Lemma within_finite (lo hi : Q) (n : number) :
  within lo hi n = true -> Number_isFinite n = true.
Proof. destruct n; simpl; congruence. Qed.

Lemma atLeast_finite (lo : Q) (n : number) :
  atLeast lo n = true -> Number_isFinite n = true.
Proof. destruct n; simpl; congruence. Qed.

Lemma ensureNumber_Num (value : unknown) (fallback : number) :
  Number_isFinite fallback = true -> exists q, ensureNumber value fallback = Num q.
Proof.
  intros H. unfold ensureNumber.
  destruct (isNumber value) as [q |]; [now exists q |].
  destruct fallback; try discriminate. now eexists.
Qed.

Lemma ensureNumber_JNumber (q : Q) (fallback : number) :
  ensureNumber (JNumber (Num q)) fallback = Num q.
Proof. reflexivity. Qed.

Lemma Math_max_atLeast (lo : Q) (n : number) :
  Number_isFinite n = true -> atLeast lo (Math_max (Num lo) n) = true.
Proof.
  destruct n as [q | | |]; try discriminate. intros _. simpl.
  qcases; simpl; apply Qleb_le; lra.
Qed.

Lemma ensurePositiveInteger_ge (value : unknown) (fallback : Z) :
  1 <= fallback -> 1 <= ensurePositiveInteger value fallback 1.
Proof.
  intros H. unfold ensurePositiveInteger.
  destruct (isNumber value) as [q |]; [| exact H].
  destruct (Z.ltb_spec (Qfloor q) 1); lia.
Qed.

Lemma ensurePositiveInteger_Int (z fallback : Z) :
  1 <= z -> ensurePositiveInteger (JNumber (Int z)) fallback 1 = z.
Proof.
  intros H. unfold ensurePositiveInteger, Int, isNumber. cbv beta iota zeta.
  rewrite Qfloor_Z. destruct (Z.ltb_spec z 1); [lia | reflexivity].
Qed.

(** ** Strings *)

Lemma isBlank_empty : isBlank "" = true.
Proof. reflexivity. Qed.

Lemma isBlank_length (s : string) : isBlank s = false -> String.length s <> O.
Proof. destruct s; [discriminate | simpl; congruence]. Qed.

Lemma ensureString_nonBlank (value : unknown) :
  String.length (ensureString value "") <> O ->
  isBlank (ensureString value "") = false.
Proof.
  unfold ensureString. destruct value; simpl; try congruence.
  destruct (isBlank s) eqn:E; simpl; congruence.
Qed.

Lemma ensureString_fallback_nonBlank (value : unknown) (fallback : string) :
  isBlank fallback = false -> isBlank (ensureString value fallback) = false.
Proof.
  intros H. unfold ensureString. destruct value; try exact H.
  destruct (isBlank s) eqn:E; [exact H | exact E].
Qed.

Lemma ensureString_JString (s fallback : string) :
  isBlank s = false -> ensureString (JString s) fallback = s.
Proof. intros H. simpl. now rewrite H. Qed.

(** ** Arrays *)

Lemma slice0_firstn {A : Type} (items : list A) (n : Z) :
  slice0 items n = firstn (Z.to_nat n) items.
Proof.
  revert n. induction items as [| x rest IH]; intros n; simpl.
  - now rewrite firstn_nil.
  - destruct (Z.ltb_spec 0 n) as [H | H].
    + rewrite IH. replace (Z.to_nat n) with (S (Z.to_nat (n - 1))) by lia.
      reflexivity.
    + replace (Z.to_nat n) with O by lia. reflexivity.
Qed.

Lemma fit_length {A : Type} (n : Z) (fill : A) (items : list A) :
  0 <= n -> Z.of_nat (List.length (fit n fill items)) = n.
Proof.
  intros H. unfold fit.
  rewrite List.length_app, List.length_firstn, List.repeat_length. lia.
Qed.

(** The tail of both grid normalizers: cut to the expected length, then pad. *)
Lemma pad_to_length {A : Type} (kept : list A) (n : Z) (fill : A) :
  (if Z.of_nat (List.length (slice0 kept n)) <? n
   then let* padding :=
          Array_from_length (n - Z.of_nat (List.length (slice0 kept n))) fill in
        Array_push_all (slice0 kept n) padding
   else Ok (slice0 kept n))
  = if (n <=? Z.of_nat (List.length kept)) || (n <=? MAX_ARRAY_LENGTH)
    then Ok (fit n fill kept)
    else Throw (RangeError "Invalid array length").
Proof.
  rewrite slice0_firstn. unfold fit, Array_from_length, Array_push_all.
  rewrite List.length_firstn.
  assert (M : MAX_ARRAY_LENGTH = 4294967295) by reflexivity.
  destruct (Z.ltb_spec (Z.of_nat (Nat.min (Z.to_nat n) (List.length kept))) n) as [H | H].
  - replace (Nat.min (Z.to_nat n) (List.length kept)) with (List.length kept) in * by lia.
    destruct (Z.leb_spec n (Z.of_nat (List.length kept))) as [H1 | H1]; [lia |].
    simpl orb.
    destruct (Z.ltb_spec MAX_ARRAY_LENGTH (n - Z.of_nat (List.length kept))) as [H2 | H2];
      simpl bind.
    + destruct (Z.leb_spec n MAX_ARRAY_LENGTH); [lia | reflexivity].
    + rewrite ?List.length_firstn, ?List.repeat_length.
      replace (Nat.min (Z.to_nat n) (List.length kept)) with (List.length kept) by lia.
      replace (Z.of_nat (List.length kept + Z.to_nat (n - Z.of_nat (List.length kept))))
        with n by lia.
      destruct (Z.ltb_spec MAX_ARRAY_LENGTH n), (Z.leb_spec n MAX_ARRAY_LENGTH);
        try lia; try reflexivity.
      do 3 f_equal. lia.
  - assert (C : (n <=? Z.of_nat (List.length kept)) || (n <=? MAX_ARRAY_LENGTH) = true).
    { apply orb_true_iff.
      destruct (Z.le_gt_cases n (Z.of_nat (List.length kept))) as [H1 | H1].
      - left. now apply Z.leb_le.
      - right. apply Z.leb_le. lia. }
    rewrite C. f_equal.
    replace (Z.to_nat n - List.length kept)%nat with O by lia.
    simpl. now rewrite List.app_nil_r.
Qed.

Lemma forallb_firstn {A : Type} (f : A -> bool) (n : nat) (items : list A) :
  forallb f items = true -> forallb f (firstn n items) = true.
Proof.
  revert n. induction items as [| x rest IH]; intros [| n] H; simpl in *; auto.
  apply andb_true_iff in H as [Hx Hrest]. now rewrite Hx, IH.
Qed.

Lemma forallb_repeat {A : Type} (f : A -> bool) (x : A) (n : nat) :
  f x = true -> forallb f (repeat x n) = true.
Proof. intros H. induction n; simpl; [reflexivity | now rewrite H]. Qed.

Lemma forallb_fit {A : Type} (f : A -> bool) (n : Z) (fill : A) (items : list A) :
  f fill = true -> forallb f items = true -> forallb f (fit n fill items) = true.
Proof.
  intros Hfill Hitems. unfold fit. rewrite forallb_app.
  now rewrite forallb_firstn, forallb_repeat.
Qed.

Lemma forallb_mapFilter {A B : Type} (f : A -> option B) (ok : B -> bool) (items : list A) :
  (forall x y, f x = Some y -> ok y = true) ->
  forallb ok (mapFilter f items) = true.
Proof.
  intros H. induction items as [| x rest IH]; simpl; [reflexivity |].
  destruct (f x) as [y |] eqn:E; [| exact IH].
  simpl. now rewrite (H x y E), IH.
Qed.

Lemma forallb_ensureNumber (items : list unknown) :
  forallb Number_isFinite (map (fun entry => ensureNumber entry (Num 0)) items) = true.
Proof.
  induction items as [| x rest IH]; simpl; [reflexivity |].
  rewrite IH. destruct (ensureNumber_Num x (Num 0) eq_refl) as [q ->]. reflexivity.
Qed.

(** ** Grids *)

Lemma expectedCells_pos (w h : Z) (o : list (string * unknown)) :
  1 <= w -> 1 <= h -> 1 <= expectedCells w h o.
Proof.
  intros Hw Hh. unfold expectedCells.
  pose proof (ensurePositiveInteger_ge (prop "width" o) w Hw).
  pose proof (ensurePositiveInteger_ge (prop "height" o) h Hh).
  nia.
Qed.

Lemma normalizeHeightField_record (o : list (string * unknown)) :
  normalizeHeightField (JObject o)
  = let n := expectedCells DEFAULT_HEIGHT_FIELD_WIDTH DEFAULT_HEIGHT_FIELD_HEIGHT o in
    let kept := map (fun entry => ensureNumber entry (Num 0))
                    (arrayOrEmpty (prop "values" o)) in
    if (n <=? Z.of_nat (List.length kept)) || (n <=? MAX_ARRAY_LENGTH)
    then Ok {| hf_width :=
                 ensurePositiveInteger (prop "width" o) DEFAULT_HEIGHT_FIELD_WIDTH 1;
               hf_height :=
                 ensurePositiveInteger (prop "height" o) DEFAULT_HEIGHT_FIELD_HEIGHT 1;
               hf_unit := meters;
               hf_values := fit n (Num 0) kept |}
    else Throw (RangeError "Invalid array length").
Proof.
  unfold normalizeHeightField, padArray. simpl isRecord. cbv beta iota zeta.
  rewrite pad_to_length. simpl hf_width. simpl hf_height.
  unfold expectedCells, arrayOrEmpty.
  destruct (_ || _); reflexivity.
Qed.

Lemma normalizeBiomeMap_record (o : list (string * unknown)) :
  normalizeBiomeMap (JObject o)
  = let n := expectedCells DEFAULT_BIOME_MAP_WIDTH DEFAULT_BIOME_MAP_HEIGHT o in
    let kept := mapFilter normalizeBiomeCell (arrayOrEmpty (prop "cells" o)) in
    if (n <=? Z.of_nat (List.length kept)) || (n <=? MAX_ARRAY_LENGTH)
    then Ok {| bm_width := ensurePositiveInteger (prop "width" o) DEFAULT_BIOME_MAP_WIDTH 1;
               bm_height :=
                 ensurePositiveInteger (prop "height" o) DEFAULT_BIOME_MAP_HEIGHT 1;
               cells := fit n {| biome := "ocean"; biodiversity := Num 0 |} kept |}
    else Throw (RangeError "Invalid array length").
Proof.
  unfold normalizeBiomeMap, padBiomeCells. simpl isRecord. cbv beta iota zeta.
  rewrite pad_to_length. simpl bm_width. simpl bm_height.
  unfold expectedCells, arrayOrEmpty.
  destruct (_ || _); reflexivity.
Qed.

Lemma normalizeHeightField_other (value : unknown) :
  isRecord value = None -> normalizeHeightField value = Ok createDefaultHeightFieldState.
Proof. intros H. unfold normalizeHeightField. now rewrite H. Qed.

Lemma normalizeBiomeMap_other (value : unknown) :
  isRecord value = None -> normalizeBiomeMap value = Ok createDefaultBiomeMapState.
Proof. intros H. unfold normalizeBiomeMap. now rewrite H. Qed.

Lemma isRecord_cases (value : unknown) :
  (exists o, value = JObject o) \/ isRecord value = None.
Proof. destruct value; simpl; eauto. Qed.

Lemma createDefaultHeightFieldState_valid :
  HeightFieldState_valid createDefaultHeightFieldState = true.
Proof. vm_compute. reflexivity. Qed.

Lemma createDefaultBiomeMapState_valid :
  BiomeMapState_valid createDefaultBiomeMapState = true.
Proof. vm_compute. reflexivity. Qed.

Lemma normalizeBiomeCell_valid (value : unknown) (c : BiomeCellState) :
  normalizeBiomeCell value = Some c -> BiomeCellState_valid c = true.
Proof.
  unfold normalizeBiomeCell. destruct (isRecord value) as [o |]; [| discriminate].
  cbv zeta. destruct (Nat.eqb_spec (String.length (ensureString (prop "biome" o) "")) 0)
    as [E | E]; [discriminate |].
  intros [= <-]. unfold BiomeCellState_valid, nonBlank. simpl.
  rewrite (ensureString_nonBlank _ E). simpl.
  apply clamp_within; lra.
Qed.

Lemma normalizeHeightField_valid (value : unknown) (h : HeightFieldState) :
  normalizeHeightField value = Ok h -> HeightFieldState_valid h = true.
Proof.
  destruct (isRecord_cases value) as [[o ->] | E].
  - rewrite normalizeHeightField_record. cbv zeta.
    destruct (_ || _); [| discriminate]. intros [= <-].
    unfold HeightFieldState_valid. simpl.
    pose proof (ensurePositiveInteger_ge (prop "width" o) DEFAULT_HEIGHT_FIELD_WIDTH)
      as Hw.
    pose proof (ensurePositiveInteger_ge (prop "height" o) DEFAULT_HEIGHT_FIELD_HEIGHT)
      as Hh.
    specialize (Hw ltac:(unfold DEFAULT_HEIGHT_FIELD_WIDTH; lia)).
    specialize (Hh ltac:(unfold DEFAULT_HEIGHT_FIELD_HEIGHT; lia)).
    rewrite fit_length by (unfold expectedCells; nia).
    rewrite forallb_fit by (reflexivity || apply forallb_ensureNumber).
    unfold expectedCells. rewrite Z.eqb_refl.
    rewrite !andb_true_iff, !Z.leb_le. auto.
  - rewrite normalizeHeightField_other by exact E. intros [= <-].
    apply createDefaultHeightFieldState_valid.
Qed.

Lemma normalizeBiomeMap_valid (value : unknown) (m : BiomeMapState) :
  normalizeBiomeMap value = Ok m -> BiomeMapState_valid m = true.
Proof.
  destruct (isRecord_cases value) as [[o ->] | E].
  - rewrite normalizeBiomeMap_record. cbv zeta.
    destruct (_ || _); [| discriminate]. intros [= <-].
    unfold BiomeMapState_valid. simpl.
    pose proof (ensurePositiveInteger_ge (prop "width" o) DEFAULT_BIOME_MAP_WIDTH) as Hw.
    pose proof (ensurePositiveInteger_ge (prop "height" o) DEFAULT_BIOME_MAP_HEIGHT) as Hh.
    specialize (Hw ltac:(unfold DEFAULT_BIOME_MAP_WIDTH; lia)).
    specialize (Hh ltac:(unfold DEFAULT_BIOME_MAP_HEIGHT; lia)).
    rewrite fit_length by (unfold expectedCells; nia).
    rewrite forallb_fit
      by (reflexivity || apply forallb_mapFilter, normalizeBiomeCell_valid).
    unfold expectedCells. rewrite Z.eqb_refl.
    rewrite !andb_true_iff, !Z.leb_le. auto.
  - rewrite normalizeBiomeMap_other by exact E. intros [= <-].
    apply createDefaultBiomeMapState_valid.
Qed.

(** ** Every normalizer returns a valid value *)

Lemma ensureNumber_finite (value : unknown) (fallback : number) :
  Number_isFinite fallback = true -> Number_isFinite (ensureNumber value fallback) = true.
Proof. intros H. destruct (ensureNumber_Num value fallback H) as [q ->]. reflexivity. Qed.

Lemma clamp01_within (n : number) : within 0 1 (clamp01 n) = true.
Proof. apply clamp_within; lra. Qed.

Lemma clampPercentage_within (n : number) : within 0 100 (clampPercentage n) = true.
Proof. apply clamp_within; lra. Qed.

Lemma clampLatitude_within (n : number) : within (-90) 90 (clampLatitude n) = true.
Proof. apply clamp_within; lra. Qed.

Lemma clampLongitude_within (n : number) : within (-180) 180 (clampLongitude n) = true.
Proof. apply clamp_within; lra. Qed.

Lemma tilt_within (n : number) :
  Number_isFinite n = true ->
  within 0 90 (Math_min (Math_max n (Num 0)) (Num 90)) = true.
Proof.
  destruct n as [q | | |]; try discriminate. intros _.
  unfold Math_min, Math_max, within.
  qcases; qcases; rewrite ?andb_true_iff, ?Qleb_le;
    try split; try reflexivity; lra.
Qed.

#[local] Arguments clamp : simpl never.
#[local] Arguments clamp01 : simpl never.
#[local] Arguments clampPercentage : simpl never.
#[local] Arguments clampLatitude : simpl never.
#[local] Arguments clampLongitude : simpl never.
#[local] Arguments Math_max : simpl never.
#[local] Arguments Math_min : simpl never.
#[local] Arguments ensureNumber : simpl never.
#[local] Arguments ensureString : simpl never.
#[local] Arguments ensurePositiveInteger : simpl never.
#[local] Arguments within : simpl never.
#[local] Arguments atLeast : simpl never.
#[local] Arguments isBlank : simpl never.

Create HintDb valid.
#[local] Hint Resolve ensureNumber_finite clamp01_within clampPercentage_within
  clampLatitude_within clampLongitude_within tilt_within Math_max_atLeast
  ensureString_nonBlank ensureString_fallback_nonBlank : valid.
#[local] Hint Extern 1 (Number_isFinite (Num _) = true) => reflexivity : valid.

(** Splits a conjunction of boolean checks into its parts. *)
Ltac split_checks :=
  repeat match goal with
    | |- (_ && _) = true => apply andb_true_iff; split
    end.

Lemma normalizeAtmosphericGas_valid (value : unknown) (g : AtmosphericGasComposition) :
  normalizeAtmosphericGas value = Some g -> AtmosphericGasComposition_valid g = true.
Proof.
  unfold normalizeAtmosphericGas. destruct (isRecord value) as [o |]; [| discriminate].
  cbv zeta. destruct (Nat.eqb_spec (String.length (ensureString (prop "gas" o) "")) 0)
    as [E | E]; [discriminate |].
  destruct (isNumber (prop "percentage" o)) as [p |]; [| discriminate].
  intros [= <-]. unfold AtmosphericGasComposition_valid, nonBlank. simpl.
  split_checks; [apply negb_true_iff |]; auto with valid.
Qed.

Lemma createDefaultAtmosphereState_valid :
  AtmosphereState_valid createDefaultAtmosphereState = true.
Proof. vm_compute. reflexivity. Qed.

Lemma normalizeAtmosphere_valid (value : unknown) :
  AtmosphereState_valid (normalizeAtmosphere value) = true.
Proof.
  unfold normalizeAtmosphere.
  destruct (isRecord value) as [o |]; [| apply createDefaultAtmosphereState_valid].
  cbv zeta. unfold AtmosphereState_valid. simpl.
  split_checks; auto with valid.
  - destruct (isArray (prop "gases" o)) as [raw |]; simpl; [| reflexivity].
    destruct (mapFilter normalizeAtmosphericGas raw); reflexivity.
  - destruct (isArray (prop "gases" o)) as [raw |]; simpl; [| reflexivity].
    pose proof (forallb_mapFilter normalizeAtmosphericGas AtmosphericGasComposition_valid
                  raw normalizeAtmosphericGas_valid) as H.
    destruct (mapFilter normalizeAtmosphericGas raw); [reflexivity | exact H].
Qed.

Lemma normalizeTectonicPlate_valid (value : unknown) (p : TectonicPlateState) :
  normalizeTectonicPlate value = Some p -> TectonicPlateState_valid p = true.
Proof.
  unfold normalizeTectonicPlate. destruct (isRecord value) as [o |]; [| discriminate].
  cbv zeta. destruct (Nat.eqb_spec (String.length (ensureString (prop "id" o) "")) 0)
    as [E | E]; [discriminate |].
  intros [= <-]. unfold TectonicPlateState_valid, nonBlank. simpl.
  split_checks; try apply negb_true_iff; auto with valid.
Qed.

Lemma normalizeGeology_valid (value : unknown) (g : GeologyState) :
  normalizeGeology value = Ok g -> GeologyState_valid g = true.
Proof.
  unfold normalizeGeology. destruct (isRecord value) as [o |].
  - cbv zeta. destruct (normalizeHeightField (prop "heightField" o)) as [h |] eqn:E;
      [| discriminate].
    simpl. intros [= <-]. unfold GeologyState_valid. simpl.
    split_checks; auto with valid.
    + destruct (isArray (prop "plates" o)) as [raw |]; simpl; [| reflexivity].
      apply forallb_mapFilter, normalizeTectonicPlate_valid.
    + now apply normalizeHeightField_valid with (value := prop "heightField" o).
  - intros [= <-]. vm_compute. reflexivity.
Qed.

Lemma normalizeCoordinates_valid (value : unknown) :
  Coordinates_valid (normalizeCoordinates value) = true.
Proof.
  unfold normalizeCoordinates. destruct (isRecord value) as [o |]; [| reflexivity].
  unfold Coordinates_valid. simpl. split_checks; auto with valid.
Qed.
#[local] Hint Resolve normalizeCoordinates_valid : valid.

Lemma normalizeRiverSystem_valid (value : unknown) (r : RiverSystemState) :
  normalizeRiverSystem value = Some r -> RiverSystemState_valid r = true.
Proof.
  unfold normalizeRiverSystem. destruct (isRecord value) as [o |]; [| discriminate].
  cbv zeta. destruct (Nat.eqb_spec (String.length (ensureString (prop "id" o) "")) 0)
    as [E | E]; [discriminate |].
  intros [= <-]. unfold RiverSystemState_valid, nonBlank. simpl.
  split_checks; try apply negb_true_iff; auto with valid.
Qed.

Lemma normalizeRiverNetwork_valid (value : unknown) :
  RiverNetworkState_valid (normalizeRiverNetwork value) = true.
Proof.
  unfold normalizeRiverNetwork. destruct (isRecord value) as [o |]; [| reflexivity].
  cbv zeta. unfold RiverNetworkState_valid. simpl. split_checks.
  - destruct (isNumber (prop "seed" o)); reflexivity.
  - destruct (isArray (prop "systems" o)) as [raw |]; simpl; [| reflexivity].
    apply forallb_mapFilter, normalizeRiverSystem_valid.
Qed.

Lemma normalizeIceCaps_valid (value : unknown) :
  IceCapsState_valid (normalizeIceCaps value) = true.
Proof.
  unfold normalizeIceCaps. destruct (isRecord value) as [o |]; [| reflexivity].
  unfold IceCapsState_valid. simpl. split_checks; auto with valid.
Qed.

Lemma normalizeHydrology_valid (value : unknown) :
  HydrologyState_valid (normalizeHydrology value) = true.
Proof.
  unfold normalizeHydrology. destruct (isRecord value) as [o |]; [| reflexivity].
  unfold HydrologyState_valid. simpl.
  split_checks; auto using normalizeRiverNetwork_valid, normalizeIceCaps_valid with valid.
Qed.

Lemma normalizeBiosphere_valid (value : unknown) (b : BiosphereState) :
  normalizeBiosphere value = Ok b -> BiosphereState_valid b = true.
Proof.
  unfold normalizeBiosphere. destruct (isRecord value) as [o |].
  - cbv zeta. destruct (normalizeBiomeMap (prop "biomeMap" o)) as [m |] eqn:E;
      [| discriminate].
    simpl. intros [= <-]. unfold BiosphereState_valid. simpl.
    split_checks; auto with valid.
    now apply normalizeBiomeMap_valid with (value := prop "biomeMap" o).
  - intros [= <-]. vm_compute. reflexivity.
Qed.

Lemma normalizePopulationCenter_valid (value : unknown) (p : PopulationCenterState) :
  normalizePopulationCenter value = Some p -> PopulationCenterState_valid p = true.
Proof.
  unfold normalizePopulationCenter. destruct (isRecord value) as [o |]; [| discriminate].
  cbv zeta. destruct (Nat.eqb_spec (String.length (ensureString (prop "id" o) "")) 0)
    as [E | E]; [discriminate |].
  intros [= <-]. unfold PopulationCenterState_valid, nonBlank. simpl.
  split_checks; try apply negb_true_iff; auto with valid.
Qed.

Lemma normalizeCivilization_valid (value : unknown) :
  CivilizationState_valid (normalizeCivilization value) = true.
Proof.
  unfold normalizeCivilization. destruct (isRecord value) as [o |]; [| reflexivity].
  cbv zeta. unfold CivilizationState_valid. simpl. split_checks; auto with valid.
  destruct (isArray (prop "populations" o)) as [raw |]; simpl; [| reflexivity].
  apply forallb_mapFilter, normalizePopulationCenter_valid.
Qed.

Lemma normalizeClimate_valid (value : unknown) :
  ClimateState_valid (normalizeClimate value) = true.
Proof.
  unfold normalizeClimate. destruct (isRecord value) as [o |]; [| reflexivity].
  unfold ClimateState_valid. simpl. split_checks; auto with valid.
Qed.

Lemma normalizePlanetStateV1_valid (value : list (string * unknown)) (s : PlanetState) :
  normalizePlanetStateV1 value = Ok s -> PlanetState_valid s = true.
Proof.
  unfold normalizePlanetStateV1. cbv zeta.
  destruct (normalizeGeology (prop "geology" value)) as [g |] eqn:Eg; [| discriminate].
  simpl. destruct (normalizeBiosphere (prop "biosphere" value)) as [b |] eqn:Eb;
    [| discriminate].
  simpl. intros [= <-]. unfold PlanetState_valid. simpl.
  split_checks;
    eauto using normalizeAtmosphere_valid, normalizeGeology_valid,
      normalizeHydrology_valid, normalizeBiosphere_valid,
      normalizeCivilization_valid, normalizeClimate_valid.
Qed.

Lemma createDefaultPlanetState_valid : PlanetState_valid createDefaultPlanetState = true.
Proof. vm_compute. reflexivity. Qed.

(** ** Normalizing a normalized value changes nothing *)

(** Names the finite number that each [ensureNumber] of the goal returns. *)
Ltac name_numbers o :=
  repeat match goal with
    | |- context [ensureNumber (prop ?k o) ?d] =>
        let q := fresh "q" in
        destruct (ensureNumber_Num (prop k o) d eq_refl) as [q ->]
    end.

(** Decides a goal about clamps of named numbers by cases on the comparisons. *)
Ltac leaf :=
  unfold clamp01, clampPercentage, clampLatitude, clampLongitude, clamp,
    Math_min, Math_max;
  repeat (qcases; rewrite ?ensureNumber_JNumber);
  try reflexivity; exfalso; lra.

Lemma mapFilter_canonical {A : Type} (normalize : unknown -> option A)
    (toValue : A -> unknown) (raw : list unknown) :
  (forall v x, normalize v = Some x -> normalize (toValue x) = Some x) ->
  mapFilter normalize (map toValue (mapFilter normalize raw)) = mapFilter normalize raw.
Proof.
  intros H. induction raw as [| v rest IH]; simpl; [reflexivity |].
  destruct (normalize v) as [x |] eqn:E; [| exact IH].
  simpl. now rewrite (H v x E), IH.
Qed.

Lemma length_nonzero_eqb (s : string) :
  String.length s <> O -> (String.length s =? 0)%nat = false.
Proof. intros H. now apply Nat.eqb_neq. Qed.

Lemma normalizeAtmosphericGas_canonical (value : unknown) (g : AtmosphericGasComposition) :
  normalizeAtmosphericGas value = Some g ->
  normalizeAtmosphericGas (AtmosphericGasComposition_toValue g) = Some g.
Proof.
  unfold normalizeAtmosphericGas at 1. destruct (isRecord value) as [o |]; [| discriminate].
  cbv zeta. destruct (Nat.eqb_spec (String.length (ensureString (prop "gas" o) "")) 0)
    as [E | E]; [discriminate |].
  destruct (isNumber (prop "percentage" o)) as [p |]; [| discriminate].
  intros [= <-]. unfold normalizeAtmosphericGas, AtmosphericGasComposition_toValue.
  simpl. rewrite ensureString_JString by auto with valid.
  rewrite length_nonzero_eqb by exact E.
  unfold clampPercentage, clamp. qcases; simpl; qcases; try reflexivity; exfalso; lra.
Qed.

Lemma normalizeAtmosphere_canonical (value : unknown) :
  normalizeAtmosphere (AtmosphereState_toValue (normalizeAtmosphere value))
  = normalizeAtmosphere value.
Proof.
  unfold normalizeAtmosphere at 2 3.
  destruct (isRecord value) as [o |]; [| vm_compute; reflexivity].
  cbv zeta. name_numbers o.
  unfold normalizeAtmosphere, AtmosphereState_toValue. simpl.
  f_equal.
  destruct (isArray (prop "gases" o)) as [raw |]; simpl;
    [| vm_compute; reflexivity].
  destruct (mapFilter normalizeAtmosphericGas raw) as [| g rest] eqn:E;
    [vm_compute; reflexivity |].
  rewrite <- E.
  rewrite (mapFilter_canonical normalizeAtmosphericGas AtmosphericGasComposition_toValue raw
             normalizeAtmosphericGas_canonical).
  rewrite E. reflexivity.
Qed.

Lemma normalizeCoordinates_canonical (value : unknown) :
  normalizeCoordinates (Coordinates_toValue (normalizeCoordinates value))
  = normalizeCoordinates value.
Proof.
  unfold normalizeCoordinates at 2 3.
  destruct (isRecord value) as [o |]; [| vm_compute; reflexivity].
  name_numbers o. unfold normalizeCoordinates, Coordinates_toValue. simpl.
  f_equal; leaf.
Qed.

Lemma normalizeTectonicPlate_canonical (value : unknown) (p : TectonicPlateState) :
  normalizeTectonicPlate value = Some p ->
  normalizeTectonicPlate (TectonicPlateState_toValue p) = Some p.
Proof.
  unfold normalizeTectonicPlate at 1. destruct (isRecord value) as [o |]; [| discriminate].
  cbv zeta. destruct (Nat.eqb_spec (String.length (ensureString (prop "id" o) "")) 0)
    as [E | E]; [discriminate |].
  intros [= <-]. name_numbers o.
  unfold normalizeTectonicPlate, TectonicPlateState_toValue. simpl.
  rewrite !ensureString_JString by auto with valid.
  rewrite length_nonzero_eqb by exact E.
  do 2 f_equal.
  - destruct (isLiteral (prop "type" o) "oceanic"); reflexivity.
  - leaf.
Qed.

Lemma normalizeRiverSystem_canonical (value : unknown) (r : RiverSystemState) :
  normalizeRiverSystem value = Some r ->
  normalizeRiverSystem (RiverSystemState_toValue r) = Some r.
Proof.
  unfold normalizeRiverSystem at 1. destruct (isRecord value) as [o |]; [| discriminate].
  cbv zeta. destruct (Nat.eqb_spec (String.length (ensureString (prop "id" o) "")) 0)
    as [E | E]; [discriminate |].
  intros [= <-]. name_numbers o.
  unfold normalizeRiverSystem, RiverSystemState_toValue.
  cbn [isRecord prop String.eqb Ascii.eqb Bool.eqb river_id river_name lengthKm
         river_source river_mouth].
  rewrite !ensureString_JString by auto with valid.
  rewrite length_nonzero_eqb by exact E.
  rewrite !normalizeCoordinates_canonical. reflexivity.
Qed.

Lemma normalizePopulationCenter_canonical (value : unknown) (p : PopulationCenterState) :
  normalizePopulationCenter value = Some p ->
  normalizePopulationCenter (PopulationCenterState_toValue p) = Some p.
Proof.
  unfold normalizePopulationCenter at 1.
  destruct (isRecord value) as [o |]; [| discriminate].
  cbv zeta. destruct (Nat.eqb_spec (String.length (ensureString (prop "id" o) "")) 0)
    as [E | E]; [discriminate |].
  intros [= <-]. name_numbers o.
  unfold normalizePopulationCenter, PopulationCenterState_toValue.
  cbn [isRecord prop String.eqb Ascii.eqb Bool.eqb pop_id pop_name pop_kind population
         pop_coordinates].
  rewrite !ensureString_JString by auto with valid.
  rewrite length_nonzero_eqb by exact E.
  rewrite normalizeCoordinates_canonical.
  do 2 f_equal.
  - leaf.
  - destruct (isLiteral (prop "kind" o) "settlement"); [reflexivity |].
    destruct (isLiteral (prop "kind" o) "city"); reflexivity.
Qed.

Lemma normalizeBiomeCell_canonical (value : unknown) (c : BiomeCellState) :
  normalizeBiomeCell value = Some c ->
  normalizeBiomeCell (BiomeCellState_toValue c) = Some c.
Proof.
  unfold normalizeBiomeCell at 1. destruct (isRecord value) as [o |]; [| discriminate].
  cbv zeta. destruct (Nat.eqb_spec (String.length (ensureString (prop "biome" o) "")) 0)
    as [E | E]; [discriminate |].
  intros [= <-]. name_numbers o.
  unfold normalizeBiomeCell, BiomeCellState_toValue. simpl.
  rewrite !ensureString_JString by auto with valid.
  rewrite length_nonzero_eqb by exact E.
  do 2 f_equal. leaf.
Qed.

Lemma normalizeRiverNetwork_canonical (value : unknown) :
  normalizeRiverNetwork (RiverNetworkState_toValue (normalizeRiverNetwork value))
  = normalizeRiverNetwork value.
Proof.
  unfold normalizeRiverNetwork at 2 3.
  destruct (isRecord value) as [o |]; [| vm_compute; reflexivity].
  cbv zeta. unfold normalizeRiverNetwork, RiverNetworkState_toValue.
  cbn [isRecord prop String.eqb Ascii.eqb Bool.eqb seed systems isArray option_map].
  f_equal.
  - destruct (isNumber (prop "seed" o)); reflexivity.
  - destruct (isArray (prop "systems" o)) as [raw |]; simpl; [| reflexivity].
    apply mapFilter_canonical, normalizeRiverSystem_canonical.
Qed.

Lemma normalizeIceCaps_canonical (value : unknown) :
  normalizeIceCaps (IceCapsState_toValue (normalizeIceCaps value))
  = normalizeIceCaps value.
Proof.
  unfold normalizeIceCaps at 2 3.
  destruct (isRecord value) as [o |]; [| vm_compute; reflexivity].
  name_numbers o. unfold normalizeIceCaps, IceCapsState_toValue. simpl.
  f_equal; leaf.
Qed.

Lemma normalizeHydrology_canonical (value : unknown) :
  normalizeHydrology (HydrologyState_toValue (normalizeHydrology value))
  = normalizeHydrology value.
Proof.
  unfold normalizeHydrology at 2 3.
  destruct (isRecord value) as [o |]; [| vm_compute; reflexivity].
  name_numbers o. unfold normalizeHydrology, HydrologyState_toValue.
  cbn [isRecord prop String.eqb Ascii.eqb Bool.eqb oceanCoverage rivers iceCaps].
  rewrite normalizeRiverNetwork_canonical, normalizeIceCaps_canonical.
  f_equal. leaf.
Qed.

Lemma normalizeCivilization_canonical (value : unknown) :
  normalizeCivilization (CivilizationState_toValue (normalizeCivilization value))
  = normalizeCivilization value.
Proof.
  unfold normalizeCivilization at 2 3.
  destruct (isRecord value) as [o |]; [| vm_compute; reflexivity].
  cbv zeta. name_numbers o.
  unfold normalizeCivilization, CivilizationState_toValue.
  cbn [isRecord prop String.eqb Ascii.eqb Bool.eqb populations techLevel pollutionIndex
         isArray option_map].
  f_equal.
  - destruct (isArray (prop "populations" o)) as [raw |]; simpl; [| reflexivity].
    apply mapFilter_canonical, normalizePopulationCenter_canonical.
  - destruct (isLiteral (prop "techLevel" o) "tribal"); [reflexivity |].
    destruct (isLiteral (prop "techLevel" o) "agrarian"); [reflexivity |].
    destruct (isLiteral (prop "techLevel" o) "industrial"); [reflexivity |].
    destruct (isLiteral (prop "techLevel" o) "digital"); [reflexivity |].
    destruct (isLiteral (prop "techLevel" o) "spacefaring"); reflexivity.
  - leaf.
Qed.

Lemma normalizeClimate_canonical (value : unknown) :
  normalizeClimate (ClimateState_toValue (normalizeClimate value))
  = normalizeClimate value.
Proof.
  unfold normalizeClimate at 2 3.
  destruct (isRecord value) as [o |]; [| vm_compute; reflexivity].
  name_numbers o. unfold normalizeClimate, ClimateState_toValue. simpl.
  f_equal; leaf.
Qed.

Lemma map_ensureNumber_JNumber (values : list number) :
  forallb Number_isFinite values = true ->
  map (fun entry => ensureNumber entry (Num 0)) (map JNumber values) = values.
Proof.
  induction values as [| n rest IH]; simpl; [reflexivity |].
  intros H. apply andb_true_iff in H as [Hn Hrest].
  rewrite IH by exact Hrest. destruct n; try discriminate. reflexivity.
Qed.

Lemma mapFilter_fixed {A : Type} (normalize : unknown -> option A)
    (toValue : A -> unknown) (ok : A -> bool) (items : list A) :
  (forall x, ok x = true -> normalize (toValue x) = Some x) ->
  forallb ok items = true ->
  mapFilter normalize (map toValue items) = items.
Proof.
  intros H. induction items as [| x rest IH]; simpl; [reflexivity |].
  intros Hall. apply andb_true_iff in Hall as [Hx Hrest].
  now rewrite (H x Hx), IH.
Qed.

Lemma fit_exact {A : Type} (n : Z) (fill : A) (items : list A) :
  Z.of_nat (List.length items) = n -> fit n fill items = items.
Proof.
  intros H. unfold fit.
  rewrite List.firstn_all2 by lia.
  replace (Z.to_nat n - List.length items)%nat with O by lia.
  simpl. apply List.app_nil_r.
Qed.

Lemma clamp_fixed (lo hi : Q) (n : number) :
  within lo hi n = true -> clamp lo hi n = n.
Proof.
  destruct n as [q | | |]; try discriminate. unfold within, clamp.
  rewrite andb_true_iff, !Qleb_le. intros [H1 H2].
  qcases; try reflexivity; exfalso; lra.
Qed.

Lemma normalizeBiomeCell_fixed (c : BiomeCellState) :
  BiomeCellState_valid c = true -> normalizeBiomeCell (BiomeCellState_toValue c) = Some c.
Proof.
  unfold BiomeCellState_valid, nonBlank. rewrite andb_true_iff, negb_true_iff.
  intros [Hb Hd]. destruct c as [name diversity]. simpl in *.
  unfold normalizeBiomeCell, BiomeCellState_toValue. simpl.
  rewrite ensureString_JString by exact Hb.
  rewrite length_nonzero_eqb by (apply isBlank_length; exact Hb).
  destruct diversity as [q | | |]; try discriminate.
  rewrite ensureNumber_JNumber. unfold clamp01. now rewrite clamp_fixed.
Qed.

Lemma normalizeHeightField_fixed (h : HeightFieldState) :
  HeightFieldState_valid h = true ->
  normalizeHeightField (HeightFieldState_toValue h) = Ok h.
Proof.
  unfold HeightFieldState_valid. rewrite !andb_true_iff, !Z.leb_le, Z.eqb_eq.
  intros [[[Hw Hh] Hlen] Hfin].
  destruct h as [w ht [] values]. simpl in *.
  unfold HeightFieldState_toValue. rewrite normalizeHeightField_record.
  unfold expectedCells, arrayOrEmpty. simpl.
  rewrite !ensurePositiveInteger_Int by assumption.
  rewrite map_ensureNumber_JNumber by exact Hfin.
  rewrite fit_exact by exact Hlen.
  replace (w * ht <=? Z.of_nat (List.length values)) with true
    by (symmetry; apply Z.leb_le; lia).
  reflexivity.
Qed.

Lemma normalizeBiomeMap_fixed (m : BiomeMapState) :
  BiomeMapState_valid m = true ->
  normalizeBiomeMap (BiomeMapState_toValue m) = Ok m.
Proof.
  unfold BiomeMapState_valid. rewrite !andb_true_iff, !Z.leb_le, Z.eqb_eq.
  intros [[[Hw Hh] Hlen] Hcells].
  destruct m as [w ht grid]. simpl in *.
  unfold BiomeMapState_toValue. rewrite normalizeBiomeMap_record.
  unfold expectedCells, arrayOrEmpty. simpl.
  rewrite !ensurePositiveInteger_Int by assumption.
  rewrite (mapFilter_fixed normalizeBiomeCell BiomeCellState_toValue BiomeCellState_valid
             grid normalizeBiomeCell_fixed Hcells).
  rewrite fit_exact by exact Hlen.
  replace (w * ht <=? Z.of_nat (List.length grid)) with true
    by (symmetry; apply Z.leb_le; lia).
  reflexivity.
Qed.

Lemma normalizeGeology_canonical (value : unknown) (g : GeologyState) :
  normalizeGeology value = Ok g -> normalizeGeology (GeologyState_toValue g) = Ok g.
Proof.
  unfold normalizeGeology at 1. destruct (isRecord value) as [o |].
  - cbv zeta. destruct (normalizeHeightField (prop "heightField" o)) as [h |] eqn:E;
      [| discriminate].
    simpl. intros [= <-]. name_numbers o.
    unfold normalizeGeology, GeologyState_toValue.
    cbn [isRecord prop String.eqb Ascii.eqb Bool.eqb plates heightField volcanismIndex
           isArray option_map].
    rewrite normalizeHeightField_fixed by (eapply normalizeHeightField_valid; exact E).
    simpl. do 2 f_equal.
    + destruct (isArray (prop "plates" o)) as [raw |]; simpl; [| reflexivity].
      apply mapFilter_canonical, normalizeTectonicPlate_canonical.
    + leaf.
  - intros [= <-]. vm_compute. reflexivity.
Qed.

Lemma normalizeBiosphere_canonical (value : unknown) (b : BiosphereState) :
  normalizeBiosphere value = Ok b -> normalizeBiosphere (BiosphereState_toValue b) = Ok b.
Proof.
  unfold normalizeBiosphere at 1. destruct (isRecord value) as [o |].
  - cbv zeta. destruct (normalizeBiomeMap (prop "biomeMap" o)) as [m |] eqn:E;
      [| discriminate].
    simpl. intros [= <-]. name_numbers o.
    unfold normalizeBiosphere, BiosphereState_toValue.
    cbn [isRecord prop String.eqb Ascii.eqb Bool.eqb biomeMap biodiversityIndex].
    rewrite normalizeBiomeMap_fixed by (eapply normalizeBiomeMap_valid; exact E).
    simpl. do 2 f_equal. leaf.
  - intros [= <-]. vm_compute. reflexivity.
Qed.

(** A state that normalization returns is a fixed point of normalization. *)
Lemma normalizePlanetStateV1_canonical (value : list (string * unknown)) (s : PlanetState) :
  normalizePlanetStateV1 value = Ok s ->
  normalizePlanetStateV1 (PlanetState_props s) = Ok s.
Proof.
  unfold normalizePlanetStateV1 at 1. cbv zeta.
  destruct (normalizeGeology (prop "geology" value)) as [g |] eqn:Eg; [| discriminate].
  simpl. destruct (normalizeBiosphere (prop "biosphere" value)) as [b |] eqn:Eb;
    [| discriminate].
  simpl. intros [= <-].
  unfold normalizePlanetStateV1, PlanetState_props.
  cbn [prop String.eqb Ascii.eqb Bool.eqb atmosphere geology hydrology biosphere
         civilization climate].
  rewrite (normalizeGeology_canonical _ _ Eg), (normalizeBiosphere_canonical _ _ Eb).
  simpl bind.
  now rewrite normalizeAtmosphere_canonical, normalizeHydrology_canonical,
    normalizeCivilization_canonical, normalizeClimate_canonical.
Qed.

Lemma createDefaultPlanetState_canonical :
  normalizePlanetStateV1 (PlanetState_props createDefaultPlanetState)
  = Ok createDefaultPlanetState.
Proof. vm_compute. reflexivity. Qed.

(** ** A valid state is printed by [JSON.stringify] without loss *)

Lemma forallb_map_implied {A B : Type} (ok : A -> bool) (f : A -> B) (check : B -> bool)
    (items : list A) :
  (forall x, ok x = true -> check (f x) = true) ->
  forallb ok items = true -> forallb check (map f items) = true.
Proof.
  intros H. induction items as [| x rest IH]; simpl; [reflexivity |].
  intros Hall. apply andb_true_iff in Hall as [Hx Hrest].
  now rewrite (H x Hx), IH.
Qed.

Lemma json_clean_JNumber_within (lo hi : Q) (n : number) :
  within lo hi n = true -> json_clean (JNumber n) = true.
Proof. apply within_finite. Qed.

Lemma json_clean_JNumber_atLeast (lo : Q) (n : number) :
  atLeast lo n = true -> json_clean (JNumber n) = true.
Proof. apply atLeast_finite. Qed.

(** Breaks a hypothesis that is a conjunction of boolean checks. *)
Ltac break_checks :=
  repeat match goal with
    | H : (_ && _) = true |- _ => apply andb_true_iff in H; destruct H
    end.

Ltac clean_leaves :=
  repeat match goal with
    | |- (_ && _) = true => apply andb_true_iff; split
    | |- true = true => reflexivity
    | H : within _ _ ?n = true |- json_clean (JNumber ?n) = true =>
        exact (json_clean_JNumber_within _ _ _ H)
    | H : atLeast _ ?n = true |- json_clean (JNumber ?n) = true =>
        exact (json_clean_JNumber_atLeast _ _ H)
    | H : Number_isFinite ?n = true |- json_clean (JNumber ?n) = true => exact H
    | H : Number_isFinite ?n = true |- Number_isFinite ?n = true => exact H
    | H : within _ _ ?n = true |- Number_isFinite ?n = true =>
        exact (within_finite _ _ _ H)
    | H : atLeast _ ?n = true |- Number_isFinite ?n = true =>
        exact (atLeast_finite _ _ H)
    end.

Lemma Coordinates_clean (c : Coordinates) :
  Coordinates_valid c = true -> json_clean (Coordinates_toValue c) = true.
Proof.
  unfold Coordinates_valid. intros H. break_checks.
  unfold Coordinates_toValue. simpl. clean_leaves.
Qed.

Lemma AtmosphericGasComposition_clean (g : AtmosphericGasComposition) :
  AtmosphericGasComposition_valid g = true ->
  json_clean (AtmosphericGasComposition_toValue g) = true.
Proof.
  unfold AtmosphericGasComposition_valid. intros H. break_checks.
  unfold AtmosphericGasComposition_toValue. simpl. clean_leaves.
Qed.

Lemma TectonicPlateState_clean (p : TectonicPlateState) :
  TectonicPlateState_valid p = true -> json_clean (TectonicPlateState_toValue p) = true.
Proof.
  unfold TectonicPlateState_valid. intros H. break_checks.
  unfold TectonicPlateState_toValue. simpl. clean_leaves.
Qed.

Lemma RiverSystemState_clean (r : RiverSystemState) :
  RiverSystemState_valid r = true -> json_clean (RiverSystemState_toValue r) = true.
Proof.
  unfold RiverSystemState_valid. intros H. break_checks.
  unfold RiverSystemState_toValue.
  cbn [json_clean map fst snd distinctKeys existsb forallb String.eqb Ascii.eqb Bool.eqb
         negb andb orb isIndexKey isDigit list_ascii_of_string].
  simpl negb. clean_leaves; now apply Coordinates_clean.
Qed.

Lemma BiomeCellState_clean (c : BiomeCellState) :
  BiomeCellState_valid c = true -> json_clean (BiomeCellState_toValue c) = true.
Proof.
  unfold BiomeCellState_valid. intros H. break_checks.
  unfold BiomeCellState_toValue. simpl. clean_leaves.
Qed.

Lemma PopulationCenterState_clean (p : PopulationCenterState) :
  PopulationCenterState_valid p = true ->
  json_clean (PopulationCenterState_toValue p) = true.
Proof.
  unfold PopulationCenterState_valid. intros H. break_checks.
  unfold PopulationCenterState_toValue.
  assert (C := Coordinates_clean (pop_coordinates p) ltac:(assumption)).
  revert C. generalize (Coordinates_toValue (pop_coordinates p)). intros cv C.
  simpl. rewrite C. clean_leaves.
Qed.

(** Replaces the value [v], known to be clean, by a variable. *)
Ltac abstract_clean v H :=
  let C := fresh "C" in
  assert (C : json_clean v = true) by H;
  revert C; generalize v; intros ? C.

Ltac finish_clean :=
  simpl;
  repeat match goal with
    | C : json_clean ?v = true |- context [json_clean ?v] => rewrite C
    end;
  clean_leaves.

Lemma AtmosphereState_clean (a : AtmosphereState) :
  AtmosphereState_valid a = true -> json_clean (AtmosphereState_toValue a) = true.
Proof.
  unfold AtmosphereState_valid. intros H. break_checks.
  unfold AtmosphereState_toValue.
  abstract_clean (JArray (map AtmosphericGasComposition_toValue (gases a)))
    ltac:(simpl; eapply forallb_map_implied;
          [apply AtmosphericGasComposition_clean | assumption]).
  finish_clean.
Qed.

Lemma HeightFieldState_clean (h : HeightFieldState) :
  HeightFieldState_valid h = true -> json_clean (HeightFieldState_toValue h) = true.
Proof.
  unfold HeightFieldState_valid. intros H. break_checks.
  unfold HeightFieldState_toValue.
  abstract_clean (JArray (map JNumber (hf_values h)))
    ltac:(simpl; eapply forallb_map_implied; [| eassumption]; auto).
  finish_clean.
Qed.

Lemma GeologyState_clean (g : GeologyState) :
  GeologyState_valid g = true -> json_clean (GeologyState_toValue g) = true.
Proof.
  unfold GeologyState_valid. intros H. break_checks.
  unfold GeologyState_toValue.
  abstract_clean (JArray (map TectonicPlateState_toValue (plates g)))
    ltac:(simpl; eapply forallb_map_implied;
          [apply TectonicPlateState_clean | assumption]).
  abstract_clean (HeightFieldState_toValue (heightField g))
    ltac:(now apply HeightFieldState_clean).
  finish_clean.
Qed.

Lemma RiverNetworkState_clean (r : RiverNetworkState) :
  RiverNetworkState_valid r = true -> json_clean (RiverNetworkState_toValue r) = true.
Proof.
  unfold RiverNetworkState_valid. intros H. break_checks.
  unfold RiverNetworkState_toValue.
  abstract_clean (JArray (map RiverSystemState_toValue (systems r)))
    ltac:(simpl; eapply forallb_map_implied;
          [apply RiverSystemState_clean | assumption]).
  abstract_clean (match seed r with Some n => JNumber n | None => JNull end)
    ltac:(destruct (seed r); [assumption | reflexivity]).
  finish_clean.
Qed.

Lemma IceCapsState_clean (i : IceCapsState) :
  IceCapsState_valid i = true -> json_clean (IceCapsState_toValue i) = true.
Proof.
  unfold IceCapsState_valid. intros H. break_checks.
  unfold IceCapsState_toValue. simpl. clean_leaves.
Qed.

Lemma HydrologyState_clean (h : HydrologyState) :
  HydrologyState_valid h = true -> json_clean (HydrologyState_toValue h) = true.
Proof.
  unfold HydrologyState_valid. intros H. break_checks.
  unfold HydrologyState_toValue.
  abstract_clean (RiverNetworkState_toValue (rivers h))
    ltac:(now apply RiverNetworkState_clean).
  abstract_clean (IceCapsState_toValue (iceCaps h)) ltac:(now apply IceCapsState_clean).
  finish_clean.
Qed.

Lemma BiomeMapState_clean (m : BiomeMapState) :
  BiomeMapState_valid m = true -> json_clean (BiomeMapState_toValue m) = true.
Proof.
  unfold BiomeMapState_valid. intros H. break_checks.
  unfold BiomeMapState_toValue.
  abstract_clean (JArray (map BiomeCellState_toValue (cells m)))
    ltac:(simpl; eapply forallb_map_implied; [apply BiomeCellState_clean | assumption]).
  finish_clean.
Qed.

Lemma BiosphereState_clean (b : BiosphereState) :
  BiosphereState_valid b = true -> json_clean (BiosphereState_toValue b) = true.
Proof.
  unfold BiosphereState_valid. intros H. break_checks.
  unfold BiosphereState_toValue.
  abstract_clean (BiomeMapState_toValue (biomeMap b)) ltac:(now apply BiomeMapState_clean).
  finish_clean.
Qed.

Lemma CivilizationState_clean (c : CivilizationState) :
  CivilizationState_valid c = true -> json_clean (CivilizationState_toValue c) = true.
Proof.
  unfold CivilizationState_valid. intros H. break_checks.
  unfold CivilizationState_toValue.
  abstract_clean (JArray (map PopulationCenterState_toValue (populations c)))
    ltac:(simpl; eapply forallb_map_implied;
          [apply PopulationCenterState_clean | assumption]).
  abstract_clean (CivilizationTechLevel_toValue (techLevel c))
    ltac:(destruct (techLevel c); reflexivity).
  finish_clean.
Qed.

Lemma ClimateState_clean (c : ClimateState) :
  ClimateState_valid c = true -> json_clean (ClimateState_toValue c) = true.
Proof.
  unfold ClimateState_valid. intros H. break_checks.
  unfold ClimateState_toValue. simpl. clean_leaves.
Qed.

Lemma PlanetState_clean (s : PlanetState) :
  PlanetState_valid s = true -> json_clean (PlanetState_toValue s) = true.
Proof.
  unfold PlanetState_valid. intros H. break_checks.
  unfold PlanetState_toValue, PlanetState_props.
  abstract_clean (AtmosphereState_toValue (atmosphere s))
    ltac:(now apply AtmosphereState_clean).
  abstract_clean (GeologyState_toValue (geology s)) ltac:(now apply GeologyState_clean).
  abstract_clean (HydrologyState_toValue (hydrology s))
    ltac:(now apply HydrologyState_clean).
  abstract_clean (BiosphereState_toValue (biosphere s))
    ltac:(now apply BiosphereState_clean).
  abstract_clean (CivilizationState_toValue (civilization s))
    ltac:(now apply CivilizationState_clean).
  abstract_clean (ClimateState_toValue (climate s)) ltac:(now apply ClimateState_clean).
  finish_clean.
Qed.

(** ** The reference runtime satisfies the laws *)

Module ReferenceLaws.
Import Reference.

#[local] Arguments String.append : simpl nomatch.

Lemma append_assoc (a b c : string) : ((a ++ b) ++ c = a ++ (b ++ c))%string.
Proof. induction a as [| x a IH]; simpl; [reflexivity | f_equal; exact IH]. Qed.

Lemma append_empty (a : string) : (a ++ "" = a)%string.
Proof. induction a as [| x a IH]; simpl; [reflexivity | f_equal; exact IH]. Qed.

Lemma read_print_positive (p : positive) (rest : string) :
  read_positive (print_positive p ++ rest) = Some (p, rest).
Proof. induction p as [p IH | p IH |]; simpl; rewrite ?IH; reflexivity. Qed.

Lemma read_print_nat (n : nat) (rest : string) :
  read_nat (print_nat n ++ rest) = Some (n, rest).
Proof.
  unfold read_nat, print_nat. rewrite read_print_positive.
  now rewrite SuccNat2Pos.pred_id.
Qed.

Lemma read_print_Z (z : Z) (rest : string) :
  read_Z (print_Z z ++ rest) = Some (z, rest).
Proof. destruct z; simpl; rewrite ?read_print_positive; reflexivity. Qed.

Lemma split_at_append (s rest : string) :
  split_at (String.length s) (s ++ rest) = Some (s, rest).
Proof. induction s as [| c s IH]; simpl; [reflexivity | now rewrite IH]. Qed.

Lemma read_print_string (s rest : string) :
  read_string (print_string s ++ rest) = Some (s, rest).
Proof.
  unfold read_string, print_string. rewrite append_assoc, read_print_nat.
  apply split_at_append.
Qed.

Lemma read_print_number (n : number) (rest : string) :
  read_number (print_number n ++ rest) = Some (n, rest).
Proof.
  destruct n as [[num den] | | |]; simpl; try reflexivity.
  now rewrite append_assoc, read_print_Z, read_print_positive.
Qed.

Lemma read_print_all {A : Type} (print : A -> string)
    (read : string -> option (A * string)) (items : list A) (rest : string) :
  Forall (fun x => forall r, read (print x ++ r) = Some (x, r)) items ->
  read_all read (List.length items) (print_all print items ++ rest) = Some (items, rest).
Proof.
  induction 1 as [| x items Hx _ IH]; simpl; [reflexivity |].
  now rewrite append_assoc, Hx, IH.
Qed.

Lemma depth_item (v : unknown) (items : list unknown) :
  In v items -> (depth v <= fold_right (fun x acc => Nat.max (depth x) acc) O items)%nat.
Proof.
  induction items as [| x items IH]; simpl; [tauto |].
  intros [-> | H]; [lia | specialize (IH H); lia].
Qed.

Lemma depth_property (k : string) (v : unknown) (props : list (string * unknown)) :
  In (k, v) props ->
  (depth v <= fold_right (fun '(_, x) acc => Nat.max (depth x) acc) O props)%nat.
Proof.
  induction props as [| [k' x] props IH]; simpl; [tauto |].
  intros [[= -> ->] | H]; [lia | specialize (IH H); lia].
Qed.

Lemma read_print_value (fuel : nat) :
  forall (v : unknown) (rest : string),
    (depth v < fuel)%nat -> read_value fuel (print_value v ++ rest) = Some (v, rest).
Proof.
  induction fuel as [| fuel IH]; intros v rest Hd; [lia |].
  destruct v as [| | [] | n | s | items | props]; simpl; try reflexivity.
  - now rewrite read_print_number.
  - now rewrite read_print_string.
  - rewrite append_assoc, read_print_nat.
    rewrite (read_print_all print_value (read_value fuel)); [reflexivity |].
    apply List.Forall_forall. intros x Hx r. apply IH.
    simpl in Hd. pose proof (depth_item x items Hx). lia.
  - rewrite append_assoc, read_print_nat.
    rewrite (read_print_all (fun '(k, x) => print_string k ++ print_value x)%string
               (read_property (read_value fuel))); [reflexivity |].
    apply List.Forall_forall. intros [k x] Hx r. unfold read_property.
    rewrite append_assoc, read_print_string, IH; [reflexivity |].
    simpl in Hd. pose proof (depth_property k x props Hx). lia.
Qed.

Lemma parse_stringify (v : unknown) : parse (stringify v) = Parsed v.
Proof.
  unfold parse, stringify. rewrite read_print_nat.
  rewrite <- (append_empty (print_value v)).
  rewrite read_print_value by lia. reflexivity.
Qed.

Lemma to_int_proper (z : Z) : Z.to_int z <> Decimal.Pos Decimal.Nil
                              /\ Z.to_int z <> Decimal.Neg Decimal.Nil.
Proof.
  destruct z as [| p | p]; simpl; split; try discriminate.
  - intros [= H]. now apply (DecimalPos.Unsigned.to_uint_nonnil p).
  - intros [= H]. now apply (DecimalPos.Unsigned.to_uint_nonnil p).
Qed.

Lemma int_of_decimal (z : Z) : NilZero.int_of_string (decimal z) = Some (Z.to_int z).
Proof. unfold decimal. destruct (to_int_proper z). now apply NilZero.isi. Qed.

Lemma parseDate_toISOString (t : Z) :
  valid_time t -> parseDate (toISOString t) = Some t.
Proof.
  intros H. unfold parseDate, toISOString.
  rewrite int_of_decimal, DecimalZ.of_to, String.eqb_refl.
  unfold valid_timeb. unfold valid_time in H.
  apply Z.leb_le in H. now rewrite H.
Qed.

Lemma parseDate_valid (s : string) (t : Z) : parseDate s = Some t -> valid_time t.
Proof.
  unfold parseDate. destruct (NilZero.int_of_string s) as [d |]; [| discriminate].
  cbv zeta. destruct (valid_timeb (Z.of_int d)) eqn:E; [| discriminate].
  destruct (String.eqb (decimal (Z.of_int d)) s); [| discriminate].
  intros [= <-]. unfold valid_time. now apply Z.leb_le.
Qed.

Lemma toString_integer (z : Z) : toString (Int z) = decimal z.
Proof.
  unfold toString, Int. rewrite Qfloor_Z.
  now rewrite (proj2 (Qeq_bool_iff _ _) (Qeq_refl _)).
Qed.

Lemma laws : RuntimeLaws runtime.
Proof.
  constructor; simpl.
  - intros v _. apply parse_stringify.
  - apply parseDate_valid.
  - apply parseDate_toISOString.
  - intros z _. apply toString_integer.
Qed.

End ReferenceLaws.

(** ** Planet state: migration and serialization *)

Lemma migratePlanetState_toValue (rt : Runtime) (s : PlanetState) :
  migratePlanetState rt (PlanetState_toValue s) = normalizePlanetStateV1 (PlanetState_props s).
Proof. reflexivity. Qed.

Lemma migratePlanetState_produces (rt : Runtime) (value : unknown) (s : PlanetState) :
  migratePlanetState rt value = Ok s ->
  s = createDefaultPlanetState \/ exists o, normalizePlanetStateV1 o = Ok s.
Proof.
  unfold migratePlanetState. destruct (isRecord value) as [o |].
  - cbv zeta. unfold PLANET_STATE_NORMALIZERS.
    destruct (_ =? _); [| discriminate]. intros H. right. now exists o.
  - intros [= <-]. now left.
Qed.

Lemma deserializePlanetState_produces (rt : Runtime) (payload : unknown) (s : PlanetState) :
  deserializePlanetState rt payload = Ok s ->
  s = createDefaultPlanetState \/ exists o, normalizePlanetStateV1 o = Ok s.
Proof.
  unfold deserializePlanetState. destruct payload;
    try apply migratePlanetState_produces.
  destruct (JSON_parse rt s0); [apply migratePlanetState_produces | discriminate].
Qed.

(** A state that deserialization returns is valid and is left unchanged
    by normalization. *)
Lemma deserializePlanetState_canonical (rt : Runtime) (payload : unknown) (s : PlanetState) :
  deserializePlanetState rt payload = Ok s ->
  PlanetState_valid s = true /\ normalizePlanetStateV1 (PlanetState_props s) = Ok s.
Proof.
  intros H. destruct (deserializePlanetState_produces rt payload s H) as [-> | [o Ho]].
  - split; [apply createDefaultPlanetState_valid | apply createDefaultPlanetState_canonical].
  - split; [eapply normalizePlanetStateV1_valid | eapply normalizePlanetStateV1_canonical];
      exact Ho.
Qed.

Lemma deserialize_serialized (rt : Runtime) (s : PlanetState) :
  RuntimeLaws rt ->
  PlanetState_valid s = true ->
  deserializePlanetState rt (JString (serializePlanetState rt s))
  = normalizePlanetStateV1 (PlanetState_props s).
Proof.
  intros L V. unfold deserializePlanetState, serializePlanetState.
  rewrite (JSON_parse_stringify rt L) by (apply PlanetState_clean; exact V).
  apply migratePlanetState_toValue.
Qed.

(** C1. Every state that [createDefaultPlanetState] or [deserializePlanetState]
    returns is read back unchanged from its serialization:
    [deserializePlanetState (serializePlanetState s) = s]. *)
Theorem planet_state_round_trip (rt : Runtime) (L : RuntimeLaws rt) :
  deserializePlanetState rt (JString (serializePlanetState rt createDefaultPlanetState))
  = Ok createDefaultPlanetState
  /\ forall (payload : unknown) (s : PlanetState),
       deserializePlanetState rt payload = Ok s ->
       deserializePlanetState rt (JString (serializePlanetState rt s)) = Ok s.
Proof.
  split.
  - rewrite deserialize_serialized by (exact L || apply createDefaultPlanetState_valid).
    apply createDefaultPlanetState_canonical.
  - intros payload s H.
    destruct (deserializePlanetState_canonical rt payload s H) as [V C].
    now rewrite deserialize_serialized.
Qed.

Lemma planet_state_round_trip_witness :
  exists s : PlanetState,
    deserializePlanetState Reference.runtime untidyPayload = Ok s
    /\ deserializePlanetState Reference.runtime
         (JString (serializePlanetState Reference.runtime s)) = Ok s.
Proof.
  eexists. split.
  - vm_compute. reflexivity.
  - apply (proj2 (planet_state_round_trip Reference.runtime ReferenceLaws.laws)
             untidyPayload).
    vm_compute. reflexivity.
Defined.

Lemma normalizePlanetStateV1_grids (o : list (string * unknown)) (s : PlanetState) :
  normalizePlanetStateV1 o = Ok s ->
  HeightFieldState_valid (heightField (geology s)) = true
  /\ BiomeMapState_valid (biomeMap (biosphere s)) = true.
Proof.
  intros H. apply normalizePlanetStateV1_valid in H.
  unfold PlanetState_valid, GeologyState_valid, BiosphereState_valid in H.
  break_checks. split; assumption.
Qed.



(** ** Totality of normalization *)


(** ** Totality of normalization *)

Lemma normalizeHeightField_throws (value : unknown) (e : exn) :
  normalizeHeightField value = Throw e ->
  e = RangeError "Invalid array length"
  /\ exists f, value = JObject f
               /\ MAX_ARRAY_LENGTH
                  < expectedCells DEFAULT_HEIGHT_FIELD_WIDTH DEFAULT_HEIGHT_FIELD_HEIGHT f.
Proof.
  destruct (isRecord_cases value) as [[f ->] | E].
  - rewrite normalizeHeightField_record. cbv zeta.
    destruct (_ || _) eqn:C; [discriminate |]. intros [= <-].
    apply orb_false_iff in C as [_ C]. apply Z.leb_gt in C.
    split; [reflexivity |]. now exists f.
  - rewrite normalizeHeightField_other by exact E. discriminate.
Qed.

Lemma normalizeBiomeMap_throws (value : unknown) (e : exn) :
  normalizeBiomeMap value = Throw e ->
  e = RangeError "Invalid array length"
  /\ exists f, value = JObject f
               /\ MAX_ARRAY_LENGTH
                  < expectedCells DEFAULT_BIOME_MAP_WIDTH DEFAULT_BIOME_MAP_HEIGHT f.
Proof.
  destruct (isRecord_cases value) as [[f ->] | E].
  - rewrite normalizeBiomeMap_record. cbv zeta.
    destruct (_ || _) eqn:C; [discriminate |]. intros [= <-].
    apply orb_false_iff in C as [_ C]. apply Z.leb_gt in C.
    split; [reflexivity |]. now exists f.
  - rewrite normalizeBiomeMap_other by exact E. discriminate.
Qed.

(** Normalization returns a valid state, except that it throws a
    [RangeError] when a grid does not fit in an array. *)
Lemma normalizePlanetStateV1_outcome (o : list (string * unknown)) :
  match normalizePlanetStateV1 o with
  | Ok s => PlanetState_valid s = true
  | Throw e => e = RangeError "Invalid array length" /\ ~ gridsFit o
  end.
Proof.
  destruct (normalizePlanetStateV1 o) as [s | e] eqn:H;
    [now apply normalizePlanetStateV1_valid in H |].
  revert H. unfold normalizePlanetStateV1. cbv zeta.
  destruct (normalizeGeology (prop "geology" o)) as [g | eg] eqn:Eg.
  - simpl. destruct (normalizeBiosphere (prop "biosphere" o)) as [b | eb] eqn:Eb;
      [discriminate |].
    simpl. intros [= <-]. revert Eb. unfold normalizeBiosphere.
    destruct (prop "biosphere" o) as [| | | | | | bo] eqn:Pb; simpl; try discriminate.
    destruct (normalizeBiomeMap (prop "biomeMap" bo)) as [m | em] eqn:Em;
      [discriminate |].
    simpl. intros [= <-].
    destruct (normalizeBiomeMap_throws _ _ Em) as [-> [f [Pf Hf]]].
    split; [reflexivity |]. intros [_ Fit]. specialize (Fit bo f Pb Pf). lia.
  - simpl. intros [= <-]. revert Eg. unfold normalizeGeology.
    destruct (prop "geology" o) as [| | | | | | go] eqn:Pg; simpl; try discriminate.
    destruct (normalizeHeightField (prop "heightField" go)) as [h | eh] eqn:Eh;
      [discriminate |].
    simpl. intros [= <-].
    destruct (normalizeHeightField_throws _ _ Eh) as [-> [f [Pf Hf]]].
    split; [reflexivity |]. intros [Fit _]. specialize (Fit go f Pg Pf). lia.
Qed.

(** C3. Normalization is not total: a height field of 100000 x 100000
    values makes [padArray] ask for an array beyond the limit of
    [2^32 - 1] elements, and the [RangeError] escapes the normalizer. *)
Theorem oversized_grid_throws (rt : Runtime) :
  deserializePlanetState rt oversizedGrid = Throw (RangeError "Invalid array length").
Proof. reflexivity. Qed.

(** ** Version dispatch *)

(** C4, as amended. Migration resolves the version tag with
    [ensurePositiveInteger]: a tag that is missing, not a finite number or
    below 1 resolves to the current version, any other tag to its floor.
    A resolved version equal to the current one delegates to normalization;
    any other fails with the error [Unsupported planet state version]. *)
Theorem migrate_dispatches_on_resolved_version :
  forall (rt : Runtime) (o : list (string * unknown)),
    let resolved :=
      match prop "version" o with
      | JNumber (Num q) => if Qfloor q <? 1 then PLANET_STATE_VERSION else Qfloor q
      | _ => PLANET_STATE_VERSION
      end in
    deserializePlanetState rt (JObject o)
    = if resolved =? PLANET_STATE_VERSION
      then normalizePlanetStateV1 o
      else Throw (Error ("Unsupported planet state version: "
                           ++ Number_toString rt (Int resolved))).
Proof.
  intros rt o. cbv zeta. unfold deserializePlanetState, migratePlanetState.
  simpl isRecord. cbv beta iota zeta.
  unfold ensurePositiveInteger, isNumber, PLANET_STATE_NORMALIZERS.
  destruct (prop "version" o) as [| | | [q | | |] | | |]; try reflexivity.
  destruct (Qfloor q <? 1); [reflexivity |].
  destruct (Qfloor q =? PLANET_STATE_VERSION); reflexivity.
Qed.

(** C4, the claim as stated fails: the version tag [0] is not the current
    version, yet deserialization recovers and returns the default state. *)
Lemma version_zero_is_accepted :
  deserializePlanetState Reference.runtime (JObject [("version", JNumber (Int 0))])
  = Ok createDefaultPlanetState
  /\ deserializePlanetState Reference.runtime (JObject [("version", JNumber (Int 2))])
     = Throw (Error "Unsupported planet state version: 2").
Proof. split; vm_compute; reflexivity. Qed.

(** ** Payloads that are not objects *)

Lemma deserializePlanetState_notAnObject (rt : Runtime) (payload : unknown) :
  notAnObject rt payload -> deserializePlanetState rt payload = Ok createDefaultPlanetState.
Proof.
  destruct payload; simpl; try reflexivity; [| tauto].
  intros [v [-> E]]. unfold migratePlanetState. now rewrite E.
Qed.

Lemma prop_has_prop (key : string) (o : list (string * unknown)) :
  prop key o <> JUndefined -> has_prop key o = true.
Proof.
  induction o as [| [k v] rest IH]; simpl; [congruence |].
  destruct (String.eqb k key); [reflexivity | exact IH].
Qed.

Lemma ensurePositiveInteger_has_prop (key : string) (o : list (string * unknown)) (v : Z) :
  SaveSlots.ensurePositiveInteger (prop key o) = Some v -> has_prop key o = true.
Proof.
  intros H. apply prop_has_prop. intros E. rewrite E in H. discriminate.
Qed.

(** What [parseSavePayload] does with an object whose format version is 1. *)
Lemma parseSavePayload_current (rt : Runtime) (payload : list (string * unknown))
    (options : option SaveSlots.DeserializePlanetSaveOptions) :
  SaveSlots.ensurePositiveInteger (prop "version" payload) = Some 1 ->
  SaveSlots.parseSavePayload rt (JObject payload) options
  = SaveSlots.normalizePlanetSaveV1 rt payload options.
Proof.
  intros H. unfold SaveSlots.parseSavePayload. simpl bind. simpl isRecord.
  cbv beta iota zeta.
  rewrite (ensurePositiveInteger_has_prop _ _ _ H). simpl negb. cbv iota.
  rewrite H. reflexivity.
Qed.

(** A payload of format version 1 with a usable slot and planet state
    version is accepted with whatever state its [planetState] field
    deserializes to. *)
Lemma normalizePlanetSaveV1_accepts (rt : Runtime) (payload md : list (string * unknown))
    (options : option SaveSlots.DeserializePlanetSaveOptions) (k v : Z)
    (state : PlanetState) :
  isRecord (prop "metadata" payload) = Some md ->
  SaveSlots.ensureSlotIndex (prop "slot" md) = Some k ->
  acceptsSlot options k ->
  SaveSlots.ensurePositiveInteger (prop "planetStateVersion" payload) = Some v ->
  v <= PLANET_STATE_VERSION ->
  has_prop "planetState" payload = true ->
  deserializePlanetState rt (prop "planetState" payload) = Ok state ->
  exists m : SaveSlots.PlanetSaveMetadata,
    SaveSlots.normalizePlanetSaveV1 rt payload options
    = Ok {| SaveSlots.metadata := m;
            SaveSlots.planetStateVersion := PLANET_STATE_VERSION;
            SaveSlots.planetState := state |}
    /\ SaveSlots.slot m = k.
Proof.
  intros Hmd Hslot Haccept Hpsv Hv Hhas Hstate.
  unfold SaveSlots.normalizePlanetSaveV1. rewrite Hmd. cbv zeta. rewrite Hslot.
  assert (M : match match options with
                    | Some o => SaveSlots.expectedSlot o
                    | None => None
                    end with
              | Some e => if SaveSlots.Number_differs (Int k) e then Some e else None
              | None => None
              end = None).
  { unfold acceptsSlot in Haccept.
    destruct options as [[[e |]] |]; cbn [SaveSlots.expectedSlot]; try reflexivity.
    now rewrite Haccept. }
  rewrite M.
  rewrite (ensurePositiveInteger_has_prop _ _ _ Hpsv). simpl negb. cbv iota.
  rewrite Hpsv. destruct (Z.ltb_spec PLANET_STATE_VERSION v) as [C | _]; [lia |].
  rewrite Hhas. simpl negb. cbv iota. rewrite Hstate.
  eexists. split; reflexivity.
Qed.

(** C10. Every payload that is not a plain object - [null], an array, a
    number, a boolean, [undefined], or JSON text of one of these -
    deserializes to the default planet state without an error; so a save
    payload whose [planetState] field holds such a value deserializes to a
    record that carries the default planet state. *)
Theorem non_object_payload_yields_default :
  forall rt : Runtime,
    (forall payload : unknown,
        notAnObject rt payload ->
        deserializePlanetState rt payload = Ok createDefaultPlanetState)
    /\ (forall (payload md : list (string * unknown))
               (options : option SaveSlots.DeserializePlanetSaveOptions) (k v : Z),
           SaveSlots.ensurePositiveInteger (prop "version" payload) = Some 1 ->
           isRecord (prop "metadata" payload) = Some md ->
           SaveSlots.ensureSlotIndex (prop "slot" md) = Some k ->
           acceptsSlot options k ->
           SaveSlots.ensurePositiveInteger (prop "planetStateVersion" payload) = Some v ->
           v <= PLANET_STATE_VERSION ->
           has_prop "planetState" payload = true ->
           notAnObject rt (prop "planetState" payload) ->
           exists m : SaveSlots.PlanetSaveMetadata,
             SaveSlots.deserializePlanetSave rt (JObject payload) options
             = Ok {| SaveSlots.metadata := m;
                     SaveSlots.planetStateVersion := PLANET_STATE_VERSION;
                     SaveSlots.planetState := createDefaultPlanetState |}
             /\ SaveSlots.slot m = k).
Proof.
  intros rt. split; [apply deserializePlanetState_notAnObject |].
  intros payload md options k v Hversion Hmd Hslot Haccept Hpsv Hv Hhas Hstate.
  unfold SaveSlots.deserializePlanetSave.
  rewrite parseSavePayload_current by exact Hversion.
  eapply normalizePlanetSaveV1_accepts; eauto.
  now apply deserializePlanetState_notAnObject.
Qed.

Lemma non_object_payload_yields_default_witness :
  exists m : SaveSlots.PlanetSaveMetadata,
    SaveSlots.deserializePlanetSave Reference.runtime
      (JObject (envelope (JString (Reference.stringify (JArray [JNull; JBool true])))))
      (Some {| SaveSlots.expectedSlot := Some (Int 2) |})
    = Ok {| SaveSlots.metadata := m;
            SaveSlots.planetStateVersion := PLANET_STATE_VERSION;
            SaveSlots.planetState := createDefaultPlanetState |}
    /\ SaveSlots.slot m = 2.
Proof.
  apply (proj2 (non_object_payload_yields_default Reference.runtime))
    with (md := [("slot", JNumber (Int 2)); ("label", JString "  Backup  ")]) (v := 1).
  - reflexivity.
  - reflexivity.
  - reflexivity.
  - reflexivity.
  - reflexivity.
  - unfold PLANET_STATE_VERSION. lia.
  - reflexivity.
  - simpl. eexists. split; [vm_compute; reflexivity | reflexivity].
Defined.

(** ** Save records *)

Lemma normalizePlanetSaveV1_errors (rt : Runtime) (payload : list (string * unknown))
    (options : option SaveSlots.DeserializePlanetSaveOptions) (e : exn) :
  SaveSlots.normalizePlanetSaveV1 rt payload options = Throw e -> isSaveError e = true.
Proof.
  unfold SaveSlots.normalizePlanetSaveV1. cbv zeta.
  destruct (isRecord (prop "metadata" payload)) as [md |]; [| now intros [= <-]].
  destruct (SaveSlots.ensureSlotIndex (prop "slot" md)) as [k |];
    [| destruct (match options with Some o => SaveSlots.expectedSlot o | None => None end);
       now intros [= <-]].
  destruct (match match options with Some o => SaveSlots.expectedSlot o | None => None end
            with
            | Some e0 => if SaveSlots.Number_differs (Int k) e0 then Some e0 else None
            | None => None
            end); [now intros [= <-] |].
  destruct (negb (has_prop "planetStateVersion" payload)); [now intros [= <-] |].
  destruct (SaveSlots.ensurePositiveInteger (prop "planetStateVersion" payload)) as [v |];
    [| now intros [= <-]].
  destruct (PLANET_STATE_VERSION <? v); [now intros [= <-] |].
  destruct (negb (has_prop "planetState" payload)); [now intros [= <-] |].
  destruct (deserializePlanetState rt (prop "planetState" payload));
    [discriminate | now intros [= <-]].
Qed.

(** [parseSavePayload] either hands an object of format version 1 to
    [normalizePlanetSaveV1] or classifies the payload itself. *)
Lemma parseSavePayload_outcome (rt : Runtime) (payload : unknown)
    (options : option SaveSlots.DeserializePlanetSaveOptions) :
  (exists props,
      SaveSlots.parseSavePayload rt payload options
      = SaveSlots.normalizePlanetSaveV1 rt props options)
  \/ (exists e, SaveSlots.parseSavePayload rt payload options = Throw e
                /\ isSaveError e = true).
Proof.
  unfold SaveSlots.parseSavePayload.
  match goal with
  | |- context [bind _ ?k] =>
      assert (G : forall raw,
                 (exists props, k raw = SaveSlots.normalizePlanetSaveV1 rt props options)
                 \/ (exists e, k raw = Throw e /\ isSaveError e = true))
  end.
  2: { destruct payload as [| | b | n | text | items | props];
         [exact (G JUndefined) | exact (G JNull) | exact (G (JBool b))
         | exact (G (JNumber n)) | | exact (G (JArray items)) | exact (G (JObject props))].
       destruct (JSON_parse rt text) as [v | message]; [exact (G v) |].
       right. eexists. split; reflexivity. }
  intros raw. cbv beta. destruct (isRecord raw) as [props |];
    [| right; eexists; split; reflexivity].
  destruct (negb (has_prop "version" props)); [right; eexists; split; reflexivity |].
  destruct (SaveSlots.ensurePositiveInteger (prop "version" props)) as [v |];
    [| right; eexists; split; reflexivity].
  unfold SaveSlots.PLANET_SAVE_NORMALIZERS.
  destruct (v =? SaveSlots.PLANET_SAVE_FORMAT_VERSION);
    [left; now exists props | right; eexists; split; reflexivity].
Qed.

Lemma parseSavePayload_errors (rt : Runtime) (payload : unknown)
    (options : option SaveSlots.DeserializePlanetSaveOptions) (e : exn) :
  SaveSlots.parseSavePayload rt payload options = Throw e -> isSaveError e = true.
Proof.
  destruct (parseSavePayload_outcome rt payload options) as [[props ->] | [e' [-> H]]].
  - apply normalizePlanetSaveV1_errors.
  - now intros [= <-].
Qed.

Lemma ensureISODate_time (rt : Runtime) (L : RuntimeLaws rt) (value : unknown) (f : Z) :
  valid_time f ->
  exists t, valid_time t
            /\ SaveSlots.ensureISODate rt value (Date_toISOString rt f)
               = Date_toISOString rt t.
Proof.
  intros Vf. unfold SaveSlots.ensureISODate.
  destruct value; try (now exists f).
  destruct (Date_parse rt s) as [p |] eqn:E; [| now exists f].
  exists p. split; [| reflexivity]. exact (Date_parse_valid rt L s p E).
Qed.

Lemma valid_time_epoch : valid_time 0.
Proof. unfold valid_time. simpl. lia. Qed.

(** The timestamps of a record that [normalizePlanetSaveV1] returns are
    canonical and in order. *)
Lemma normalizePlanetSaveV1_times (rt : Runtime) (L : RuntimeLaws rt)
    (payload : list (string * unknown))
    (options : option SaveSlots.DeserializePlanetSaveOptions) (save : SaveSlots.PlanetSave) :
  SaveSlots.normalizePlanetSaveV1 rt payload options = Ok save ->
  exists c u : Z,
    valid_time c /\ valid_time u /\ c <= u
    /\ SaveSlots.createdAt (SaveSlots.metadata save) = Date_toISOString rt c
    /\ SaveSlots.updatedAt (SaveSlots.metadata save) = Date_toISOString rt u.
Proof.
  unfold SaveSlots.normalizePlanetSaveV1. cbv zeta.
  destruct (isRecord (prop "metadata" payload)) as [md |]; [| discriminate].
  destruct (SaveSlots.ensureSlotIndex (prop "slot" md)) as [k |];
    [| destruct (match options with Some o => SaveSlots.expectedSlot o | None => None end);
       discriminate].
  destruct (match match options with Some o => SaveSlots.expectedSlot o | None => None end
            with
            | Some e0 => if SaveSlots.Number_differs (Int k) e0 then Some e0 else None
            | None => None
            end); [discriminate |].
  destruct (negb (has_prop "planetStateVersion" payload)); [discriminate |].
  destruct (SaveSlots.ensurePositiveInteger (prop "planetStateVersion" payload)) as [v |];
    [| discriminate].
  destruct (PLANET_STATE_VERSION <? v); [discriminate |].
  destruct (negb (has_prop "planetState" payload)); [discriminate |].
  destruct (deserializePlanetState rt (prop "planetState" payload)); [| discriminate].
  intros [= <-]. cbn [SaveSlots.metadata SaveSlots.createdAt SaveSlots.updatedAt].
  unfold SaveSlots.ISO_EPOCH.
  destruct (ensureISODate_time rt L (prop "createdAt" md) 0 valid_time_epoch)
    as [c [Vc ->]].
  destruct (ensureISODate_time rt L (prop "updatedAt" md) c Vc) as [u [Vu ->]].
  rewrite !(Date_parse_toISOString rt L) by assumption.
  exists c. destruct (Z.ltb_spec u c).
  - exists c. repeat split; try assumption; reflexivity.
  - exists u. repeat split; try assumption; reflexivity.
Qed.

Lemma parseSavePayload_times (rt : Runtime) (L : RuntimeLaws rt) (payload : unknown)
    (options : option SaveSlots.DeserializePlanetSaveOptions) (save : SaveSlots.PlanetSave) :
  SaveSlots.parseSavePayload rt payload options = Ok save ->
  exists c u : Z,
    valid_time c /\ valid_time u /\ c <= u
    /\ SaveSlots.createdAt (SaveSlots.metadata save) = Date_toISOString rt c
    /\ SaveSlots.updatedAt (SaveSlots.metadata save) = Date_toISOString rt u.
Proof.
  destruct (parseSavePayload_outcome rt payload options) as [[props ->] | [e' [-> H]]].
  - apply normalizePlanetSaveV1_times, L.
  - discriminate.
Qed.

(** ** Save slots *)

Lemma ensureSlotIndex_Int (k : Z) :
  0 <= k < SaveSlots.SAVE_SLOT_COUNT -> SaveSlots.ensureSlotIndex (JNumber (Int k)) = Some k.
Proof.
  intros [H0 H1]. unfold SaveSlots.ensureSlotIndex, Int. rewrite Qfloor_Z. cbv zeta.
  destruct (Z.ltb_spec k 0); [lia |].
  destruct (Z.leb_spec SaveSlots.SAVE_SLOT_COUNT k); [lia | reflexivity].
Qed.

Lemma Number_differs_Int (k : Z) : SaveSlots.Number_differs (Int k) (Int k) = false.
Proof.
  unfold SaveSlots.Number_differs, Int.
  now rewrite (proj2 (Qeq_bool_iff _ _) (Qeq_refl _)).
Qed.

Lemma assertValidSlotIndex_Ok (rt : Runtime) (slot : number) (k : Z) :
  SaveSlots.assertValidSlotIndex rt slot = Ok k -> 0 <= k < SaveSlots.SAVE_SLOT_COUNT.
Proof.
  unfold SaveSlots.assertValidSlotIndex, SaveSlots.Number_isInteger.
  destruct slot as [q | | |]; try discriminate.
  destruct (Qeq_bool q (inject_Z (Qfloor q))) eqn:E1; [| discriminate].
  destruct (Qltb q 0) eqn:E2; [discriminate |].
  destruct (Qltb q (inject_Z SaveSlots.SAVE_SLOT_COUNT)) eqn:E3; [| discriminate].
  simpl. intros [= <-].
  apply Qeq_bool_iff in E1. apply Qltb_ge in E2. apply Qltb_lt in E3.
  rewrite E1 in E2, E3. split.
  - rewrite Zle_Qle. exact E2.
  - rewrite Zlt_Qlt. exact E3.
Qed.

Lemma assertValidSlotIndex_Int (rt : Runtime) (k : Z) :
  0 <= k < SaveSlots.SAVE_SLOT_COUNT -> SaveSlots.assertValidSlotIndex rt (Int k) = Ok k.
Proof.
  intros [H0 H1]. unfold SaveSlots.assertValidSlotIndex, SaveSlots.Number_isInteger, Int.
  rewrite Qfloor_Z. rewrite (proj2 (Qeq_bool_iff _ _) (Qeq_refl _)).
  replace (Qltb (inject_Z k) 0) with false
    by (symmetry; apply Qltb_ge; change 0%Q with (inject_Z 0); now rewrite <- Zle_Qle).
  replace (Qltb (inject_Z k) (inject_Z SaveSlots.SAVE_SLOT_COUNT)) with true
    by (symmetry; apply Qltb_lt; now rewrite <- Zlt_Qlt).
  reflexivity.
Qed.

Lemma tryReadSaveFromStorage_total (rt : Runtime) (storage : Storage) (k : Z) :
  exists existing, SaveSlots.tryReadSaveFromStorage rt storage k = Ok existing.
Proof.
  unfold SaveSlots.tryReadSaveFromStorage, SaveSlots.readSaveFromStorage. cbv zeta.
  destruct (getItem storage (SaveSlots.getSlotKey rt k)) as [raw |]; [| now eexists].
  destruct (SaveSlots.parseSavePayload rt (JString raw) _) as [save | e] eqn:E;
    [now eexists |].
  apply parseSavePayload_errors in E. destruct e; try discriminate; now eexists.
Qed.

Lemma buildSerializedSavePayload_clean (s : PlanetState) (m : SaveSlots.PlanetSaveMetadata) :
  PlanetState_valid s = true ->
  json_clean (SaveSlots.buildSerializedSavePayload s m) = true.
Proof.
  intros V. unfold SaveSlots.buildSerializedSavePayload.
  abstract_clean (PlanetState_toValue s) ltac:(now apply PlanetState_clean).
  finish_clean.
Qed.

Lemma parseSavePayload_text (rt : Runtime) (text : string) (props : list (string * unknown))
    (options : option SaveSlots.DeserializePlanetSaveOptions) :
  JSON_parse rt text = Parsed (JObject props) ->
  SaveSlots.parseSavePayload rt (JString text) options
  = SaveSlots.parseSavePayload rt (JObject props) options.
Proof. intros H. unfold SaveSlots.parseSavePayload. now rewrite H. Qed.

(** Reading back what [savePlanetStateToSlot] writes. *)
Lemma parse_serialized (rt : Runtime) (L : RuntimeLaws rt) (s : PlanetState)
    (m : SaveSlots.PlanetSaveMetadata) :
  normalizePlanetStateV1 (PlanetState_props s) = Ok s ->
  0 <= SaveSlots.slot m < SaveSlots.SAVE_SLOT_COUNT ->
  exists m' : SaveSlots.PlanetSaveMetadata,
    SaveSlots.parseSavePayload rt
      (JString (JSON_stringify rt (SaveSlots.buildSerializedSavePayload s m)))
      (Some {| SaveSlots.expectedSlot := Some (Int (SaveSlots.slot m)) |})
    = Ok {| SaveSlots.metadata := m';
            SaveSlots.planetStateVersion := PLANET_STATE_VERSION;
            SaveSlots.planetState := s |}
    /\ SaveSlots.slot m' = SaveSlots.slot m.
Proof.
  intros C K.
  assert (V : PlanetState_valid s = true) by (eapply normalizePlanetStateV1_valid; exact C).
  pose proof (JSON_parse_stringify rt L _ (buildSerializedSavePayload_clean s m V)) as P.
  unfold SaveSlots.buildSerializedSavePayload in P at 2.
  rewrite (parseSavePayload_text rt _ _ _ P).
  rewrite parseSavePayload_current by reflexivity.
  eapply normalizePlanetSaveV1_accepts with (v := 1).
  - reflexivity.
  - cbn [prop String.eqb Ascii.eqb Bool.eqb]. now apply ensureSlotIndex_Int.
  - apply Number_differs_Int.
  - reflexivity.
  - unfold PLANET_STATE_VERSION. lia.
  - reflexivity.
  - exact C.
Qed.

(** C5, as amended. On a key-value storage, saving a state that
    normalization leaves unchanged - as every state returned by
    [createDefaultPlanetState] or [deserializePlanetState] is - to a valid
    slot and loading that slot returns a record of that slot with that
    state; and a payload whose metadata names another slot than the
    expected one is rejected as corrupted. *)
Theorem save_then_load (rt : Runtime) (L : RuntimeLaws rt) :
  (forall (items : gmap string string) (now : Z) (slot : number) (k : Z) (s : PlanetState)
          (options : option SaveSlots.SavePlanetStateOptions),
      SaveSlots.assertValidSlotIndex rt slot = Ok k ->
      normalizePlanetStateV1 (PlanetState_props s) = Ok s ->
      match options with
      | Some o => SaveSlots.option_timestamp o <> Some None
      | None => True
      end ->
      exists (saved loaded : SaveSlots.PlanetSave) (storage' : Storage),
        SaveSlots.savePlanetStateToSlot rt now (LocalStorage items) slot s options
        = Ok (saved, storage')
        /\ SaveSlots.loadPlanetSaveSlot rt storage' slot = Ok loaded
        /\ SaveSlots.slot (SaveSlots.metadata saved) = k
        /\ SaveSlots.planetState saved = s
        /\ SaveSlots.slot (SaveSlots.metadata loaded) = k
        /\ SaveSlots.planetState loaded = s)
  /\ (forall (payload md : list (string * unknown)) (k expected : Z),
         SaveSlots.ensurePositiveInteger (prop "version" payload) = Some 1 ->
         isRecord (prop "metadata" payload) = Some md ->
         SaveSlots.ensureSlotIndex (prop "slot" md) = Some k ->
         k <> expected ->
         exists message,
           SaveSlots.deserializePlanetSave rt (JObject payload)
             (Some {| SaveSlots.expectedSlot := Some (Int expected) |})
           = Throw (PlanetSaveCorruptedError message)).
Proof.
  split.
  - intros items now slot k s options Hslot C Hdate.
    pose proof (assertValidSlotIndex_Ok rt slot k Hslot) as K.
    unfold SaveSlots.savePlanetStateToSlot, SaveSlots.loadPlanetSaveSlot.
    rewrite Hslot. simpl bind.
    destruct (tryReadSaveFromStorage_total rt (LocalStorage items) k) as [existing ->].
    simpl bind.
    assert (T : exists stamp,
               SaveSlots.Date_prototype_toISOString rt
                 match options with
                 | Some o =>
                     match SaveSlots.option_timestamp o with
                     | Some d => d
                     | None => Some now
                     end
                 | None => Some now
                 end = Ok stamp).
    { destruct options as [[l [[t |] |]] |]; simpl in *;
        [now eexists | exfalso; now apply Hdate | now eexists | now eexists]. }
    destruct T as [stamp ->]. simpl bind.
    match goal with
    | |- context [SaveSlots.buildSerializedSavePayload s ?m] =>
        destruct (parse_serialized rt L s m C K) as [m' [P Hm']]; set (meta := m') in *
    end.
    do 3 eexists. split; [reflexivity |].
    unfold SaveSlots.readSaveFromStorage, getItem, setItem. cbv zeta.
    rewrite lookup_insert_eq.
    cbn [SaveSlots.slot] in P. rewrite P.
    repeat split; try reflexivity. exact Hm'.
  - intros payload md k expected Hversion Hmd Hslot Hne.
    unfold SaveSlots.deserializePlanetSave.
    rewrite parseSavePayload_current by exact Hversion.
    unfold SaveSlots.normalizePlanetSaveV1. rewrite Hmd. cbv zeta. rewrite Hslot.
    cbn [SaveSlots.expectedSlot].
    assert (D : SaveSlots.Number_differs (Int k) (Int expected) = true).
    { unfold SaveSlots.Number_differs, Int. apply negb_true_iff.
      destruct (Qeq_bool (inject_Z k) (inject_Z expected)) eqn:E; [| reflexivity].
      apply Qeq_bool_iff in E. rewrite inject_Z_injective in E. contradiction. }
    rewrite D. eexists. reflexivity.
Qed.

Lemma save_then_load_witness :
  exists (saved loaded : SaveSlots.PlanetSave) (storage' : Storage),
    SaveSlots.savePlanetStateToSlot Reference.runtime 1704186000000 emptyStorage (Int 1)
      createDefaultPlanetState None
    = Ok (saved, storage')
    /\ SaveSlots.loadPlanetSaveSlot Reference.runtime storage' (Int 1) = Ok loaded
    /\ SaveSlots.slot (SaveSlots.metadata saved) = 1
    /\ SaveSlots.planetState saved = createDefaultPlanetState
    /\ SaveSlots.slot (SaveSlots.metadata loaded) = 1
    /\ SaveSlots.planetState loaded = createDefaultPlanetState.
Proof.
  apply (proj1 (save_then_load Reference.runtime ReferenceLaws.laws)).
  - reflexivity.
  - apply createDefaultPlanetState_canonical.
  - exact I.
Defined.

(** C5, the claim as stated fails: a planet state with albedo 5 is saved
    as it is, and loading the slot returns a state with albedo 1. *)
Lemma save_then_load_normalizes :
  match SaveSlots.savePlanetStateToSlot Reference.runtime 1704186000000 emptyStorage (Int 1)
          brightPlanet None with
  | Ok (saved, storage') =>
      match SaveSlots.loadPlanetSaveSlot Reference.runtime storage' (Int 1) with
      | Ok loaded =>
          SaveSlots.planetState saved = brightPlanet
          /\ albedo (climate (SaveSlots.planetState saved)) = Num 5
          /\ albedo (climate (SaveSlots.planetState loaded)) = Num 1
          /\ SaveSlots.planetState loaded <> brightPlanet
      | Throw _ => False
      end
  | Throw _ => False
  end.
Proof.
  vm_compute. repeat split; try reflexivity. discriminate.
Qed.

(** ** Listing the slots *)

Lemma summarizeSlot_empty (rt : Runtime) (storage : Storage) (k : Z) :
  getItem storage (SaveSlots.getSlotKey rt k) = None ->
  SaveSlots.summarizeSlot rt storage k
  = Ok (SaveSlots.SummaryEmpty k (SaveSlots.defaultSlotLabel rt k)).
Proof. intros H. unfold SaveSlots.summarizeSlot. cbv zeta. now rewrite H. Qed.

Lemma summarizeSlot_available (rt : Runtime) (storage : Storage) (k : Z) (raw : string)
    (save : SaveSlots.PlanetSave) :
  getItem storage (SaveSlots.getSlotKey rt k) = Some raw ->
  SaveSlots.parseSavePayload rt (JString raw)
    (Some {| SaveSlots.expectedSlot := Some (Int k) |}) = Ok save ->
  SaveSlots.summarizeSlot rt storage k
  = Ok (SaveSlots.SummaryAvailable
          {| SaveSlots.available_slot := k;
             SaveSlots.available_label := SaveSlots.label (SaveSlots.metadata save);
             SaveSlots.available_metadata := SaveSlots.metadata save;
             SaveSlots.available_planetStateVersion := SaveSlots.planetStateVersion save |}).
Proof. intros H P. unfold SaveSlots.summarizeSlot. cbv zeta. now rewrite H, P. Qed.

Lemma summarizeSlot_malformed (rt : Runtime) (storage : Storage) (k : Z) (raw message : string) :
  getItem storage (SaveSlots.getSlotKey rt k) = Some raw ->
  JSON_parse rt raw = Malformed message ->
  SaveSlots.summarizeSlot rt storage k
  = Ok (SaveSlots.SummaryCorrupted k (SaveSlots.defaultSlotLabel rt k)
          "Save payload is not valid JSON").
Proof.
  intros H P. unfold SaveSlots.summarizeSlot, SaveSlots.parseSavePayload. cbv zeta.
  now rewrite H, P.
Qed.

(** A slot is always summarized, and as available only for a payload that parses. *)
Lemma summarizeSlot_total (rt : Runtime) (storage : Storage) (k : Z) :
  exists summary,
    SaveSlots.summarizeSlot rt storage k = Ok summary
    /\ forall a, SaveSlots.isPlanetSaveSlotAvailable summary = Some a ->
                 exists raw save,
                   SaveSlots.parseSavePayload rt (JString raw)
                     (Some {| SaveSlots.expectedSlot := Some (Int k) |}) = Ok save
                   /\ SaveSlots.available_metadata a = SaveSlots.metadata save.
Proof.
  unfold SaveSlots.summarizeSlot. cbv zeta.
  destruct (getItem storage (SaveSlots.getSlotKey rt k)) as [raw |];
    [| eexists; split; [reflexivity | discriminate]].
  destruct (SaveSlots.parseSavePayload rt (JString raw) _) as [save | e] eqn:E.
  - eexists. split; [reflexivity |]. intros a [= <-]. now exists raw, save.
  - apply parseSavePayload_errors in E.
    destruct e; try discriminate; eexists; (split; [reflexivity | discriminate]).
Qed.

Lemma listPlanetSaveSlots_total (rt : Runtime) (L : RuntimeLaws rt) (storage : Storage) :
  exists s0 s1 s2,
    SaveSlots.listPlanetSaveSlots rt storage = Ok [s0; s1; s2]
    /\ SaveSlots.summarizeSlot rt storage 0 = Ok s0
    /\ SaveSlots.summarizeSlot rt storage 1 = Ok s1
    /\ SaveSlots.summarizeSlot rt storage 2 = Ok s2
    /\ forall a, In a (availableSummaries [s0; s1; s2]) -> exists t, stamp rt a = Some t.
Proof.
  destruct (summarizeSlot_total rt storage 0) as [s0 [E0 A0]].
  destruct (summarizeSlot_total rt storage 1) as [s1 [E1 A1]].
  destruct (summarizeSlot_total rt storage 2) as [s2 [E2 A2]].
  exists s0, s1, s2. repeat split; try assumption.
  - unfold SaveSlots.listPlanetSaveSlots. simpl.
    change (0 + 1) with 1. change (1 + 1) with 2. now rewrite E0, E1, E2.
  - assert (T : forall k s,
               (forall a, SaveSlots.isPlanetSaveSlotAvailable s = Some a ->
                          exists raw save,
                            SaveSlots.parseSavePayload rt (JString raw)
                              (Some {| SaveSlots.expectedSlot := Some (Int k) |}) = Ok save
                            /\ SaveSlots.available_metadata a = SaveSlots.metadata save) ->
               forall a, SaveSlots.isPlanetSaveSlotAvailable s = Some a ->
                         exists t, stamp rt a = Some t).
    { intros k s H a Ha. destruct (H a Ha) as [raw [save [P M]]].
      destruct (parseSavePayload_times rt L _ _ _ P) as [c [u [Vc [Vu [_ [_ U]]]]]].
      exists u. unfold stamp, timeOf. rewrite M, U.
      now apply (Date_parse_toISOString rt L). }
    pose proof (T 0 s0 A0) as T0. pose proof (T 1 s1 A1) as T1.
    pose proof (T 2 s2 A2) as T2. clear T A0 A1 A2.
    intros a Hin. simpl in Hin.
    destruct (SaveSlots.isPlanetSaveSlotAvailable s0) as [a0 |];
      destruct (SaveSlots.isPlanetSaveSlotAvailable s1) as [a1 |];
      destruct (SaveSlots.isPlanetSaveSlotAvailable s2) as [a2 |];
      simpl in Hin;
      repeat (destruct Hin as [<- | Hin]); try contradiction;
      first [ now apply T0 | now apply T1 | now apply T2 ].
Qed.

Lemma considerSummary_fold (rt : Runtime) (rest : list SaveSlots.PlanetSaveSlotSummary) :
  forall (seen : list SaveSlots.PlanetSaveSlotSummaryAvailable)
         (latest : option SaveSlots.PlanetSaveSlotSummaryAvailable),
    match latest with
    | None => seen = []
    | Some a => firstLatest rt seen a
    end ->
    (forall a, In a (availableSummaries rest) -> exists t, stamp rt a = Some t) ->
    match fold_left (SaveSlots.considerSummary rt) rest latest with
    | None => (seen ++ availableSummaries rest)%list = []
    | Some a => firstLatest rt (seen ++ availableSummaries rest)%list a
    end.
Proof.
  induction rest as [| summary rest IH]; intros seen latest Inv Stamped; simpl.
  - rewrite List.app_nil_r. exact Inv.
  - unfold SaveSlots.considerSummary at 2.
    simpl in Stamped.
    destruct (SaveSlots.isPlanetSaveSlotAvailable summary) as [candidate |];
      [| now apply IH].
    replace (seen ++ candidate :: availableSummaries rest)%list
      with ((seen ++ [candidate]) ++ availableSummaries rest)%list
      by (now rewrite <- List.app_assoc).
    destruct (Stamped candidate (or_introl eq_refl)) as [tc Hc].
    assert (Stamped' : forall a, In a (availableSummaries rest) ->
                                 exists t, stamp rt a = Some t)
      by (intros a Ha; apply Stamped; now right).
    destruct latest as [current |].
    + destruct Inv as [before [after [tl [-> [Hl [Hb Ha]]]]]].
      change (Date_parse rt (SaveSlots.updatedAt (SaveSlots.available_metadata candidate)))
        with (stamp rt candidate).
      change (Date_parse rt (SaveSlots.updatedAt (SaveSlots.available_metadata current)))
        with (stamp rt current).
      rewrite Hc, Hl. destruct (Z.ltb_spec tl tc) as [Lt | Ge].
      * apply IH; [| exact Stamped'].
        exists (before ++ current :: after)%list, [], tc.
        split; [reflexivity |]. split; [exact Hc |]. split; [| intros b []].
        intros b Hin. apply List.in_app_or in Hin as [Hin | [<- | Hin]].
        -- destruct (Hb b Hin) as [t [Ht Hlt]]. exists t. split; [exact Ht | lia].
        -- exists tl. split; [exact Hl | lia].
        -- destruct (Ha b Hin) as [t [Ht Hle]]. exists t. split; [exact Ht | lia].
      * apply IH; [| exact Stamped'].
        exists before, (after ++ [candidate])%list, tl.
        split; [now rewrite <- List.app_assoc |]. split; [exact Hl |].
        split; [exact Hb |].
        intros b Hin. apply List.in_app_or in Hin as [Hin | [<- | []]].
        -- now apply Ha.
        -- exists tc. split; [exact Hc | lia].
    + subst seen. apply IH; [| exact Stamped'].
      exists [], [], tc. split; [reflexivity |]. split; [exact Hc |].
      split; intros b [].
Qed.

(** C6. With malformed JSON text in slot 0, a valid record in slot 1 and
    nothing in slot 2, [listPlanetSaveSlots] classifies the slots as
    corrupted, available and empty, and [findMostRecentValidSaveSlot]
    returns the summary of slot 1.  For every storage,
    [findMostRecentValidSaveSlot] returns the first of the available
    summaries of the listing with the greatest parsed [updatedAt], and
    [null] when no summary is available. *)
Theorem listing_and_most_recent (rt : Runtime) (L : RuntimeLaws rt) :
  (forall (storage : Storage) (text0 message text1 : string) (save : SaveSlots.PlanetSave),
      getItem storage (SaveSlots.getSlotKey rt 0) = Some text0 ->
      JSON_parse rt text0 = Malformed message ->
      getItem storage (SaveSlots.getSlotKey rt 1) = Some text1 ->
      SaveSlots.parseSavePayload rt (JString text1)
        (Some {| SaveSlots.expectedSlot := Some (Int 1) |}) = Ok save ->
      getItem storage (SaveSlots.getSlotKey rt 2) = None ->
      exists s0 s1 s2 a,
        SaveSlots.listPlanetSaveSlots rt storage = Ok [s0; s1; s2]
        /\ status s0 = "corrupted" /\ status s1 = "available" /\ status s2 = "empty"
        /\ s1 = SaveSlots.SummaryAvailable a
        /\ SaveSlots.available_slot a = 1
        /\ SaveSlots.available_metadata a = SaveSlots.metadata save
        /\ SaveSlots.findMostRecentValidSaveSlot rt storage = Ok (Some a))
  /\ (forall storage : Storage,
         exists summaries,
           SaveSlots.listPlanetSaveSlots rt storage = Ok summaries
           /\ List.length summaries = Z.to_nat SaveSlots.SAVE_SLOT_COUNT
           /\ match SaveSlots.findMostRecentValidSaveSlot rt storage with
              | Ok None => availableSummaries summaries = []
              | Ok (Some a) => firstLatest rt (availableSummaries summaries) a
              | Throw _ => False
              end).
Proof.
  split.
  - intros storage text0 message text1 save G0 P0 G1 P1 G2.
    assert (E : SaveSlots.listPlanetSaveSlots rt storage
                = Ok [SaveSlots.SummaryCorrupted 0 (SaveSlots.defaultSlotLabel rt 0)
                        "Save payload is not valid JSON";
                      SaveSlots.SummaryAvailable
                        {| SaveSlots.available_slot := 1;
                           SaveSlots.available_label :=
                             SaveSlots.label (SaveSlots.metadata save);
                           SaveSlots.available_metadata := SaveSlots.metadata save;
                           SaveSlots.available_planetStateVersion :=
                             SaveSlots.planetStateVersion save |};
                      SaveSlots.SummaryEmpty 2 (SaveSlots.defaultSlotLabel rt 2)]).
    { unfold SaveSlots.listPlanetSaveSlots. simpl.
      change (0 + 1) with 1. change (1 + 1) with 2.
      rewrite (summarizeSlot_malformed rt storage 0 text0 message G0 P0).
      rewrite (summarizeSlot_available rt storage 1 text1 save G1 P1).
      rewrite (summarizeSlot_empty rt storage 2 G2). reflexivity. }
    do 4 eexists. split; [exact E |].
    repeat split. unfold SaveSlots.findMostRecentValidSaveSlot. rewrite E. reflexivity.
  - intros storage.
    destruct (listPlanetSaveSlots_total rt L storage) as [s0 [s1 [s2 [E [_ [_ [_ T]]]]]]].
    exists [s0; s1; s2]. split; [exact E |]. split; [reflexivity |].
    unfold SaveSlots.findMostRecentValidSaveSlot. rewrite E. simpl bind.
    exact (considerSummary_fold rt [s0; s1; s2] [] None eq_refl T).
Qed.

Lemma listing_and_most_recent_witness :
  exists s0 s1 s2 a,
    SaveSlots.listPlanetSaveSlots Reference.runtime scenarioStorage = Ok [s0; s1; s2]
    /\ status s0 = "corrupted" /\ status s1 = "available" /\ status s2 = "empty"
    /\ s1 = SaveSlots.SummaryAvailable a
    /\ SaveSlots.available_slot a = 1
    /\ SaveSlots.updatedAt (SaveSlots.available_metadata a)
       = Date_toISOString Reference.runtime 1704186000000
    /\ SaveSlots.findMostRecentValidSaveSlot Reference.runtime scenarioStorage = Ok (Some a).
Proof.
  destruct (proj1 (listing_and_most_recent Reference.runtime ReferenceLaws.laws)
              scenarioStorage "not-json" "Unexpected token"
              (SaveSlots.serializePlanetSave Reference.runtime smallPlanet
                 {| SaveSlots.slot := 1;
                    SaveSlots.label := "Slot 2";
                    SaveSlots.createdAt := Date_toISOString Reference.runtime 1704186000000;
                    SaveSlots.updatedAt := Date_toISOString Reference.runtime 1704186000000 |})
              {| SaveSlots.metadata :=
                   {| SaveSlots.slot := 1;
                      SaveSlots.label := "Slot 2";
                      SaveSlots.createdAt :=
                        Date_toISOString Reference.runtime 1704186000000;
                      SaveSlots.updatedAt :=
                        Date_toISOString Reference.runtime 1704186000000 |};
                 SaveSlots.planetStateVersion := 1;
                 SaveSlots.planetState := smallPlanet |})
    as [s0 [s1 [s2 [a [E [H0 [H1 [H2 [Ha [Hs [Hm F]]]]]]]]]]].
  - vm_compute. reflexivity.
  - vm_compute. reflexivity.
  - vm_compute. reflexivity.
  - vm_compute. reflexivity.
  - vm_compute. reflexivity.
  - exists s0, s1, s2, a. repeat split; try assumption. now rewrite Hm.
Defined.

(** ** Timestamps *)

(** Every record that [deserializePlanetSave] returns is chronological. *)
Lemma deserializePlanetSave_chronological (rt : Runtime) (L : RuntimeLaws rt)
    (payload : unknown) (options : option SaveSlots.DeserializePlanetSaveOptions)
    (save : SaveSlots.PlanetSave) :
  SaveSlots.deserializePlanetSave rt payload options = Ok save ->
  chronological rt (SaveSlots.metadata save).
Proof.
  intros H. destruct (parseSavePayload_times rt L _ _ _ H) as [c [u [Vc [Vu [Le [C U]]]]]].
  exists c, u. unfold timeOf. rewrite C, U.
  now rewrite !(Date_parse_toISOString rt L).
Qed.

(** C7. [savePlanetStateToSlot] keeps the [createdAt] of the record that the
    slot holds and stamps [updatedAt] with the timestamp it is given: with
    a timestamp older than the creation of the stored record, the record
    it returns and writes has [updatedAt] before [createdAt]. *)
Theorem save_can_break_chronology (rt : Runtime) (L : RuntimeLaws rt) :
  forall (storage : Storage) (now : Z) (slot : number) (k : Z) (s : PlanetState)
         (existing : SaveSlots.PlanetSave) (t0 t1 : Z),
    SaveSlots.assertValidSlotIndex rt slot = Ok k ->
    SaveSlots.readSaveFromStorage rt storage k = Ok existing ->
    timeOf rt (SaveSlots.createdAt (SaveSlots.metadata existing)) = Some t1 ->
    valid_time t0 ->
    t0 < t1 ->
    exists (saved : SaveSlots.PlanetSave) (storage' : Storage),
      SaveSlots.savePlanetStateToSlot rt now storage slot s
        (Some {| SaveSlots.option_label := None;
                 SaveSlots.option_timestamp := Some (Some t0) |})
      = Ok (saved, storage')
      /\ timeOf rt (SaveSlots.createdAt (SaveSlots.metadata saved)) = Some t1
      /\ timeOf rt (SaveSlots.updatedAt (SaveSlots.metadata saved)) = Some t0
      /\ ~ chronological rt (SaveSlots.metadata saved).
Proof.
  intros storage now slot k s existing t0 t1 Hslot Hread Hcreated Vt0 Lt.
  unfold SaveSlots.savePlanetStateToSlot. rewrite Hslot. simpl bind.
  unfold SaveSlots.tryReadSaveFromStorage. rewrite Hread. simpl bind.
  do 2 eexists. split; [reflexivity |].
  cbn [SaveSlots.metadata SaveSlots.createdAt SaveSlots.updatedAt].
  assert (U : timeOf rt (Date_toISOString rt t0) = Some t0)
    by (apply (Date_parse_toISOString rt L); exact Vt0).
  split; [exact Hcreated |]. split; [exact U |].
  intros [c [u [Hc [Hu Le]]]].
  cbn [SaveSlots.metadata SaveSlots.createdAt SaveSlots.updatedAt] in Hc, Hu.
  rewrite Hcreated in Hc. rewrite U in Hu. injection Hc as <-. injection Hu as <-. lia.
Qed.

Lemma save_can_break_chronology_witness :
  exists (saved : SaveSlots.PlanetSave) (storage' : Storage),
    SaveSlots.savePlanetStateToSlot Reference.runtime 0 scenarioStorage (Int 1) smallPlanet
      (Some {| SaveSlots.option_label := None;
               SaveSlots.option_timestamp := Some (Some 1704099600000) |})
    = Ok (saved, storage')
    /\ timeOf Reference.runtime (SaveSlots.createdAt (SaveSlots.metadata saved))
       = Some 1704186000000
    /\ timeOf Reference.runtime (SaveSlots.updatedAt (SaveSlots.metadata saved))
       = Some 1704099600000
    /\ ~ chronological Reference.runtime (SaveSlots.metadata saved).
Proof.
  eapply (save_can_break_chronology Reference.runtime ReferenceLaws.laws) with (k := 1).
  - reflexivity.
  - vm_compute. reflexivity.
  - vm_compute. reflexivity.
  - unfold valid_time. simpl. lia.
  - lia.
Defined.

(** ** Noise: the permutation table *)

Module NoiseFacts.
Import Noise.

Lemma Uint8_set_length (table : list Z) (i : Z) (v : option Z) :
  List.length (Uint8_set table i v) = List.length table.
Proof.
  unfold Uint8_set. destruct (i <? 0); [reflexivity | apply length_insert].
Qed.

Lemma Uint8_set_bytes (table : list Z) (i : Z) (v : option Z) :
  bytes table -> bytes (Uint8_set table i v).
Proof.
  unfold bytes, Uint8_set. intros H. destruct (i <? 0); [exact H |].
  apply Forall_insert; [exact H |].
  destruct v as [v |]; [apply Z.mod_pos_bound |]; lia.
Qed.

Lemma shuffleLoop_length (steps : nat) :
  forall (i : Z) (state : Q) (permutation : list Z),
    List.length (shuffleLoop steps i state permutation) = List.length permutation.
Proof.
  induction steps as [| steps IH]; intros i state permutation; simpl; [reflexivity |].
  now rewrite IH, !Uint8_set_length.
Qed.

Lemma shuffleLoop_bytes (steps : nat) :
  forall (i : Z) (state : Q) (permutation : list Z),
    bytes permutation -> bytes (shuffleLoop steps i state permutation).
Proof.
  induction steps as [| steps IH]; intros i state permutation H; simpl; [exact H |].
  now apply IH, Uint8_set_bytes, Uint8_set_bytes.
Qed.

Lemma identityPermutation_bytes : bytes identityPermutation.
Proof.
  unfold bytes, identityPermutation. apply List.Forall_forall. intros v Hv.
  apply List.in_map_iff in Hv as [n [<- Hn]]. apply List.in_seq in Hn. lia.
Qed.

Lemma shuffled_length (seed : Q) : List.length (shuffled seed) = 256%nat.
Proof. unfold shuffled. now rewrite shuffleLoop_length. Qed.

Lemma shuffled_bytes (seed : Q) : bytes (shuffled seed).
Proof. unfold shuffled. apply shuffleLoop_bytes. exact identityPermutation_bytes. Qed.

(** What the copying loop leaves at each index. *)
Lemma copyLoop_lookup (permutation : list Z) (steps : nat) :
  bytes permutation ->
  List.length permutation = 256%nat ->
  forall (i : nat) (P : list Z) (j : nat),
    List.length P = 512%nat ->
    (i + steps <= 256)%nat ->
    copyLoop steps (Z.of_nat i) permutation P !! j
    = if decide (i <= j < i + steps)%nat then permutation !! j
      else if decide (i + 256 <= j < i + steps + 256)%nat then permutation !! (j - 256)%nat
           else P !! j.
Proof.
  intros Hb Hl. induction steps as [| steps IH]; intros i P j HP Hi; simpl.
  - repeat case_decide; try lia. reflexivity.
  - assert (Hget : exists v, Uint8_get permutation (Z.of_nat i) = Some v /\ 0 <= v < 256
                             /\ permutation !! i = Some v).
    { unfold Uint8_get. destruct (Z.ltb_spec (Z.of_nat i) 0); [lia |].
      rewrite Nat2Z.id.
      destruct (permutation !! i) as [v |] eqn:E.
      - exists v. split; [reflexivity |]. split; [| reflexivity].
        unfold bytes in Hb. rewrite Forall_lookup in Hb. exact (Hb i v E).
      - apply lookup_ge_None in E. lia. }
    destruct Hget as [v [-> [Hv Ev]]].
    replace (Z.of_nat i + 1) with (Z.of_nat (S i)) by lia.
    rewrite IH by (rewrite ?Uint8_set_length; lia).
    unfold Uint8_set.
    destruct (Z.ltb_spec (Z.of_nat i + 256) 0); [lia |].
    destruct (Z.ltb_spec (Z.of_nat i) 0); [lia |].
    rewrite Z.mod_small by lia.
    replace (Z.to_nat (Z.of_nat i + 256)) with (i + 256)%nat by lia.
    rewrite Nat2Z.id.
    repeat case_decide; try lia; try reflexivity.
    + assert (j = i) by lia. subst j.
      rewrite list_lookup_insert_ne by lia.
      rewrite list_lookup_insert_eq by lia. now rewrite Ev.
    + assert (j = (i + 256)%nat) by lia. subst j.
      rewrite list_lookup_insert_eq by (rewrite length_insert; lia).
      replace (i + 256 - 256)%nat with i by lia. now rewrite Ev.
    + rewrite !list_lookup_insert_ne by lia. reflexivity.
Qed.

(** After [initializePermutation] the table is the shuffled permutation
    twice, whatever it held before. *)
Lemma initializePermutation_table (seed : Q) (P : list Z) :
  List.length P = 512%nat ->
  initializePermutation seed P = (shuffled seed ++ shuffled seed)%list.
Proof.
  intros HP. unfold initializePermutation. apply list_eq. intros j.
  change 0 with (Z.of_nat 0).
  rewrite (copyLoop_lookup (shuffled seed) 256 (shuffled_bytes seed) (shuffled_length seed))
    by (assumption || lia).
  pose proof (shuffled_length seed) as Hl.
  repeat case_decide.
  - rewrite lookup_app_l by lia. reflexivity.
  - rewrite lookup_app_r by lia. rewrite Hl. reflexivity.
  - rewrite !lookup_ge_None_2; [reflexivity | rewrite length_app; lia | lia].
Qed.

End NoiseFacts.

(** C8. After [initNoise(seed)] the table is determined by the seed alone:
    it is the 256-entry permutation of the seeded shuffle followed by a copy
    of itself, whatever the table held before.  Two calls of [fbmNoise]
    with the same arguments return the same result, and two sessions with
    the same seed agree on the results and on the table. *)
Theorem noise_is_deterministic :
  forall (seed : Q) (P P' : list Z),
    List.length P = 512%nat ->
    List.length P' = 512%nat ->
    Noise.initializePermutation seed P = (Noise.shuffled seed ++ Noise.shuffled seed)%list
    /\ List.length (Noise.shuffled seed) = 256%nat
    /\ bytes (Noise.shuffled seed)
    /\ Noise.initializePermutation seed P' = Noise.initializePermutation seed P
    /\ forall x y z w octaves persistence lacunarity : Q,
         let '(first, second, table) :=
           noiseSession seed x y z w octaves persistence lacunarity P in
         first = second
         /\ table = Noise.initializePermutation seed P
         /\ noiseSession seed x y z w octaves persistence lacunarity P'
            = (first, second, table).
Proof.
  intros seed P P' HP HP'.
  pose proof (NoiseFacts.initializePermutation_table seed P HP) as E.
  pose proof (NoiseFacts.initializePermutation_table seed P' HP') as E'.
  split; [exact E |]. split; [apply NoiseFacts.shuffled_length |].
  split; [apply NoiseFacts.shuffled_bytes |]. split; [now rewrite E, E' |].
  intros x y z w octaves persistence lacunarity.
  unfold noiseSession, Noise.initNoise, Noise.fbmNoise.
  rewrite E, E'. repeat split.
Qed.

Lemma noise_is_deterministic_witness :
  Noise.initializePermutation 42 Noise.P_initial
  = (Noise.shuffled 42 ++ Noise.shuffled 42)%list
  /\ Noise.initializePermutation 42 (repeat 7 512)
     = Noise.initializePermutation 42 Noise.P_initial.
Proof.
  destruct (noise_is_deterministic 42 Noise.P_initial (repeat 7 512) eq_refl eq_refl)
    as [H1 [_ [_ [H2 _]]]].
  split; [exact H1 | exact H2].
Defined.

(** ** Noise: the range of the values *)

Module NoiseBounds.
Import Noise.
Local Open Scope Q_scope.

Lemma frac_range (x : Q) : 0 <= x - inject_Z (Qfloor x) <= 1.
Proof.
  pose proof (Qfloor_le x) as H1. pose proof (Qlt_floor x) as H2.
  rewrite inject_Z_plus in H2. change (inject_Z 1) with 1 in H2. lra.
Qed.

Lemma fade_range (t : Q) : 0 <= t <= 1 -> 0 <= fade t <= 1.
Proof.
  intros [H0 H1]. unfold fade. split.
  - assert (A : 0 <= t * t * t) by (repeat apply Qmult_le_0_compat; exact H0).
    assert (B : 0 <= t * (t * 6 - 15) + 10) by nra.
    apply Qmult_le_0_compat; assumption.
  - assert (E : t * t * t * (t * (t * 6 - 15) + 10)
                == 1 - (1 - t) * (1 - t) * (1 - t) * (t * (t * 6 + 3) + 1)) by ring.
    rewrite E.
    assert (A : 0 <= (1 - t) * (1 - t) * (1 - t))
      by (repeat apply Qmult_le_0_compat; lra).
    assert (B : 0 <= t * (t * 6 + 3) + 1) by nra.
    pose proof (Qmult_le_0_compat _ _ A B). lra.
Qed.

Lemma lerp_range (t a b B : Q) :
  0 <= t <= 1 -> - B <= a <= B -> - B <= b <= B -> - B <= lerp t a b <= B.
Proof.
  intros [H0 H1] [La Ua] [Lb Ub]. unfold lerp.
  assert (E : a + t * (b - a) == (1 - t) * a + t * b) by ring. rewrite E.
  split; nra.
Qed.

Lemma grad_range (h : Z) (x y z w : Q) :
  - (1) <= x <= 1 -> - (1) <= y <= 1 -> - (1) <= z <= 1 -> - (1) <= w <= 1 ->
  - (3) <= grad h x y z w <= 3.
Proof.
  intros Hx Hy Hz Hw. unfold grad. cbv zeta.
  destruct (Z.land h 15 <? 8)%Z, (Z.land h 15 <? 4)%Z,
    ((Z.land h 15 =? 12)%Z || (Z.land h 15 =? 14)%Z),
    (Z.land (Z.land h 15) 1 =? 0)%Z, (Z.land (Z.land h 15) 2 =? 0)%Z,
    (Z.land (Z.land h 15) 4 =? 0)%Z; lra.
Qed.

Lemma perlin4D_range (P : list Z) (x y z w : Q) : - (3) <= perlin4D P x y z w <= 3.
Proof.
  unfold perlin4D. cbv zeta.
  pose proof (frac_range x) as Fx. pose proof (frac_range y) as Fy.
  pose proof (frac_range z) as Fz. pose proof (frac_range w) as Fw.
  pose proof (fade_range _ Fx) as Ux. pose proof (fade_range _ Fy) as Uy.
  pose proof (fade_range _ Fz) as Uz. pose proof (fade_range _ Fw) as Uw.
  repeat (apply lerp_range; [assumption | |]);
    apply grad_range; lra.
Qed.

End NoiseBounds.

Module FbmBounds.
Import Noise.
Local Open Scope Q_scope.

(** The loop keeps the sum of the samples within [B] times the sum of the
    amplitudes, as long as the amplitudes are not negative. *)
Lemma fbmLoop_invariant (P : list Z) (x y z w persistence lacunarity B : Q) (steps : nat) :
  0 <= persistence ->
  (forall a b c d, - B <= perlin4D P a b c d <= B) ->
  forall st : fbmState,
    0 <= amplitude st ->
    - (B * maxValue st) <= value st <= B * maxValue st ->
    let final := fbmLoop P x y z w persistence lacunarity steps st in
    maxValue st <= maxValue final
    /\ - (B * maxValue final) <= value final <= B * maxValue final.
Proof.
  intros Hp Hb. induction steps as [| steps IH]; intros st Ha Hv; simpl.
  - split; [lra | exact Hv].
  - match goal with
    | |- context [fbmLoop _ _ _ _ _ _ _ _ ?st'] =>
        destruct (IH st') as [M V]; cbn [amplitude value maxValue]
    end.
    + apply Qmult_le_0_compat; assumption.
    + specialize (Hb (x * frequency st) (y * frequency st)
                     (z * frequency st) (w * frequency st)).
      destruct Hb as [L U]. destruct Hv as [Lv Uv].
      split; nra.
    + cbn [maxValue] in M. split; [lra | exact V].
Qed.

(** With at least one octave and a persistence that is not negative,
    [fbmNoise] returns the amplitude-weighted mean of its samples: a finite
    number within every bound of the samples, in particular within 3. *)
Lemma fbmValue_bounded (P : list Z) (x y z w octaves persistence lacunarity B : Q) :
  1 <= octaves ->
  0 <= persistence ->
  (forall a b c d, - B <= perlin4D P a b c d <= B) ->
  exists r, fbmValue P x y z w octaves persistence lacunarity = Num r /\ - B <= r <= B.
Proof.
  intros Ho Hp Hb. unfold fbmValue, iterations.
  assert (N : exists n, Z.to_nat (Qceiling octaves) = S n).
  { assert (1 <= Qceiling octaves)%Z.
    { change 1%Z with (Qceiling 1). now apply Qceiling_resp_le. }
    exists (Z.to_nat (Qceiling octaves - 1)). lia. }
  destruct N as [n ->]. cbv zeta. simpl fbmLoop.
  match goal with
  | |- context [fbmLoop _ _ _ _ _ _ _ _ ?st'] =>
      destruct (fbmLoop_invariant P x y z w persistence lacunarity B n Hp Hb st')
        as [M [L U]]; cbn [amplitude value maxValue] in *
  end.
  - lra.
  - specialize (Hb (x * 1) (y * 1) (z * 1) (w * 1)). destruct Hb. split; nra.
  - set (final := fbmLoop P x y z w persistence lacunarity n _) in *.
    assert (Pos : 0 < maxValue final) by lra.
    unfold Number_div.
    destruct (Qeq_bool (maxValue final) 0) eqn:E.
    + apply Qeq_bool_iff in E. lra.
    + eexists. split; [reflexivity |]. split.
      * apply Qle_shift_div_l; [exact Pos | lra].
      * apply Qle_shift_div_r; [exact Pos | lra].
Qed.

End FbmBounds.

(** C9. The noise leaves the range: after [initNoise(42)], a single octave
    at (81.875, 245.75, 192.5, 89.5) is 301897679/268435456, about 1.125;
    and with persistence -1 the two amplitudes cancel, so the division by
    the total amplitude gives an infinity. *)
Theorem fbm_leaves_unit_range :
  match Noise.fbmValue (Noise.initializePermutation 42 Noise.P_initial)
          (655 # 8) (983 # 4) (385 # 2) (179 # 2) 1 (1 # 2) 2 with
  | Num r => Qred r = (301897679 # 268435456)%Q /\ (1 < r)%Q
  | _ => False
  end
  /\ Noise.fbmValue (Noise.initializePermutation 42 Noise.P_initial)
       (1 # 4) (1 # 2) (3 # 4) (1 # 8) 2 (-1) 2 = NegInfinity.
Proof.
  split.
  - vm_compute. split; reflexivity.
  - vm_compute. reflexivity.
Qed.

(** * Further properties of the code *)

(** ** Save slots: failures *)

(** X1. Whatever the payload and the options, [deserializePlanetSave] fails
    only with one of the three save errors: a [SyntaxError] of the parser,
    the [Error] of an unsupported planet state version and the
    [RangeError] of an oversized grid are all converted. *)
Theorem save_failures_are_classified (rt : Runtime) (payload : unknown)
    (options : option SaveSlots.DeserializePlanetSaveOptions) (e : exn) :
  SaveSlots.deserializePlanetSave rt payload options = Throw e ->
  exists message,
    e = PlanetSaveCorruptedError message
    \/ e = PlanetSaveUnsupportedVersionError message
    \/ e = PlanetSaveIncompatibleError message.
Proof.
  intros H. apply parseSavePayload_errors in H.
  destruct e as [m | m | m | m | m | m | m]; try discriminate; exists m; tauto.
Qed.

Lemma save_failures_are_classified_witness :
  SaveSlots.deserializePlanetSave Reference.runtime oversizedSave None
  = Throw (PlanetSaveIncompatibleError "Invalid array length")
  /\ exists message,
       PlanetSaveIncompatibleError "Invalid array length" = PlanetSaveCorruptedError message
       \/ PlanetSaveIncompatibleError "Invalid array length"
          = PlanetSaveUnsupportedVersionError message
       \/ PlanetSaveIncompatibleError "Invalid array length"
          = PlanetSaveIncompatibleError message.
Proof.
  assert (H : SaveSlots.deserializePlanetSave Reference.runtime oversizedSave None
              = Throw (PlanetSaveIncompatibleError "Invalid array length"))
    by (vm_compute; reflexivity).
  split; [exact H |].
  exact (save_failures_are_classified Reference.runtime oversizedSave None _ H).
Defined.

(** Slot numbers that pass and that fail [assertValidSlotIndex]. *)
Lemma assertValidSlotIndex_denotes (rt : Runtime) (slot : number) (k : Z) :
  denotesSlot slot k -> SaveSlots.assertValidSlotIndex rt slot = Ok k.
Proof.
  destruct slot as [q | | |]; simpl; try tauto. intros [E [H0 H1]].
  unfold SaveSlots.assertValidSlotIndex, SaveSlots.Number_isInteger.
  assert (F : Qfloor q = k) by (rewrite E; apply Qfloor_Z).
  rewrite F.
  rewrite (proj2 (Qeq_bool_iff _ _) E).
  replace (Qltb q 0) with false
    by (symmetry; apply Qltb_ge; rewrite E; change 0%Q with (inject_Z 0);
        now rewrite <- Zle_Qle).
  replace (Qltb q (inject_Z SaveSlots.SAVE_SLOT_COUNT)) with true
    by (symmetry; apply Qltb_lt; rewrite E; now rewrite <- Zlt_Qlt).
  reflexivity.
Qed.

Lemma assertValidSlotIndex_rejects (rt : Runtime) (slot : number) :
  (forall k, ~ denotesSlot slot k) ->
  SaveSlots.assertValidSlotIndex rt slot
  = Throw (RangeError ("Invalid save slot index: " ++ Number_toString rt slot)).
Proof.
  intros H. unfold SaveSlots.assertValidSlotIndex.
  destruct slot as [q | | |]; try reflexivity.
  destruct (negb (SaveSlots.Number_isInteger (Num q)) || Qltb q 0
            || negb (Qltb q (inject_Z SaveSlots.SAVE_SLOT_COUNT))) eqn:C;
    [reflexivity | exfalso].
  apply orb_false_iff in C as [C C3]. apply orb_false_iff in C as [C1 C2].
  apply negb_false_iff in C1, C3. unfold SaveSlots.Number_isInteger in C1.
  apply Qeq_bool_iff in C1. apply Qltb_ge in C2. apply Qltb_lt in C3.
  apply (H (Qfloor q)). split; [exact C1 |].
  rewrite C1 in C2, C3. split.
  - rewrite Zle_Qle. exact C2.
  - rewrite Zlt_Qlt. exact C3.
Qed.

(** X2. A slot number that is not one of the integers 0, 1, 2 - a fraction,
    a negative number, 3 or more, [NaN], an infinity - makes saving, loading
    and clearing fail alike with the [RangeError] that names it, before the
    storage is read or written. *)
Theorem invalid_slot_is_rejected (rt : Runtime) (now : Z) (storage : Storage)
    (slot : number) (state : PlanetState)
    (options : option SaveSlots.SavePlanetStateOptions) :
  (forall k, ~ denotesSlot slot k) ->
  SaveSlots.savePlanetStateToSlot rt now storage slot state options
  = Throw (RangeError ("Invalid save slot index: " ++ Number_toString rt slot))
  /\ SaveSlots.loadPlanetSaveSlot rt storage slot
     = Throw (RangeError ("Invalid save slot index: " ++ Number_toString rt slot))
  /\ SaveSlots.clearPlanetSaveSlot rt storage slot
     = Throw (RangeError ("Invalid save slot index: " ++ Number_toString rt slot)).
Proof.
  intros H. pose proof (assertValidSlotIndex_rejects rt slot H) as E.
  unfold SaveSlots.savePlanetStateToSlot, SaveSlots.loadPlanetSaveSlot,
    SaveSlots.clearPlanetSaveSlot.
  rewrite E. repeat split.
Qed.

Lemma invalid_slot_is_rejected_witness :
  SaveSlots.savePlanetStateToSlot Reference.runtime 0 scenarioStorage (Num 1.5)
    createDefaultPlanetState None
  = Throw (RangeError ("Invalid save slot index: "
                         ++ Number_toString Reference.runtime (Num 1.5)))
  /\ SaveSlots.loadPlanetSaveSlot Reference.runtime scenarioStorage (Num 1.5)
     = Throw (RangeError ("Invalid save slot index: "
                            ++ Number_toString Reference.runtime (Num 1.5)))
  /\ SaveSlots.clearPlanetSaveSlot Reference.runtime scenarioStorage (Num 1.5)
     = Throw (RangeError ("Invalid save slot index: "
                            ++ Number_toString Reference.runtime (Num 1.5))).
Proof.
  apply invalid_slot_is_rejected.
  intros k [E _]. unfold Qeq in E. simpl in E. lia.
Defined.

(** ** Save slots: clearing, and what an operation leaves alone *)

Lemma getItem_removeItem (storage : Storage) (key : string) :
  getItem (removeItem storage key) key = None.
Proof. destruct storage; simpl; [apply lookup_delete_eq | reflexivity]. Qed.

(** X3. Clearing a valid slot always succeeds, whatever the slot held;
    afterwards loading it fails with the error of an empty slot and the
    listing summarizes it as empty under its default label. *)
Theorem clear_empties_the_slot (rt : Runtime) (storage : Storage) (k : Z) :
  0 <= k < SaveSlots.SAVE_SLOT_COUNT ->
  exists storage',
    SaveSlots.clearPlanetSaveSlot rt storage (Int k) = Ok storage'
    /\ SaveSlots.loadPlanetSaveSlot rt storage' (Int k)
       = Throw (PlanetSaveSlotEmptyError
                  ("Save slot " ++ Number_toString rt (Int (k + 1)) ++ " is empty"))
    /\ SaveSlots.summarizeSlot rt storage' k
       = Ok (SaveSlots.SummaryEmpty k (SaveSlots.defaultSlotLabel rt k)).
Proof.
  intros K. unfold SaveSlots.clearPlanetSaveSlot, SaveSlots.loadPlanetSaveSlot.
  rewrite (assertValidSlotIndex_Int rt k K). simpl bind.
  eexists. split; [reflexivity |]. split.
  - unfold SaveSlots.readSaveFromStorage. cbv zeta. now rewrite getItem_removeItem.
  - apply summarizeSlot_empty, getItem_removeItem.
Qed.

Lemma clear_empties_the_slot_witness :
  exists storage',
    SaveSlots.clearPlanetSaveSlot Reference.runtime scenarioStorage (Int 1) = Ok storage'
    /\ SaveSlots.loadPlanetSaveSlot Reference.runtime storage' (Int 1)
       = Throw (PlanetSaveSlotEmptyError
                  ("Save slot " ++ Number_toString Reference.runtime (Int (1 + 1))
                     ++ " is empty"))
    /\ SaveSlots.summarizeSlot Reference.runtime storage' 1
       = Ok (SaveSlots.SummaryEmpty 1 (SaveSlots.defaultSlotLabel Reference.runtime 1)).
Proof.
  apply clear_empties_the_slot. unfold SaveSlots.SAVE_SLOT_COUNT. lia.
Defined.

(** The keys of different slots differ. *)
Lemma getSlotKey_distinct (rt : Runtime) (L : RuntimeLaws rt) (j k : Z) :
  0 <= j < SaveSlots.SAVE_SLOT_COUNT -> 0 <= k < SaveSlots.SAVE_SLOT_COUNT -> j <> k ->
  SaveSlots.getSlotKey rt j <> SaveSlots.getSlotKey rt k.
Proof.
  unfold SaveSlots.SAVE_SLOT_COUNT, SaveSlots.getSlotKey. intros Hj Hk Hne.
  rewrite !(Number_toString_integer rt L) by lia.
  assert (C : (j = 0 \/ j = 1 \/ j = 2) /\ (k = 0 \/ k = 1 \/ k = 2)) by lia.
  destruct C as [[-> | [-> | ->]] [-> | [-> | ->]]];
    try contradiction; vm_compute; discriminate.
Qed.

Lemma getItem_setItem_other (storage : Storage) (key other value : string) :
  other <> key -> getItem (setItem storage key value) other = getItem storage other.
Proof.
  intros H. destruct storage; simpl; [now apply lookup_insert_ne | reflexivity].
Qed.

Lemma getItem_removeItem_other (storage : Storage) (key other : string) :
  other <> key -> getItem (removeItem storage key) other = getItem storage other.
Proof.
  intros H. destruct storage; simpl; [now apply lookup_delete_ne | reflexivity].
Qed.

Lemma savePlanetStateToSlot_storage (rt : Runtime) (now : Z) (storage storage' : Storage)
    (k : Z) (state : PlanetState) (options : option SaveSlots.SavePlanetStateOptions)
    (saved : SaveSlots.PlanetSave) :
  0 <= k < SaveSlots.SAVE_SLOT_COUNT ->
  SaveSlots.savePlanetStateToSlot rt now storage (Int k) state options = Ok (saved, storage') ->
  exists text, storage' = setItem storage (SaveSlots.getSlotKey rt k) text.
Proof.
  intros K. unfold SaveSlots.savePlanetStateToSlot.
  rewrite (assertValidSlotIndex_Int rt k K). simpl bind.
  destruct (SaveSlots.tryReadSaveFromStorage rt storage k) as [existing | e];
    [| discriminate].
  simpl bind.
  destruct (SaveSlots.Date_prototype_toISOString rt _) as [stamp | e]; [| discriminate].
  simpl bind. intros [= _ <-]. eexists. reflexivity.
Qed.

(** X4. Saving to a slot or clearing it leaves the other two slots as they
    were: their stored text, their summary in the listing and the result of
    loading them are unchanged. *)
Theorem other_slots_are_untouched (rt : Runtime) (L : RuntimeLaws rt) (now : Z)
    (storage storage' : Storage) (k j : Z) (state : PlanetState)
    (options : option SaveSlots.SavePlanetStateOptions) (saved : SaveSlots.PlanetSave) :
  0 <= k < SaveSlots.SAVE_SLOT_COUNT ->
  0 <= j < SaveSlots.SAVE_SLOT_COUNT ->
  j <> k ->
  SaveSlots.savePlanetStateToSlot rt now storage (Int k) state options = Ok (saved, storage')
  \/ SaveSlots.clearPlanetSaveSlot rt storage (Int k) = Ok storage' ->
  getItem storage' (SaveSlots.getSlotKey rt j) = getItem storage (SaveSlots.getSlotKey rt j)
  /\ SaveSlots.summarizeSlot rt storage' j = SaveSlots.summarizeSlot rt storage j
  /\ SaveSlots.loadPlanetSaveSlot rt storage' (Int j)
     = SaveSlots.loadPlanetSaveSlot rt storage (Int j).
Proof.
  intros K J Hne H.
  pose proof (getSlotKey_distinct rt L j k J K Hne) as D.
  assert (G : getItem storage' (SaveSlots.getSlotKey rt j)
              = getItem storage (SaveSlots.getSlotKey rt j)).
  { destruct H as [H | H].
    - destruct (savePlanetStateToSlot_storage rt now storage storage' k state options
                  saved K H) as [text ->].
      now apply getItem_setItem_other.
    - unfold SaveSlots.clearPlanetSaveSlot in H.
      rewrite (assertValidSlotIndex_Int rt k K) in H. simpl in H. injection H as <-.
      now apply getItem_removeItem_other. }
  split; [exact G |]. split.
  - unfold SaveSlots.summarizeSlot. cbv zeta. now rewrite G.
  - unfold SaveSlots.loadPlanetSaveSlot, SaveSlots.readSaveFromStorage.
    rewrite (assertValidSlotIndex_Int rt j J). simpl bind. cbv zeta. now rewrite G.
Qed.

Lemma other_slots_are_untouched_witness :
  getItem (removeItem scenarioStorage (SaveSlots.getSlotKey Reference.runtime 0))
    (SaveSlots.getSlotKey Reference.runtime 1)
  = getItem scenarioStorage (SaveSlots.getSlotKey Reference.runtime 1)
  /\ SaveSlots.summarizeSlot Reference.runtime
       (removeItem scenarioStorage (SaveSlots.getSlotKey Reference.runtime 0)) 1
     = SaveSlots.summarizeSlot Reference.runtime scenarioStorage 1
  /\ SaveSlots.loadPlanetSaveSlot Reference.runtime
       (removeItem scenarioStorage (SaveSlots.getSlotKey Reference.runtime 0)) (Int 1)
     = SaveSlots.loadPlanetSaveSlot Reference.runtime scenarioStorage (Int 1).
Proof.
  apply (other_slots_are_untouched Reference.runtime ReferenceLaws.laws 0 scenarioStorage
           (removeItem scenarioStorage (SaveSlots.getSlotKey Reference.runtime 0)) 0 1
           createDefaultPlanetState None
           {| SaveSlots.metadata :=
                {| SaveSlots.slot := 0; SaveSlots.label := "";
                   SaveSlots.createdAt := ""; SaveSlots.updatedAt := "" |};
              SaveSlots.planetStateVersion := 1;
              SaveSlots.planetState := createDefaultPlanetState |}).
  - unfold SaveSlots.SAVE_SLOT_COUNT. lia.
  - unfold SaveSlots.SAVE_SLOT_COUNT. lia.
  - lia.
  - right. reflexivity.
Defined.

(** ** Save slots: the listing *)

Lemma summarizeSlot_shape (rt : Runtime) (storage : Storage) (k : Z) :
  exists summary,
    SaveSlots.summarizeSlot rt storage k = Ok summary
    /\ summarySlot summary = k
    /\ (status summary = "empty" <-> getItem storage (SaveSlots.getSlotKey rt k) = None).
Proof.
  unfold SaveSlots.summarizeSlot. cbv zeta.
  destruct (getItem storage (SaveSlots.getSlotKey rt k)) as [raw |];
    [| eexists; split; [reflexivity | split; [reflexivity | tauto]]].
  destruct (SaveSlots.parseSavePayload rt (JString raw) _) as [save | e] eqn:E.
  - eexists. split; [reflexivity |]. split; [reflexivity |]. simpl. split; discriminate.
  - apply parseSavePayload_errors in E.
    destruct e; try discriminate;
      (eexists; split; [reflexivity |]; split; [reflexivity |]; simpl; split; discriminate).
Qed.

(** X5. For every storage and every runtime the listing succeeds with
    exactly three summaries, for the slots 0, 1 and 2 in this order; a slot
    is summarized as empty exactly when the storage holds nothing under
    its key. *)
Theorem listing_covers_every_slot (rt : Runtime) (storage : Storage) :
  exists s0 s1 s2,
    SaveSlots.listPlanetSaveSlots rt storage = Ok [s0; s1; s2]
    /\ summarySlot s0 = 0 /\ summarySlot s1 = 1 /\ summarySlot s2 = 2
    /\ (status s0 = "empty" <-> getItem storage (SaveSlots.getSlotKey rt 0) = None)
    /\ (status s1 = "empty" <-> getItem storage (SaveSlots.getSlotKey rt 1) = None)
    /\ (status s2 = "empty" <-> getItem storage (SaveSlots.getSlotKey rt 2) = None).
Proof.
  destruct (summarizeSlot_shape rt storage 0) as [s0 [E0 [K0 H0]]].
  destruct (summarizeSlot_shape rt storage 1) as [s1 [E1 [K1 H1]]].
  destruct (summarizeSlot_shape rt storage 2) as [s2 [E2 [K2 H2]]].
  exists s0, s1, s2. repeat split; try assumption; try tauto.
  unfold SaveSlots.listPlanetSaveSlots. simpl.
  change (0 + 1) with 1. change (1 + 1) with 2. now rewrite E0, E1, E2.
Qed.

(** ** Save slots: a storage that keeps nothing *)

(** X6. Without [localStorage] the module works on the storage that keeps
    nothing: saving to a valid slot still succeeds and returns a record with
    the given state whose two timestamps agree, but nothing is kept;
    loading the slot afterwards fails as for an empty slot, the listing is
    empty and no slot is the most recent one. *)
Theorem noop_storage_forgets_saves (rt : Runtime) (now : Z) (k : Z) (state : PlanetState)
    (options : option SaveSlots.SavePlanetStateOptions) :
  0 <= k < SaveSlots.SAVE_SLOT_COUNT ->
  match options with
  | Some o => SaveSlots.option_timestamp o <> Some None
  | None => True
  end ->
  exists saved,
    SaveSlots.savePlanetStateToSlot rt now NoopStorage (Int k) state options
    = Ok (saved, NoopStorage)
    /\ SaveSlots.planetState saved = state
    /\ SaveSlots.slot (SaveSlots.metadata saved) = k
    /\ SaveSlots.createdAt (SaveSlots.metadata saved)
       = SaveSlots.updatedAt (SaveSlots.metadata saved)
    /\ SaveSlots.loadPlanetSaveSlot rt NoopStorage (Int k)
       = Throw (PlanetSaveSlotEmptyError
                  ("Save slot " ++ Number_toString rt (Int (k + 1)) ++ " is empty"))
    /\ SaveSlots.listPlanetSaveSlots rt NoopStorage
       = Ok [SaveSlots.SummaryEmpty 0 (SaveSlots.defaultSlotLabel rt 0);
             SaveSlots.SummaryEmpty 1 (SaveSlots.defaultSlotLabel rt 1);
             SaveSlots.SummaryEmpty 2 (SaveSlots.defaultSlotLabel rt 2)]
    /\ SaveSlots.findMostRecentValidSaveSlot rt NoopStorage = Ok None.
Proof.
  intros K Hdate.
  unfold SaveSlots.savePlanetStateToSlot, SaveSlots.loadPlanetSaveSlot.
  rewrite (assertValidSlotIndex_Int rt k K). simpl bind.
  assert (T : exists stamp,
             SaveSlots.Date_prototype_toISOString rt
               match options with
               | Some o =>
                   match SaveSlots.option_timestamp o with
                   | Some d => d
                   | None => Some now
                   end
               | None => Some now
               end = Ok stamp).
  { destruct options as [[l [[t |] |]] |]; simpl in *;
      [now eexists | exfalso; now apply Hdate | now eexists | now eexists]. }
  destruct T as [stamp ->]. simpl bind.
  eexists. split; [reflexivity |]. repeat split.
Qed.

Lemma noop_storage_forgets_saves_witness :
  exists saved,
    SaveSlots.savePlanetStateToSlot Reference.runtime 1704186000000 NoopStorage (Int 2)
      smallPlanet None
    = Ok (saved, NoopStorage)
    /\ SaveSlots.planetState saved = smallPlanet
    /\ SaveSlots.slot (SaveSlots.metadata saved) = 2
    /\ SaveSlots.createdAt (SaveSlots.metadata saved)
       = SaveSlots.updatedAt (SaveSlots.metadata saved)
    /\ SaveSlots.loadPlanetSaveSlot Reference.runtime NoopStorage (Int 2)
       = Throw (PlanetSaveSlotEmptyError
                  ("Save slot " ++ Number_toString Reference.runtime (Int (2 + 1))
                     ++ " is empty"))
    /\ SaveSlots.listPlanetSaveSlots Reference.runtime NoopStorage
       = Ok [SaveSlots.SummaryEmpty 0 (SaveSlots.defaultSlotLabel Reference.runtime 0);
             SaveSlots.SummaryEmpty 1 (SaveSlots.defaultSlotLabel Reference.runtime 1);
             SaveSlots.SummaryEmpty 2 (SaveSlots.defaultSlotLabel Reference.runtime 2)]
    /\ SaveSlots.findMostRecentValidSaveSlot Reference.runtime NoopStorage = Ok None.
Proof.
  apply noop_storage_forgets_saves.
  - unfold SaveSlots.SAVE_SLOT_COUNT. lia.
  - exact I.
Defined.

(** ** Planet state: what deserialization guarantees *)

(** X7. Every state that [deserializePlanetState] returns, from whatever
    payload, is structurally valid: the gas list is not empty, names and
    identifiers are not blank, fractions lie in [0, 1], percentages in
    [0, 100], latitudes in [-90, 90], longitudes in [-180, 180], the tilt in
    [0, 90], populations, the greenhouse multiplier and the time are not
    negative, the year has at least one day, every other number is finite,
    and both grids have positive dimensions and as many entries as cells. *)
Theorem deserialized_state_is_valid (rt : Runtime) (payload : unknown) (s : PlanetState) :
  deserializePlanetState rt payload = Ok s -> PlanetState_valid s = true.
Proof. intros H. exact (proj1 (deserializePlanetState_canonical rt payload s H)). Qed.

Lemma deserialized_state_is_valid_witness :
  deserializePlanetState Reference.runtime untidyPayload = Ok smallPlanet
  /\ PlanetState_valid smallPlanet = true.
Proof.
  assert (H : deserializePlanetState Reference.runtime untidyPayload = Ok smallPlanet)
    by (vm_compute; reflexivity).
  split; [exact H |].
  exact (deserialized_state_is_valid Reference.runtime untidyPayload smallPlanet H).
Defined.

(** ** Save slots: what a record holds *)

Lemma length_substring0 (n : nat) (s : string) :
  String.length (substring 0 n s) = Nat.min n (String.length s).
Proof.
  revert s. induction n as [| n IH]; intros [| c s]; simpl; try reflexivity.
  now rewrite IH.
Qed.

Lemma startsVisible_trimStart (s : string) :
  trimStart s <> "" -> startsVisible (trimStart s) = true.
Proof.
  induction s as [| c s IH]; simpl; [congruence |].
  destruct (isWhiteSpace c) eqn:E; [exact IH |]. intros _. simpl. now rewrite E.
Qed.

Lemma startsVisible_trimEnd (s : string) :
  startsVisible s = true -> startsVisible (trimEnd s) = true.
Proof.
  destruct s as [| c s]; simpl; [discriminate |]. intros H.
  destruct (trimEnd s); [| exact H].
  apply negb_true_iff in H. rewrite H. simpl. now rewrite H.
Qed.

Lemma startsVisible_nonBlank (s : string) : startsVisible s = true -> nonBlank s = true.
Proof.
  intros H. unfold nonBlank, isBlank, trim.
  assert (T : trimStart s = s).
  { destruct s as [| c s]; [discriminate |]. simpl in *.
    apply negb_true_iff in H. now rewrite H. }
  rewrite T. apply startsVisible_trimEnd in H.
  destruct (trimEnd s); [discriminate | reflexivity].
Qed.

Lemma startsVisible_trim (s : string) : isBlank s = false -> startsVisible (trim s) = true.
Proof.
  unfold isBlank, trim. intros H. apply startsVisible_trimEnd, startsVisible_trimStart.
  intros E. rewrite E in H. discriminate.
Qed.

Lemma startsVisible_substring (n : nat) (s : string) :
  startsVisible s = true -> startsVisible (substring 0 (S n) s) = true.
Proof. destruct s; simpl; [discriminate | tauto]. Qed.

(** A label that [sanitizeLabel] returns is short and not blank. *)
Lemma sanitizeLabel_shape (value : unknown) (fallback : string) :
  startsVisible fallback = true ->
  startsVisible (SaveSlots.sanitizeLabel value fallback) = true
  /\ (String.length (SaveSlots.sanitizeLabel value fallback)
      <= SaveSlots.MAX_LABEL_LENGTH)%nat.
Proof.
  intros F. unfold SaveSlots.sanitizeLabel. cbv zeta.
  assert (V : startsVisible (SaveSlots.ensureString value fallback) = true).
  { unfold SaveSlots.ensureString. destruct value; try exact F.
    destruct (isBlank s) eqn:B; [exact F | now apply startsVisible_trim]. }
  set (label := SaveSlots.ensureString value fallback) in *.
  unfold SaveSlots.MAX_LABEL_LENGTH.
  destruct (Nat.ltb_spec 64 (String.length label)).
  - split; [now apply startsVisible_substring |]. rewrite length_substring0. lia.
  - split; [exact V | lia].
Qed.

Lemma startsVisible_defaultSlotLabel (rt : Runtime) (k : Z) :
  startsVisible (SaveSlots.defaultSlotLabel rt k) = true.
Proof. reflexivity. Qed.

(** X8. A record that [deserializePlanetSave] returns is well formed: its
    slot is 0, 1 or 2 and is the expected slot when one was given, its label
    is not blank and has at most 64 characters, its planet state version is
    the current one and its planet state is structurally valid. *)
Theorem deserialized_save_is_well_formed (rt : Runtime) (payload : unknown)
    (options : option SaveSlots.DeserializePlanetSaveOptions) (save : SaveSlots.PlanetSave) :
  SaveSlots.deserializePlanetSave rt payload options = Ok save ->
  0 <= SaveSlots.slot (SaveSlots.metadata save) < SaveSlots.SAVE_SLOT_COUNT
  /\ acceptsSlot options (SaveSlots.slot (SaveSlots.metadata save))
  /\ nonBlank (SaveSlots.label (SaveSlots.metadata save)) = true
  /\ (String.length (SaveSlots.label (SaveSlots.metadata save))
      <= SaveSlots.MAX_LABEL_LENGTH)%nat
  /\ SaveSlots.planetStateVersion save = PLANET_STATE_VERSION
  /\ PlanetState_valid (SaveSlots.planetState save) = true.
Proof.
  unfold SaveSlots.deserializePlanetSave.
  destruct (parseSavePayload_outcome rt payload options) as [[props ->] | [e' [-> H]]];
    [| discriminate].
  unfold SaveSlots.normalizePlanetSaveV1. cbv zeta.
  destruct (isRecord (prop "metadata" props)) as [md |]; [| discriminate].
  destruct (SaveSlots.ensureSlotIndex (prop "slot" md)) as [k |] eqn:Ek;
    [| destruct (match options with Some o => SaveSlots.expectedSlot o | None => None end);
       discriminate].
  destruct (match match options with Some o => SaveSlots.expectedSlot o | None => None end
            with
            | Some e0 => if SaveSlots.Number_differs (Int k) e0 then Some e0 else None
            | None => None
            end) eqn:Em; [discriminate |].
  destruct (negb (has_prop "planetStateVersion" props)); [discriminate |].
  destruct (SaveSlots.ensurePositiveInteger (prop "planetStateVersion" props)) as [v |];
    [| discriminate].
  destruct (PLANET_STATE_VERSION <? v); [discriminate |].
  destruct (negb (has_prop "planetState" props)); [discriminate |].
  destruct (deserializePlanetState rt (prop "planetState" props)) as [state |] eqn:Es;
    [| discriminate].
  intros [= <-].
  cbn [SaveSlots.metadata SaveSlots.slot SaveSlots.label SaveSlots.planetStateVersion
       SaveSlots.planetState].
  destruct (sanitizeLabel_shape (prop "label" md) (SaveSlots.defaultSlotLabel rt k)
              (startsVisible_defaultSlotLabel rt k)) as [LV LL].
  repeat split.
  - unfold SaveSlots.ensureSlotIndex in Ek.
    destruct (prop "slot" md) as [| | | [q | | |] | | |]; try discriminate.
    cbv zeta in Ek. destruct (Z.ltb_spec (Qfloor q) 0); [discriminate |].
    simpl in Ek. destruct (Z.leb_spec SaveSlots.SAVE_SLOT_COUNT (Qfloor q));
      [discriminate |]. injection Ek as <-. lia.
  - unfold SaveSlots.ensureSlotIndex in Ek.
    destruct (prop "slot" md) as [| | | [q | | |] | | |]; try discriminate.
    cbv zeta in Ek. destruct (Z.ltb_spec (Qfloor q) 0); [discriminate |].
    simpl in Ek. destruct (Z.leb_spec SaveSlots.SAVE_SLOT_COUNT (Qfloor q));
      [discriminate |]. injection Ek as <-. lia.
  - unfold acceptsSlot. destruct options as [[[e |]] |]; try exact I.
    cbn [SaveSlots.expectedSlot] in Em.
    destruct (SaveSlots.Number_differs (Int k) e); [discriminate | reflexivity].
  - now apply startsVisible_nonBlank.
  - exact LL.
  - exact (proj1 (deserializePlanetState_canonical rt _ _ Es)).
Qed.

Lemma deserialized_save_is_well_formed_witness :
  exists save,
    SaveSlots.deserializePlanetSave Reference.runtime (JObject (envelope JNull)) None
    = Ok save
    /\ 0 <= SaveSlots.slot (SaveSlots.metadata save) < SaveSlots.SAVE_SLOT_COUNT
    /\ nonBlank (SaveSlots.label (SaveSlots.metadata save)) = true
    /\ (String.length (SaveSlots.label (SaveSlots.metadata save))
        <= SaveSlots.MAX_LABEL_LENGTH)%nat
    /\ PlanetState_valid (SaveSlots.planetState save) = true.
Proof.
  destruct (SaveSlots.deserializePlanetSave Reference.runtime (JObject (envelope JNull)) None)
    as [save |] eqn:E; [| vm_compute in E; discriminate].
  exists save. split; [reflexivity |].
  destruct (deserialized_save_is_well_formed Reference.runtime _ None save E)
    as [H1 [_ [H3 [H4 [_ H6]]]]].
  repeat split; try assumption; apply H1.
Defined.

(** ** The developer menu *)

Lemma considerSummary_laterOf (rt : Runtime) (slots : list SaveSlots.PlanetSaveSlotSummary) :
  forall latest,
    fold_left (SaveSlots.considerSummary rt) slots (Some latest)
    = Some (fold_left (DevMenu.laterOf rt)
              (mapFilter SaveSlots.isPlanetSaveSlotAvailable slots) latest).
Proof.
  induction slots as [| summary rest IH]; intros latest; simpl; [reflexivity |].
  unfold SaveSlots.considerSummary at 2.
  destruct (SaveSlots.isPlanetSaveSlotAvailable summary) as [candidate |];
    [| apply IH].
  simpl fold_left. rewrite <- IH. f_equal. unfold DevMenu.laterOf. cbv zeta.
  destruct (Date_parse rt (SaveSlots.updatedAt (SaveSlots.available_metadata candidate)));
    [| reflexivity].
  destruct (Date_parse rt (SaveSlots.updatedAt (SaveSlots.available_metadata latest)));
    [| reflexivity].
  destruct (_ <? _); reflexivity.
Qed.

(** X9. The slot that the developer menu marks as most recent - a [reduce]
    over the available summaries of the listing - is the slot that
    [findMostRecentValidSaveSlot] returns, for every list of summaries and
    so for every storage. *)
Theorem dev_menu_agrees_on_most_recent (rt : Runtime) :
  (forall slots : list SaveSlots.PlanetSaveSlotSummary,
      DevMenu.mostRecentSlot rt slots = fold_left (SaveSlots.considerSummary rt) slots None)
  /\ (forall storage : Storage,
         SaveSlots.findMostRecentValidSaveSlot rt storage
         = let* slots := SaveSlots.listPlanetSaveSlots rt storage in
           Ok (DevMenu.mostRecentSlot rt slots)).
Proof.
  assert (G : forall slots : list SaveSlots.PlanetSaveSlotSummary,
             DevMenu.mostRecentSlot rt slots
             = fold_left (SaveSlots.considerSummary rt) slots None).
  { induction slots as [| summary rest IH]; [reflexivity |].
    unfold DevMenu.mostRecentSlot in *. simpl.
    unfold SaveSlots.considerSummary at 2.
    destruct (SaveSlots.isPlanetSaveSlotAvailable summary) as [first |]; [| exact IH].
    symmetry. apply considerSummary_laterOf. }
  split; [exact G |].
  intros storage. unfold SaveSlots.findMostRecentValidSaveSlot.
  destruct (SaveSlots.listPlanetSaveSlots rt storage) as [slots | e]; simpl;
    [now rewrite G | reflexivity].
Qed.

(** X10. When loading a slot fails, the message that the developer menu
    shows is one of four fixed texts, or - for a slot number that is not
    valid - the text of the [RangeError]; a parser message or the message of
    a planet state error is never shown. *)
Theorem load_failure_messages (rt : Runtime) (storage : Storage) (slot : number) (e : exn) :
  SaveSlots.loadPlanetSaveSlot rt storage slot = Throw e ->
  In (DevMenu.resolveErrorMessage e)
     [ "Save slot is empty.";
       "Save slot data is corrupted.";
       "Save format is not supported by this build.";
       "Saved planet state is incompatible with the current schema.";
       "Invalid save slot index: " ++ Number_toString rt slot ].
Proof.
  unfold SaveSlots.loadPlanetSaveSlot.
  destruct (SaveSlots.assertValidSlotIndex rt slot) as [k | e'] eqn:E; simpl bind.
  - unfold SaveSlots.readSaveFromStorage. cbv zeta.
    destruct (getItem storage (SaveSlots.getSlotKey rt k)) as [raw |].
    + intros H. apply parseSavePayload_errors in H.
      destruct e; try discriminate; simpl; tauto.
    + intros [= <-]. simpl. tauto.
  - intros [= <-]. unfold SaveSlots.assertValidSlotIndex in E.
    destruct slot as [q | | |];
      [destruct (negb (SaveSlots.Number_isInteger (Num q)) || Qltb q 0
                 || negb (Qltb q (inject_Z SaveSlots.SAVE_SLOT_COUNT)));
       [| discriminate] | | |];
      injection E as <-; simpl; tauto.
Qed.

Lemma load_failure_messages_witness :
  SaveSlots.loadPlanetSaveSlot Reference.runtime scenarioStorage (Int 0)
  = Throw (PlanetSaveCorruptedError "Save payload is not valid JSON")
  /\ In (DevMenu.resolveErrorMessage (PlanetSaveCorruptedError "Save payload is not valid JSON"))
        [ "Save slot is empty.";
          "Save slot data is corrupted.";
          "Save format is not supported by this build.";
          "Saved planet state is incompatible with the current schema.";
          "Invalid save slot index: " ++ Number_toString Reference.runtime (Int 0) ].
Proof.
  assert (H : SaveSlots.loadPlanetSaveSlot Reference.runtime scenarioStorage (Int 0)
              = Throw (PlanetSaveCorruptedError "Save payload is not valid JSON"))
    by (vm_compute; reflexivity).
  split; [exact H |].
  exact (load_failure_messages Reference.runtime scenarioStorage (Int 0) _ H).
Defined.

(** ** Save slots: overwriting *)

(** Reading back a record whose timestamps are canonical. *)
Lemma read_serialized (rt : Runtime) (L : RuntimeLaws rt) (s : PlanetState)
    (m : SaveSlots.PlanetSaveMetadata) (c u : Z) :
  normalizePlanetStateV1 (PlanetState_props s) = Ok s ->
  0 <= SaveSlots.slot m < SaveSlots.SAVE_SLOT_COUNT ->
  valid_time c -> valid_time u ->
  SaveSlots.createdAt m = Date_toISOString rt c ->
  SaveSlots.updatedAt m = Date_toISOString rt u ->
  SaveSlots.parseSavePayload rt
    (JString (JSON_stringify rt (SaveSlots.buildSerializedSavePayload s m)))
    (Some {| SaveSlots.expectedSlot := Some (Int (SaveSlots.slot m)) |})
  = Ok {| SaveSlots.metadata :=
            {| SaveSlots.slot := SaveSlots.slot m;
               SaveSlots.label :=
                 SaveSlots.sanitizeLabel (JString (SaveSlots.label m))
                   (SaveSlots.defaultSlotLabel rt (SaveSlots.slot m));
               SaveSlots.createdAt := Date_toISOString rt c;
               SaveSlots.updatedAt := Date_toISOString rt (Z.max c u) |};
          SaveSlots.planetStateVersion := PLANET_STATE_VERSION;
          SaveSlots.planetState := s |}.
Proof.
  intros C K Vc Vu Hc Hu.
  assert (V : PlanetState_valid s = true) by (eapply normalizePlanetStateV1_valid; exact C).
  pose proof (JSON_parse_stringify rt L _ (buildSerializedSavePayload_clean s m V)) as P.
  unfold SaveSlots.buildSerializedSavePayload in P at 2.
  rewrite (parseSavePayload_text rt _ _ _ P).
  rewrite parseSavePayload_current by reflexivity.
  unfold SaveSlots.normalizePlanetSaveV1.
  cbn [prop has_prop String.eqb Ascii.eqb Bool.eqb orb negb isRecord
       SaveSlots.PlanetSaveMetadata_toValue SaveSlots.expectedSlot].
  cbv zeta.
  rewrite (ensureSlotIndex_Int _ K), Number_differs_Int.
  unfold SaveSlots.ensureISODate, SaveSlots.ISO_EPOCH. rewrite Hc, Hu.
  rewrite !(Date_parse_toISOString rt L) by assumption.
  change (SaveSlots.ensurePositiveInteger (JNumber (Int (version s)))) with (Some 1).
  cbv iota. change (PLANET_STATE_VERSION <? 1) with false. cbv iota.
  change (deserializePlanetState rt (PlanetState_toValue s))
    with (normalizePlanetStateV1 (PlanetState_props s)).
  rewrite C. unfold version. do 3 f_equal.
  destruct (Z.ltb_spec u c); f_equal; lia.
Qed.

(** What a save to a valid slot with a valid date returns and writes. *)
Lemma savePlanetStateToSlot_outcome (rt : Runtime) (L : RuntimeLaws rt) (storage : Storage)
    (now k : Z) (s : PlanetState) (options : option SaveSlots.SavePlanetStateOptions)
    (t : Z) :
  0 <= k < SaveSlots.SAVE_SLOT_COUNT ->
  chosenTimestamp now options = Some t ->
  valid_time t ->
  exists (c : Z) (saved : SaveSlots.PlanetSave),
    SaveSlots.savePlanetStateToSlot rt now storage (Int k) s options
    = Ok (saved,
          setItem storage (SaveSlots.getSlotKey rt k)
            (JSON_stringify rt
               (SaveSlots.buildSerializedSavePayload s (SaveSlots.metadata saved))))
    /\ valid_time c
    /\ SaveSlots.planetState saved = s
    /\ SaveSlots.slot (SaveSlots.metadata saved) = k
    /\ SaveSlots.createdAt (SaveSlots.metadata saved) = Date_toISOString rt c
    /\ SaveSlots.updatedAt (SaveSlots.metadata saved) = Date_toISOString rt t
    /\ (forall e, SaveSlots.readSaveFromStorage rt storage k = Ok e ->
                  SaveSlots.createdAt (SaveSlots.metadata saved)
                  = SaveSlots.createdAt (SaveSlots.metadata e))
    /\ (getItem storage (SaveSlots.getSlotKey rt k) = None -> c = t).
Proof.
  intros K Ht Vt. unfold SaveSlots.savePlanetStateToSlot.
  rewrite (assertValidSlotIndex_Int rt k K). simpl bind.
  fold (chosenTimestamp now options). rewrite Ht.
  unfold SaveSlots.tryReadSaveFromStorage.
  destruct (SaveSlots.readSaveFromStorage rt storage k) as [e | err] eqn:R.
  - simpl bind.
    assert (T : exists c, valid_time c
                          /\ SaveSlots.createdAt (SaveSlots.metadata e)
                             = Date_toISOString rt c).
    { unfold SaveSlots.readSaveFromStorage in R. cbv zeta in R.
      destruct (getItem storage (SaveSlots.getSlotKey rt k)) as [raw |]; [| discriminate].
      destruct (parseSavePayload_times rt L _ _ _ R) as [c [u [Vc [_ [_ [Hc _]]]]]].
      now exists c. }
    destruct T as [c [Vc Hc]].
    exists c.
    match goal with |- exists saved, Ok (?x, _) = _ /\ _ => exists x end.
    split; [reflexivity |].
    cbn [SaveSlots.metadata SaveSlots.planetState SaveSlots.slot SaveSlots.createdAt
         SaveSlots.updatedAt].
    repeat split; try assumption.
    + now intros e' [= <-].
    + intros G. unfold SaveSlots.readSaveFromStorage in R. cbv zeta in R.
      rewrite G in R. discriminate.
  - assert (N : (let* existing :=
                   match err with
                   | PlanetSaveSlotEmptyError _ | PlanetSaveCorruptedError _
                   | PlanetSaveUnsupportedVersionError _
                   | PlanetSaveIncompatibleError _ => Ok None
                   | _ => Throw err
                   end in Ok existing)
                = Ok (@None SaveSlots.PlanetSave)).
    { unfold SaveSlots.readSaveFromStorage in R. cbv zeta in R.
      destruct (getItem storage (SaveSlots.getSlotKey rt k)) as [raw |].
      - apply parseSavePayload_errors in R. destruct err; try discriminate; reflexivity.
      - injection R as <-. reflexivity. }
    destruct err; try discriminate N; simpl bind;
      (exists t;
       match goal with |- exists saved, Ok (?x, _) = _ /\ _ => exists x end;
       split; [reflexivity |];
       cbn [SaveSlots.metadata SaveSlots.planetState SaveSlots.slot SaveSlots.createdAt
            SaveSlots.updatedAt];
       repeat split; try assumption; try discriminate; reflexivity).
Qed.



(** The summary of a slot that holds a record with canonical timestamps. *)
Lemma summarizeSlot_saved (rt : Runtime) (L : RuntimeLaws rt) (storage : Storage)
    (s : PlanetState) (m : SaveSlots.PlanetSaveMetadata) (c u : Z) :
  normalizePlanetStateV1 (PlanetState_props s) = Ok s ->
  0 <= SaveSlots.slot m < SaveSlots.SAVE_SLOT_COUNT ->
  valid_time c -> valid_time u ->
  SaveSlots.createdAt m = Date_toISOString rt c ->
  SaveSlots.updatedAt m = Date_toISOString rt u ->
  getItem storage (SaveSlots.getSlotKey rt (SaveSlots.slot m))
  = Some (JSON_stringify rt (SaveSlots.buildSerializedSavePayload s m)) ->
  exists a,
    SaveSlots.summarizeSlot rt storage (SaveSlots.slot m) = Ok (SaveSlots.SummaryAvailable a)
    /\ SaveSlots.available_slot a = SaveSlots.slot m
    /\ SaveSlots.updatedAt (SaveSlots.available_metadata a)
       = Date_toISOString rt (Z.max c u).
Proof.
  intros C K Vc Vu Hc Hu G.
  eexists. split; [| split].
  - eapply summarizeSlot_available; [exact G |].
    exact (read_serialized rt L s m c u C K Vc Vu Hc Hu).
  - reflexivity.
  - reflexivity.
Qed.

Lemma valid_time_max (a b : Z) : valid_time a -> valid_time b -> valid_time (Z.max a b).
Proof. unfold valid_time. lia. Qed.



(** ** Noise: the shuffle *)

Module ShuffleFacts.
Import Noise.
Local Open Scope Q_scope.

(** The remainder of a number that is not negative by a positive one. *)
Lemma Qrem_range (a b : Q) : 0 <= a -> 0 < b -> 0 <= Qrem a b < b.
Proof.
  intros Ha Hb. unfold Qrem, Qtrunc.
  assert (D : 0 <= a / b) by (apply Qle_shift_div_l; [exact Hb | lra]).
  replace (Qltb (a / b) 0) with false by (symmetry; now apply Qltb_ge).
  pose proof (Qfloor_le (a / b)) as F1. pose proof (Qlt_floor (a / b)) as F2.
  rewrite inject_Z_plus in F2. change (inject_Z 1) with 1 in F2.
  set (f := inject_Z (Qfloor (a / b))) in *.
  assert (E : a == a / b * b) by (field; lra).
  split.
  - assert (f * b <= a / b * b) by (apply Qmult_le_compat_r; lra). lra.
  - assert (a / b * b < (f + 1) * b) by (apply Qmult_lt_compat_r; lra). lra.
Qed.

(** The index that a step of the shuffle draws lies in [0 .. i]. *)
Lemma drawn_index (state : Q) (i : Z) :
  0 <= state < 233280 -> (0 <= i)%Z ->
  (0 <= Qfloor (state / 233280 * inject_Z (i + 1)) <= i)%Z.
Proof.
  intros [H0 H1] Hi.
  assert (I : 0 < inject_Z (i + 1)).
  { change 0 with (inject_Z 0). rewrite <- Zlt_Qlt. lia. }
  assert (D0 : 0 <= state / 233280) by (apply Qle_shift_div_l; lra).
  assert (D1 : state / 233280 < 1) by (apply Qlt_shift_div_r; lra).
  set (d := state / 233280) in *. set (n := inject_Z (i + 1)) in *.
  assert (L : 0 <= d * n) by (apply Qmult_le_0_compat; lra).
  assert (U : d * n < n).
  { assert (d * n < 1 * n) by (apply Qmult_lt_compat_r; lra). lra. }
  split.
  - change 0%Z with (Qfloor 0). now apply Qfloor_resp_le.
  - assert (Qfloor (d * n) < i + 1)%Z; [| lia].
    rewrite Zlt_Qlt. fold n.
    pose proof (Qfloor_le (d * n)). lra.
Qed.

(** Exchanging two entries of a table of bytes permutes it. *)
Lemma swap_permutation (table : list Z) (i j : Z) :
  bytes table ->
  (0 <= i < Z.of_nat (List.length table))%Z ->
  (0 <= j < Z.of_nat (List.length table))%Z ->
  Permutation
    (Uint8_set (Uint8_set table i (Uint8_get table j)) j (Uint8_get table i)) table.
Proof.
  intros Hb Hi Hj. unfold Uint8_set, Uint8_get.
  destruct (Z.ltb_spec i 0); [lia |]. destruct (Z.ltb_spec j 0); [lia |].
  destruct (lookup_lt_is_Some_2 table (Z.to_nat i)) as [x Ex]; [lia |].
  destruct (lookup_lt_is_Some_2 table (Z.to_nat j)) as [y Ey]; [lia |].
  rewrite Ex, Ey.
  unfold bytes in Hb. rewrite Forall_lookup in Hb.
  rewrite !Z.mod_small by eauto.
  apply Permutation_inj. split; [now rewrite !length_insert |].
  exists (fun k => if decide (k = Z.to_nat j) then Z.to_nat i
                   else if decide (k = Z.to_nat i) then Z.to_nat j else k).
  split.
  - intros a b. repeat case_decide; intros; subst; congruence.
  - intros k. repeat case_decide; subst.
    + rewrite list_lookup_insert_eq by (rewrite length_insert; lia). now rewrite Ex.
    + rewrite list_lookup_insert_ne by congruence.
      rewrite list_lookup_insert_eq by lia. now rewrite Ey.
    + now rewrite !list_lookup_insert_ne by congruence.
Qed.

Lemma shuffleLoop_permutation (steps : nat) :
  forall (i : Z) (state : Q) (table : list Z),
    0 <= state ->
    (Z.of_nat steps <= i < Z.of_nat (List.length table))%Z ->
    bytes table ->
    Permutation (shuffleLoop steps i state table) table.
Proof.
  induction steps as [| steps IH]; intros i state table Hs Hi Hb; cbn [shuffleLoop];
    [reflexivity |].
  assert (R : 0 <= Qrem (state * 9301 + 49297) 233280 < 233280).
  { apply Qrem_range; [| reflexivity].
    assert (0 <= state * 9301) by (apply Qmult_le_0_compat; lra). lra. }
  pose proof (drawn_index _ i R ltac:(lia)) as J.
  set (state' := Qrem (state * 9301 + 49297) 233280) in *.
  set (j := Qfloor (state' / 233280 * inject_Z (i + 1))) in *.
  etransitivity; [apply IH |].
  - apply R.
  - rewrite !NoiseFacts.Uint8_set_length. lia.
  - now apply NoiseFacts.Uint8_set_bytes, NoiseFacts.Uint8_set_bytes.
  - apply swap_permutation; [exact Hb | lia | lia].
Qed.

End ShuffleFacts.



(** ** Noise: values *)

Module PerlinFacts.
Import Noise.
Local Open Scope Q_scope.

Lemma fade_comp (t t' : Q) : t == t' -> fade t == fade t'.
Proof. intros E. unfold fade. now rewrite E. Qed.

Lemma lerp_comp (t t' a a' b b' : Q) :
  t == t' -> a == a' -> b == b' -> lerp t a b == lerp t' a' b'.
Proof. intros Et Ea Eb. unfold lerp. now rewrite Et, Ea, Eb. Qed.

Lemma grad_comp (h : Z) (x x' y y' z z' w w' : Q) :
  x == x' -> y == y' -> z == z' -> w == w' -> grad h x y z w == grad h x' y' z' w'.
Proof.
  intros Ex Ey Ez Ew. unfold grad. cbv zeta.
  destruct (Z.land h 15 <? 8)%Z, (Z.land h 15 <? 4)%Z,
    ((Z.land h 15 =? 12)%Z || (Z.land h 15 =? 14)%Z),
    (Z.land (Z.land h 15) 1 =? 0)%Z, (Z.land (Z.land h 15) 2 =? 0)%Z,
    (Z.land (Z.land h 15) 4 =? 0)%Z; rewrite ?Ex, ?Ey, ?Ez, ?Ew; reflexivity.
Qed.

(** Equal rationals give equal noise, whatever fractions denote them. *)
Lemma perlin4D_comp (P : list Z) (x x' y y' z z' w w' : Q) :
  x == x' -> y == y' -> z == z' -> w == w' ->
  perlin4D P x y z w == perlin4D P x' y' z' w'.
Proof.
  intros Ex Ey Ez Ew. unfold perlin4D. cbv zeta.
  rewrite (Qfloor_comp x x' Ex), (Qfloor_comp y y' Ey),
    (Qfloor_comp z z' Ez), (Qfloor_comp w w' Ew).
  repeat (apply lerp_comp; [apply fade_comp; now rewrite ?Ex, ?Ey, ?Ez, ?Ew | |]);
    apply grad_comp; rewrite ?Ex, ?Ey, ?Ez, ?Ew; reflexivity.
Qed.

Lemma fade_zero (t : Q) : t == 0 -> fade t == 0.
Proof. intros E. unfold fade. rewrite E. ring. Qed.

Lemma lerp_zero (t a b : Q) : t == 0 -> lerp t a b == a.
Proof. intros E. unfold lerp. rewrite E. ring. Qed.

Lemma grad_origin (h : Z) (x y z w : Q) :
  x == 0 -> y == 0 -> z == 0 -> w == 0 -> grad h x y z w == 0.
Proof.
  intros Ex Ey Ez Ew. unfold grad. cbv zeta.
  destruct (Z.land h 15 <? 8)%Z, (Z.land h 15 <? 4)%Z,
    ((Z.land h 15 =? 12)%Z || (Z.land h 15 =? 14)%Z),
    (Z.land (Z.land h 15) 1 =? 0)%Z, (Z.land (Z.land h 15) 2 =? 0)%Z,
    (Z.land (Z.land h 15) 4 =? 0)%Z; rewrite ?Ex, ?Ey, ?Ez, ?Ew; ring.
Qed.

Lemma perlin4D_lattice (P : list Z) (a b c d : Z) :
  perlin4D P (inject_Z a) (inject_Z b) (inject_Z c) (inject_Z d) == 0.
Proof.
  unfold perlin4D. cbv zeta. rewrite !Qfloor_Z.
  rewrite !lerp_zero by (apply fade_zero; ring).
  apply grad_origin; ring.
Qed.

(** On integer coordinates and with an integer lacunarity the loop of
    [fbmNoise] only adds zeros. *)
Lemma fbmLoop_lattice (P : list Z) (a b c d l : Z) (persistence : Q) (steps : nat) :
  forall st : fbmState,
    (exists f : Z, frequency st == inject_Z f) ->
    value st == 0 ->
    value (fbmLoop P (inject_Z a) (inject_Z b) (inject_Z c) (inject_Z d)
             persistence (inject_Z l) steps st) == 0.
Proof.
  induction steps as [| steps IH]; intros st [f Hf] Hv; cbn [fbmLoop]; [exact Hv |].
  apply IH; cbn [frequency value].
  - exists (f * l)%Z. rewrite Hf, inject_Z_mult. reflexivity.
  - rewrite Hv.
    rewrite (perlin4D_comp P _ (inject_Z (a * f)) _ (inject_Z (b * f))
               _ (inject_Z (c * f)) _ (inject_Z (d * f)))
      by (rewrite Hf, inject_Z_mult; reflexivity).
    rewrite perlin4D_lattice. ring.
Qed.

End PerlinFacts.

(** X14. The noise vanishes on the integer lattice: [perlin4D] is 0 at
    every point with integer coordinates, whatever the permutation table
    holds; so [fbmNoise] on integer coordinates with an integer lacunarity is
    0 - or [NaN], when the amplitudes sum to zero - for every octave count
    and persistence. *)
Theorem noise_vanishes_on_the_lattice (P : list Z) (a b c d : Z) :
  (Noise.perlin4D P (inject_Z a) (inject_Z b) (inject_Z c) (inject_Z d) == 0)%Q
  /\ forall (l : Z) (octaves persistence : Q),
       match Noise.fbmValue P (inject_Z a) (inject_Z b) (inject_Z c) (inject_Z d)
               octaves persistence (inject_Z l) with
       | Num r => (r == 0)%Q
       | NaN => True
       | _ => False
       end.
Proof.
  split; [apply PerlinFacts.perlin4D_lattice |].
  intros l octaves persistence. unfold Noise.fbmValue. cbv zeta.
  match goal with
  | |- context [Noise.fbmLoop _ _ _ _ _ _ _ ?n ?st] =>
      pose proof (PerlinFacts.fbmLoop_lattice P a b c d l persistence n st) as H;
      set (final := Noise.fbmLoop P (inject_Z a) (inject_Z b) (inject_Z c) (inject_Z d)
                      persistence (inject_Z l) n st) in *
  end.
  assert (V : (Noise.value final == 0)%Q).
  { apply H; [exists 1; reflexivity | reflexivity]. }
  unfold Noise.Number_div.
  destruct (Qeq_bool (Noise.maxValue final) 0).
  - replace (Qltb 0 (Noise.value final)) with false
      by (symmetry; apply Qltb_ge; rewrite V; apply Qle_refl).
    replace (Qltb (Noise.value final) 0) with false
      by (symmetry; apply Qltb_ge; rewrite V; apply Qle_refl).
    exact I.
  - rewrite V. reflexivity.
Qed.

(** X15. Whatever the table and the point, [perlin4D] lies between -3 and
    3: a gradient adds three of the four offsets, each between -1 and 1, and
    the interpolation weights lie between 0 and 1. *)
Theorem perlin_stays_within_three (P : list Z) (x y z w : Q) :
  (- (3) <= Noise.perlin4D P x y z w <= 3)%Q.
Proof. apply NoiseBounds.perlin4D_range. Qed.

(** The weighted mean of samples within 3 is within 3. *)
Lemma fbmValue_within_three (P : list Z) (x y z w octaves persistence lacunarity : Q) :
  (0 < octaves)%Q ->
  (0 <= persistence)%Q ->
  exists r : Q,
    Noise.fbmValue P x y z w octaves persistence lacunarity = Num r
    /\ (- (3) <= r <= 3)%Q.
Proof.
  intros Ho Hp. unfold Noise.fbmValue, Noise.iterations.
  assert (N : exists n, Z.to_nat (Qceiling octaves) = S n).
  { assert (0 < Qceiling octaves).
    { rewrite Zlt_Qlt. eapply Qlt_le_trans; [exact Ho | apply Qle_ceiling]. }
    exists (Z.to_nat (Qceiling octaves - 1)). lia. }
  destruct N as [n ->]. cbv zeta. cbn [Noise.fbmLoop].
  match goal with
  | |- context [Noise.fbmLoop _ _ _ _ _ _ _ _ ?st'] =>
      destruct (FbmBounds.fbmLoop_invariant P x y z w persistence lacunarity 3 n Hp
                  (NoiseBounds.perlin4D_range P) st')
        as [M [L U]];
      cbn [Noise.amplitude Noise.value Noise.maxValue Noise.frequency] in *
  end.
  - lra.
  - pose proof (NoiseBounds.perlin4D_range P (x * 1) (y * 1) (z * 1) (w * 1)) as [? ?].
    split; nra.
  - set (final := Noise.fbmLoop P x y z w persistence lacunarity n _) in *.
    assert (Pos : (0 < Noise.maxValue final)%Q) by lra.
    unfold Noise.Number_div.
    destruct (Qeq_bool (Noise.maxValue final) 0) eqn:E.
    + apply Qeq_bool_iff in E. lra.
    + eexists. split; [reflexivity |]. split.
      * apply Qle_shift_div_l; [exact Pos | lra].
      * apply Qle_shift_div_r; [exact Pos | lra].
Qed.




(** X17. With at most one octave the loop of [fbmNoise] runs once or not
    at all: for an octave count of 0 or less the result is [NaN], the
    quotient of two zeros; for a count in (0, 1] it is [perlin4D] at the
    point itself, whatever the persistence and the lacunarity. *)
Theorem fbm_with_at_most_one_octave (P : list Z)
    (x y z w octaves persistence lacunarity : Q) :
  (octaves <= 1)%Q ->
  match Noise.fbmValue P x y z w octaves persistence lacunarity with
  | NaN => (octaves <= 0)%Q
  | Num r => (0 < octaves)%Q /\ (r == Noise.perlin4D P x y z w)%Q
  | _ => False
  end.
Proof.
  intros H1. unfold Noise.fbmValue, Noise.iterations. cbv zeta.
  assert (C : Qceiling octaves <= 1).
  { change 1 with (Qceiling 1). now apply Qceiling_resp_le. }
  destruct (Z_le_gt_dec (Qceiling octaves) 0) as [Le | Gt].
  - replace (Z.to_nat (Qceiling octaves)) with O by lia. simpl.
    eapply Qle_trans; [apply Qle_ceiling |].
    change 0%Q with (inject_Z 0). now rewrite <- Zle_Qle.
  - replace (Z.to_nat (Qceiling octaves)) with 1%nat by lia.
    cbn [Noise.fbmLoop Noise.value Noise.maxValue Noise.amplitude Noise.frequency].
    unfold Noise.Number_div.
    replace (Qeq_bool (0 + 1) 0) with false by reflexivity.
    split.
    + apply Qnot_le_lt. intros Hle.
      assert (Qceiling octaves <= 0); [| lia].
      change 0 with (Qceiling 0). now apply Qceiling_resp_le.
    + rewrite (PerlinFacts.perlin4D_comp P (x * 1) x (y * 1) y (z * 1) z (w * 1) w) by ring.
      field.
Qed.

Lemma fbm_with_at_most_one_octave_witness :
  match Noise.fbmValue (Noise.initializePermutation 42 Noise.P_initial)
          (655 # 8) (983 # 4) (385 # 2) (179 # 2) 1 (1 # 2) 2 with
  | NaN => (1 <= 0)%Q
  | Num r =>
      (0 < 1)%Q
      /\ (r == Noise.perlin4D (Noise.initializePermutation 42 Noise.P_initial)
                (655 # 8) (983 # 4) (385 # 2) (179 # 2))%Q
  | _ => False
  end.
Proof. apply fbm_with_at_most_one_octave. discriminate. Defined.

(** ** Terrain colours *)

Module ColourFacts.
Import Terrain.
Local Open Scope Q_scope.

(** The position of a height between two levels. *)
Lemma ratio_range (h lo hi : Q) :
  lo <= h -> h <= hi -> lo < hi ->
  exists t,
    Number_over (Number_minus (Num h) (Num lo)) (Number_minus (Num hi) (Num lo)) = Num t
    /\ 0 <= t <= 1.
Proof.
  intros H0 H1 H2. unfold Number_minus, Number_negate, Number_plus, Number_over.
  destruct (Qeq_bool (hi + - lo) 0) eqn:E; [apply Qeq_bool_iff in E; lra |].
  eexists. split; [reflexivity |]. split.
  - apply Qle_shift_div_l; lra.
  - apply Qle_shift_div_r; lra.
Qed.

Lemma between_affine (a c t lo hi : Q) :
  0 <= t <= 1 -> lo <= a -> lo <= a + c -> a <= hi -> a + c <= hi ->
  between lo hi (Number_plus (Num a) (Number_times (Num t) (Num c))).
Proof.
  intros [T0 T1] A0 A1 B0 B1. exists (a + t * c). split; [reflexivity |].
  split; nra.
Qed.

Lemma between_affine_down (a c t lo hi : Q) :
  0 <= t <= 1 -> lo <= a -> lo <= a - c -> a <= hi -> a - c <= hi ->
  between lo hi (Number_minus (Num a) (Number_times (Num t) (Num c))).
Proof.
  intros [T0 T1] A0 A1 B0 B1. exists (a + - (t * c)). split; [reflexivity |].
  split; nra.
Qed.

Lemma getBiomeColor_range (h w bl p hl : Q) :
  h < hl \/ (hl < 1 /\ h <= 1) ->
  let color :=
    getBiomeColor (Num h)
      {| waterLevel := Num w; beachLevel := Num bl; plainsLevel := Num p;
         hillsLevel := Num hl |} in
  between 0.1 1 (r color) /\ between 0.1 1 (g color) /\ between 0.1 1 (b color).
Proof.
  intros H. unfold getBiomeColor.
  cbn [waterLevel beachLevel plainsLevel hillsLevel Number_less].
  destruct (Qltb h w) eqn:E1; [| apply Qltb_ge in E1].
  { cbn [r g b]. repeat split; eexists; (split; [reflexivity | split; discriminate]). }
  destruct (Qltb h bl) eqn:E2; [apply Qltb_lt in E2 | apply Qltb_ge in E2].
  { destruct (ratio_range h w bl) as [t [-> T]]; try lra.
    cbv zeta. cbn [r g b]. repeat split; apply between_affine; try exact T; lra. }
  destruct (Qltb h p) eqn:E3; [apply Qltb_lt in E3 | apply Qltb_ge in E3].
  { destruct (ratio_range h bl p) as [t [-> T]]; try lra.
    cbv zeta. cbn [r g b]. repeat split;
      first [ apply between_affine | apply between_affine_down ]; try exact T; lra. }
  destruct (Qltb h hl) eqn:E4; [apply Qltb_lt in E4 | apply Qltb_ge in E4].
  { destruct (ratio_range h p hl) as [t [-> T]]; try lra.
    cbv zeta. cbn [r g b]. repeat split;
      first [ apply between_affine | apply between_affine_down ]; try exact T; lra. }
  destruct H as [H | [H5 H6]]; [lra |].
  destruct (ratio_range h hl 1) as [t [-> T]]; try lra.
  cbv zeta. cbn [r g b]. repeat split; apply between_affine; try exact T; lra.
Qed.

End ColourFacts.



Module ColorizeFacts.
Import Terrain.

Lemma Uint8_store_done (done rest : list Z) (k : nat) (i : Z) (value : number) :
  i = Z.of_nat (List.length done + k) ->
  Uint8_store (done ++ rest) i value = (done ++ <[k := ToUint8 value]> rest)%list.
Proof.
  intros ->. unfold Uint8_store.
  destruct (Z.ltb_spec (Z.of_nat (List.length done + k)) 0); [lia |].
  rewrite Nat2Z.id. rewrite insert_app_r_alt by lia. do 2 f_equal. lia.
Qed.

(** The loop fills the colours three bytes at a time, in the order of the
    heights. *)
Lemma colorizeLoop_fills (thresholds : ColorThresholds) (steps : nat) :
  forall (pre post : list number) (done rest : list Z),
    List.length done = (List.length pre * 3)%nat ->
    List.length post = steps ->
    List.length rest = (steps * 3)%nat ->
    colorizeLoop steps (Z.of_nat (List.length pre)) (pre ++ post) thresholds (done ++ rest)
    = (done ++ flat_map (pixel thresholds) post)%list.
Proof.
  induction steps as [| steps IH]; intros pre post done rest Hd Hp Hr.
  - destruct post; [| discriminate]. destruct rest; [| discriminate]. reflexivity.
  - destruct post as [| h post]; [discriminate |].
    destruct rest as [| x0 [| x1 [| x2 rest]]]; try discriminate.
    cbn [colorizeLoop]. cbv zeta.
    rewrite Nat2Z.id.
    replace (nth (List.length pre) (pre ++ h :: post) NaN) with h
      by (rewrite List.app_nth2 by lia; now rewrite Nat.sub_diag).
    rewrite (Uint8_store_done done _ 0) by lia.
    rewrite (Uint8_store_done done _ 1) by lia.
    rewrite (Uint8_store_done done _ 2) by lia.
    cbn [insert list_insert].
    replace (Z.of_nat (List.length pre) + 1) with (Z.of_nat (List.length (pre ++ [h])))
      by (rewrite List.length_app; simpl; lia).
    replace (pre ++ h :: post)%list with ((pre ++ [h]) ++ post)%list
      by (now rewrite <- List.app_assoc).
    change (done ++ ?a :: ?b :: ?c :: rest)%list
      with (done ++ [a; b; c] ++ rest)%list.
    rewrite List.app_assoc.
    rewrite IH.
    + rewrite <- List.app_assoc. reflexivity.
    + rewrite !List.length_app. simpl. lia.
    + simpl in Hp. lia.
    + simpl in Hr. lia.
Qed.

Lemma channelByte_range (channel : number) : 0 <= channelByte channel < 256.
Proof.
  unfold channelByte, ToUint8.
  destruct (Math_round _); try lia. apply Z.mod_pos_bound. lia.
Qed.

Lemma channelByte_exact (q : Q) :
  (0 <= q <= 1)%Q ->
  channelByte (Num q) = Qfloor (q * 255 + (1 # 2))
  /\ 0 <= Qfloor (q * 255 + (1 # 2)) <= 255.
Proof.
  intros [H0 H1].
  assert (R : 0 <= Qfloor (q * 255 + (1 # 2)) <= 255).
  { split.
    - change 0 with (Qfloor 0). apply Qfloor_resp_le. lra.
    - assert (Qfloor (q * 255 + (1 # 2)) < 256); [| lia].
      rewrite Zlt_Qlt. change (inject_Z 256) with 256%Q.
      pose proof (Qfloor_le (q * 255 + (1 # 2))). lra. }
  split; [| exact R].
  unfold channelByte, ToUint8, Math_round, Number_times, Int, Noise.Qtrunc.
  replace (Qltb (inject_Z (Qfloor (q * 255 + (1 # 2)))) 0) with false.
  - rewrite Qfloor_Z. apply Z.mod_small. lia.
  - symmetry. apply Qltb_ge. change 0%Q with (inject_Z 0). rewrite <- Zle_Qle. lia.
Qed.

Lemma pixels_length (thresholds : ColorThresholds) (heights : list number) :
  List.length (flat_map (pixel thresholds) heights) = (List.length heights * 3)%nat.
Proof.
  induction heights as [| h rest IH]; [reflexivity |].
  cbn [flat_map]. rewrite List.length_app, IH. unfold pixel. simpl. lia.
Qed.

Lemma pixels_bytes (thresholds : ColorThresholds) (heights : list number) :
  bytes (flat_map (pixel thresholds) heights).
Proof.
  unfold bytes. induction heights as [| h rest IH]; [constructor |].
  cbn [flat_map]. apply Forall_app. split; [| exact IH].
  unfold pixel. cbv zeta. repeat (constructor; [apply channelByte_range |]). constructor.
Qed.

End ColorizeFacts.


(** ** The climate store *)

Module ClimateFacts.
Import ClimateStore.

Lemma limited_within (lo hi : Q) (n : number) :
  (lo <= hi)%Q ->
  Number_isFinite n = true ->
  within lo hi (Math_max (Num lo) (Math_min (Num hi) n)) = true.
Proof.
  intros H. destruct n as [q | | |]; try discriminate. intros _.
  unfold Math_min, Math_max, within.
  qcases; qcases; rewrite ?andb_true_iff, ?Qleb_le; try split; lra.
Qed.

Lemma remainder_range (c d y : Q) :
  (0 <= c)%Q -> (0 <= d)%Q -> (1 <= y)%Q ->
  exists t,
    Number_remainder (Number_plus (Num c) (Num d)) (Num y) = Num t /\ (0 <= t < y)%Q.
Proof.
  intros Hc Hd Hy. unfold Number_plus, Number_remainder.
  destruct (Qeq_bool y 0) eqn:E; [apply Qeq_bool_iff in E; lra |].
  eexists. split; [reflexivity |]. apply ShuffleFacts.Qrem_range; lra.
Qed.

Lemma perform_valid (state : ClimateStoreState) (call : Call) :
  ClimateState_valid (climate state) = true ->
  finiteCall call ->
  ClimateState_valid (climate (perform state call)) = true.
Proof.
  intros V F. destruct call; cbn [perform]; try exact V; try reflexivity;
    unfold setAxialTilt, setAlbedo, setGreenhouseMultiplier, setCurrentTime,
      setYearLength, incrementTime;
    cbn [climate]; unfold ClimateState_valid in *;
    cbn [axialTiltDegrees albedo greenhouseMultiplier currentTime yearLength];
    rewrite !andb_true_iff in *; destruct V as [[[[Ht Ha] Hg] Hct] Hy];
    cbn [finiteCall] in F; repeat split; try assumption.
  - apply limited_within; [discriminate | exact F].
  - apply limited_within; [discriminate | exact F].
  - now apply Math_max_atLeast.
  - now apply Math_max_atLeast.
  - now apply Math_max_atLeast.
  - destruct (currentTime (climate state)) as [c | | |]; try discriminate.
    destruct days as [d | | |]; try discriminate.
    destruct (yearLength (climate state)) as [y | | |]; try discriminate.
    unfold atLeast in *. rewrite Qleb_le in *.
    destruct (remainder_range c d y) as [t [-> T]]; try assumption.
    apply Qleb_le. apply T.
Qed.

End ClimateFacts.





(** ** The terrain store *)

Module TerrainFacts.
Import TerrainStore.

Lemma limited_between (lo hi : Q) (n : number) :
  (lo <= hi)%Q -> n <> NaN -> between lo hi (limited lo hi n).
Proof.
  intros H N. unfold limited, Math_min, Math_max, between.
  destruct n as [q | | |]; try congruence;
    qcases; eexists; (split; [reflexivity | lra]).
Qed.

Lemma limited_octaves (n : number) :
  n <> NaN -> exists k : Z, limited 1 10 (Math_floor n) = Int k /\ 1 <= k <= 10.
Proof.
  intros N. unfold limited, Math_floor, Math_min, Math_max, Int.
  destruct n as [q | | |]; try congruence.
  - destruct (Qltb (inject_Z (Qfloor q)) 10) eqn:E1;
      [apply Qltb_lt in E1 | apply Qltb_ge in E1].
    + destruct (Qltb 1 (inject_Z (Qfloor q))) eqn:E2;
        [apply Qltb_lt in E2 | apply Qltb_ge in E2].
      * exists (Qfloor q). split; [reflexivity |].
        change 1%Q with (inject_Z 1) in E2. change 10%Q with (inject_Z 10) in E1.
        rewrite <- Zlt_Qlt in E1, E2. lia.
      * exists 1. split; [reflexivity | lia].
    + exists 10. split; [reflexivity | lia].
  - exists 10. split; [reflexivity | lia].
  - exists 1. split; [reflexivity | lia].
Qed.

Lemma perform_inRange (s : TerrainSnapshot) (call : Call) :
  inRange s -> definite call -> inRange (perform s call).
Proof.
  intros R D. destruct R as [R1 [R2 [R3 [R4 [R5 [R6 [R7 R8]]]]]]].
  destruct call; cbn [perform definite] in *;
    unfold inRange, setSeed, setScale, setPersistence, setLacunarity, setOctaves,
      setWaterLevel, setBeachLevel, setPlainsLevel, setHillsLevel, randomizeSeed;
    cbn [scale persistence lacunarity octaves waterLevel beachLevel plainsLevel hillsLevel];
    repeat split; try assumption;
    try (apply limited_between; [discriminate | assumption]);
    try (now apply limited_octaves).
  all: try (eexists; split; [reflexivity | split; discriminate]).
  all: try (exists 6; split; [reflexivity | lia]).
Qed.

Lemma DEFAULT_inRange : inRange DEFAULT_TERRAIN_SNAPSHOT.
Proof.
  unfold inRange. cbn.
  repeat split; try (eexists; split; [reflexivity | split; discriminate]).
  all: try (exists 6; split; [reflexivity | lia]).
Qed.

End TerrainFacts.



(** ** The event bus *)

Module BusFacts.
Import EventBus.
Local Open Scope list_scope.

(** The types of the bus written out, for rewriting with the lemmas on maps. *)
Ltac plain := unfold ListenerMap, ListenerSet, Listener in *.

Lemma Set_has_In (listener : Listener) (set : ListenerSet) :
  Set_has listener set = true <-> In listener set.
Proof.
  unfold Set_has. rewrite existsb_exists. split.
  - intros [x [H E]]. apply Nat.eqb_eq in E. now subst.
  - intros H. exists listener. split; [exact H | apply Nat.eqb_refl].
Qed.

Lemma Set_delete_new (listener : Listener) (set : ListenerSet) :
  ~ In listener set -> Set_delete listener set = set.
Proof.
  intros H. unfold Set_delete. induction set as [| x rest IH]; [reflexivity |].
  simpl. destruct (Nat.eqb_spec listener x) as [-> | N].
  - exfalso. apply H. now left.
  - simpl. f_equal. apply IH. intros I. apply H. now right.
Qed.

Lemma Set_delete_added (listener : Listener) (set : ListenerSet) :
  ~ In listener set -> Set_delete listener (set ++ [listener]) = set.
Proof.
  intros H. unfold Set_delete. rewrite List.filter_app. simpl.
  rewrite Nat.eqb_refl. simpl. rewrite List.app_nil_r. now apply Set_delete_new.
Qed.

Lemma Set_delete_not_In (listener : Listener) (set : ListenerSet) :
  ~ In listener (Set_delete listener set).
Proof.
  unfold Set_delete. rewrite List.filter_In. intros [_ H].
  now rewrite Nat.eqb_refl in H.
Qed.

Lemma Set_delete_NoDup (listener : Listener) (set : ListenerSet) :
  List.NoDup set -> List.NoDup (Set_delete listener set).
Proof. apply List.NoDup_filter. Qed.

Lemma Set_add_NoDup (listener : Listener) (set : ListenerSet) :
  List.NoDup set -> List.NoDup (Set_add listener set).
Proof.
  intros H. unfold Set_add. destruct (Set_has listener set) eqn:E; [exact H |].
  apply List.NoDup_app; [exact H | repeat constructor; simpl; tauto |].
  intros x Hx [<- | []]. apply Set_has_In in Hx. congruence.
Qed.

Lemma Set_add_nonempty (listener : Listener) (set : ListenerSet) :
  Set_add listener set <> [].
Proof.
  unfold Set_add. destruct (Set_has listener set) eqn:E.
  - apply Set_has_In in E. destruct set; [contradiction | discriminate].
  - destruct set; discriminate.
Qed.

Lemma called_lookup (event : string) (listeners : ListenerMap) :
  called event listeners = match listeners !! event with Some set => set | None => [] end.
Proof.
  unfold called, emit. destruct (listeners !! event) as [set |]; [| reflexivity].
  rewrite List.map_map. simpl. apply List.map_id.
Qed.

Lemma tidy_on (event : string) (listener : Listener) (listeners : ListenerMap) :
  tidy listeners -> tidy (on event listener listeners).
Proof.
  intros T e set. unfold on. cbv zeta. plain.
  destruct (decide (e = event)) as [-> | N].
  - rewrite lookup_insert_eq. intros [= <-]. split; [apply Set_add_nonempty |].
    apply Set_add_NoDup. destruct (listeners !! event) as [set |] eqn:E.
    + apply (T event set E).
    + constructor.
  - rewrite lookup_insert_ne by congruence. apply T.
Qed.

Lemma tidy_off (event : string) (listener : Listener) (listeners : ListenerMap) :
  tidy listeners -> tidy (off event listener listeners).
Proof.
  intros T e set. unfold off. plain.
  destruct (listeners !! event) as [old |] eqn:E; [| apply T].
  cbv zeta.
  destruct (Nat.eqb_spec (@List.length nat (Set_delete listener old)) 0) as [Z | NZ];
    cbv beta iota.
  - destruct (decide (e = event)) as [-> | N].
    + now rewrite lookup_delete_eq.
    + rewrite lookup_delete_ne by congruence. apply T.
  - destruct (decide (e = event)) as [-> | N].
    + rewrite lookup_insert_eq. intros [= <-]. split.
      * intros C. rewrite C in NZ. now apply NZ.
      * apply Set_delete_NoDup, (T event old E).
    + rewrite lookup_insert_ne by congruence. apply T.
Qed.

Lemma tidy_clear (event : option string) (listeners : ListenerMap) :
  tidy listeners -> tidy (clear event listeners).
Proof.
  intros T e set. destruct event as [event |]; cbn [clear]; plain.
  - destruct (decide (e = event)) as [-> | N].
    + now rewrite lookup_delete_eq.
    + rewrite lookup_delete_ne by congruence. apply T.
  - now rewrite lookup_empty.
Qed.

Lemma tidy_createEventBus : tidy createEventBus.
Proof. intros e set. unfold createEventBus. plain. now rewrite lookup_empty. Qed.

End BusFacts.

(** X23. Subscribing a listener that is not yet subscribed to an event
    makes [emit] call it once, with the payload, after the listeners that
    were there; and the unsubscribe function that [on] returns then
    restores the bus exactly, removing also the set that [on] created. *)
Theorem subscribe_then_unsubscribe (event : string) (listener : EventBus.Listener)
    (listeners : EventBus.ListenerMap) (Payload : Type) (payload : Payload) :
  tidy listeners ->
  ~ In listener (called event listeners) ->
  EventBus.emit event payload (EventBus.on event listener listeners)
  = (EventBus.emit event payload listeners ++ [(listener, payload)])%list
  /\ EventBus.off event listener (EventBus.on event listener listeners) = listeners.
Proof.
  intros T N. rewrite BusFacts.called_lookup in N.
  unfold EventBus.emit, EventBus.off, EventBus.on. cbv zeta. BusFacts.plain.
  rewrite !lookup_insert_eq.
  destruct (listeners !! event) as [set |] eqn:E.
  - unfold EventBus.Set_add.
    destruct (EventBus.Set_has listener set) eqn:H;
      [apply BusFacts.Set_has_In in H; contradiction |].
    split; [now rewrite List.map_app |].
    rewrite BusFacts.Set_delete_added by exact N.
    destruct (T event set E) as [NE _].
    destruct set as [| x rest]; [exfalso; now apply NE |]. simpl.
    rewrite insert_insert_eq. now apply insert_id.
  - simpl. rewrite Nat.eqb_refl. simpl. split; [reflexivity |].
    rewrite delete_insert_eq. now apply delete_id.
Qed.

Lemma subscribe_then_unsubscribe_witness :
  EventBus.emit "tick" 7
    (EventBus.on "tick" 2%nat (EventBus.on "tick" 1%nat EventBus.createEventBus))
  = (EventBus.emit "tick" 7 (EventBus.on "tick" 1%nat EventBus.createEventBus)
       ++ [(2%nat, 7)])%list
  /\ EventBus.off "tick" 2%nat
       (EventBus.on "tick" 2%nat (EventBus.on "tick" 1%nat EventBus.createEventBus))
     = EventBus.on "tick" 1%nat EventBus.createEventBus.
Proof.
  apply (subscribe_then_unsubscribe "tick" 2%nat
           (EventBus.on "tick" 1%nat EventBus.createEventBus) Z 7).
  - apply BusFacts.tidy_on, BusFacts.tidy_createEventBus.
  - vm_compute. intros [H | []]. discriminate.
Defined.

(** X24. Whatever is subscribed, unsubscribed or cleared, the bus keeps
    no empty set and no listener twice in a set, so [emit] calls every
    listener of an event exactly once however often it was subscribed; a
    listener that was unsubscribed is not called; and subscribing,
    unsubscribing and clearing one event leave the listeners of every other
    event as they were. *)
Theorem bus_keeps_its_sets_tidy (event : string) (listener : EventBus.Listener)
    (listeners : EventBus.ListenerMap) :
  tidy listeners ->
  tidy (EventBus.on event listener listeners)
  /\ tidy (EventBus.off event listener listeners)
  /\ tidy (EventBus.clear (Some event) listeners)
  /\ List.count_occ Nat.eq_dec
       (called event (EventBus.on event listener (EventBus.on event listener listeners)))
       listener = 1%nat
  /\ ~ In listener (called event (EventBus.off event listener listeners))
  /\ forall other : string,
       other <> event ->
       called other (EventBus.on event listener listeners) = called other listeners
       /\ called other (EventBus.off event listener listeners) = called other listeners
       /\ called other (EventBus.clear (Some event) listeners) = called other listeners.
Proof.
  intros T.
  split; [now apply BusFacts.tidy_on |].
  split; [now apply BusFacts.tidy_off |].
  split; [now apply BusFacts.tidy_clear |].
  split; [| split].
  - pose proof (BusFacts.tidy_on event listener _ (BusFacts.tidy_on event listener _ T)) as T2.
    rewrite BusFacts.called_lookup.
    destruct (EventBus.on event listener (EventBus.on event listener listeners) !! event)
      as [set |] eqn:E.
    + destruct (T2 event set E) as [_ ND].
      assert (I : In listener set).
      { unfold EventBus.on in E. cbv zeta in E. BusFacts.plain.
        rewrite !lookup_insert_eq in E.
        injection E as <-. unfold EventBus.Set_add at 1.
        destruct (EventBus.Set_has listener _) eqn:H.
        - now apply BusFacts.Set_has_In.
        - apply List.in_or_app. right. now left. }
      pose proof (proj1 (List.NoDup_count_occ Nat.eq_dec set) ND listener) as C.
      pose proof (proj1 (List.count_occ_In Nat.eq_dec set listener) I). lia.
    + unfold EventBus.on in E. cbv zeta in E. BusFacts.plain.
      now rewrite lookup_insert_eq in E.
  - rewrite BusFacts.called_lookup. unfold EventBus.off. BusFacts.plain.
    destruct (listeners !! event) as [set |] eqn:E; [| now rewrite E].
    cbv zeta.
    destruct (Nat.eqb_spec (@List.length nat (EventBus.Set_delete listener set)) 0);
      cbv beta iota.
    + rewrite lookup_delete_eq. tauto.
    + rewrite lookup_insert_eq. apply BusFacts.Set_delete_not_In.
  - intros other N. rewrite !BusFacts.called_lookup.
    unfold EventBus.on, EventBus.off, EventBus.clear. cbv zeta. BusFacts.plain.
    rewrite lookup_insert_ne by congruence.
    rewrite lookup_delete_ne by congruence.
    split; [reflexivity |]. split; [| reflexivity].
    destruct (listeners !! event) as [set |]; [| reflexivity].
    destruct (_ =? _)%nat; cbv beta iota;
      [rewrite lookup_delete_ne by congruence | rewrite lookup_insert_ne by congruence];
      reflexivity.
Qed.

Lemma bus_keeps_its_sets_tidy_witness :
  tidy (EventBus.on "tick" 1%nat EventBus.createEventBus)
  /\ tidy (EventBus.off "tick" 1%nat EventBus.createEventBus).
Proof.
  destruct (bus_keeps_its_sets_tidy "tick" 1%nat EventBus.createEventBus
              BusFacts.tidy_createEventBus)
    as [H1 [H2 _]].
  split; assumption.
Defined.

(** ** The notification store *)

Module NotificationFacts.
Import NotificationStore.
Local Open Scope list_scope.

Lemma filter_ids_NoDup (keep : NotificationEntry -> bool) (items : list NotificationEntry) :
  List.NoDup (map id items) -> List.NoDup (map id (List.filter keep items)).
Proof.
  induction items as [| item rest IH]; simpl; [tauto |].
  intros H. inversion H as [| ? ? N R]; subst.
  destruct (keep item); simpl; [| now apply IH].
  constructor; [| now apply IH].
  intros I. apply N. apply List.in_map_iff in I as [x [E F]].
  apply List.filter_In in F as [F _]. apply List.in_map_iff. now exists x.
Qed.

Lemma differs_removes (id' : string) (items : list NotificationEntry) :
  ~ In id' (map id (List.filter (differs id') items)).
Proof.
  intros I. apply List.in_map_iff in I as [x [E F]].
  apply List.filter_In in F as [_ F]. unfold differs in F.
  rewrite E, String.eqb_refl in F. discriminate.
Qed.

Lemma resolveDuration_proper (duration : Duration) :
  properDuration (resolveDuration duration).
Proof.
  destruct duration as [| | d]; cbn [resolveDuration]; try exact I; [reflexivity |].
  destruct (Number_less (Num 0) d) eqn:E; [exact E | exact I].
Qed.

Lemma push_proper (rt : Runtime) (now created : Z) (input : NotificationInput)
    (state : State) :
  properStore state -> properStore (snd (push rt now created input state)).
Proof.
  intros [N D]. unfold push.
  set (chosen := match input_id input with
                 | Some given => (given, state)
                 | None => createNotificationId rt now state
                 end).
  assert (S : notifications (snd chosen) = notifications state)
    by (unfold chosen; destruct (input_id input); reflexivity).
  destruct chosen as [id' state1]. simpl in S. cbv zeta. unfold properStore.
  cbn [snd notifications]. rewrite S. split.
  - rewrite List.map_app. simpl. apply List.NoDup_app.
    + now apply filter_ids_NoDup.
    + repeat constructor. simpl. tauto.
    + intros x Hx [<- | []]. now apply differs_removes in Hx.
  - apply Forall_app. split.
    + apply List.Forall_forall. intros x Hx. apply List.filter_In in Hx as [Hx _].
      rewrite List.Forall_forall in D. now apply D.
    + repeat constructor. simpl. apply resolveDuration_proper.
Qed.

Lemma perform_proper (rt : Runtime) (state : State) (call : Call) :
  properStore state -> properStore (perform rt state call).
Proof.
  intros P. destruct call as [now created v m o | id' |]; cbn [perform].
  - apply push_proper, P.
  - destruct P as [N D]. split; cbn [dismissNotification dismiss notifications].
    + now apply filter_ids_NoDup.
    + apply List.Forall_forall. intros x Hx. apply List.filter_In in Hx as [Hx _].
      rewrite List.Forall_forall in D. now apply D.
  - split; simpl; constructor.
Qed.

Lemma initial_proper : properStore initial.
Proof. split; simpl; constructor. Qed.

End NotificationFacts.

(** X25. Whatever is notified, dismissed and cleared, the notifications of
    the store have pairwise distinct identifiers and each duration is
    either absent or a number above 0 - never 0, a negative number or
    [NaN].  A pushed notification is the last of the list, where it replaces
    any notification of the same identifier; dismissing an identifier leaves
    no notification with it. *)
Theorem notifications_have_distinct_ids (rt : Runtime) (calls : list NotificationStore.Call) :
  let final := fold_left (NotificationStore.perform rt) calls NotificationStore.initial in
  List.NoDup (map NotificationStore.id (NotificationStore.notifications final))
  /\ Forall (fun n => properDuration (NotificationStore.durationMs n))
       (NotificationStore.notifications final)
  /\ (forall (now created : Z) (input : NotificationStore.NotificationInput),
         let '(entry, after) := NotificationStore.push rt now created input final in
         exists before,
           NotificationStore.notifications after = (before ++ [entry])%list
           /\ ~ In (NotificationStore.id entry) (map NotificationStore.id before)
           /\ forall other, In other before -> In other (NotificationStore.notifications final))
  /\ forall id' : string,
       ~ In id' (map NotificationStore.id
                   (NotificationStore.notifications (NotificationStore.dismiss id' final))).
Proof.
  cbv zeta.
  assert (P : forall state,
             properStore state ->
             properStore (fold_left (NotificationStore.perform rt) calls state)).
  { induction calls as [| call rest IH]; intros state P; [exact P |].
    cbn [fold_left]. apply IH. now apply NotificationFacts.perform_proper. }
  specialize (P NotificationStore.initial NotificationFacts.initial_proper).
  set (final := fold_left (NotificationStore.perform rt) calls NotificationStore.initial) in *.
  split; [apply P |]. split; [apply P |]. split.
  - intros now created input. unfold NotificationStore.push.
    set (chosen := match NotificationStore.input_id input with
                   | Some given => (given, final)
                   | None => NotificationStore.createNotificationId rt now final
                   end).
    assert (S : NotificationStore.notifications (snd chosen)
                = NotificationStore.notifications final)
      by (unfold chosen; destruct (NotificationStore.input_id input); reflexivity).
    destruct chosen as [id' state1]. simpl in S. cbv zeta.
    eexists. split; [reflexivity |]. cbn [NotificationStore.id]. rewrite S. split.
    + apply NotificationFacts.differs_removes.
    + intros other Ho. now apply List.filter_In in Ho as [Ho _].
  - intros id'. apply NotificationFacts.differs_removes.
Qed.

(** ** Temperature colours *)

(** Case analysis on the comparisons of the goal, one at a time, closing
    the cases that contradict the earlier ones. *)
Ltac band :=
  repeat match goal with
    | |- context [Qltb ?a ?b] =>
        let E := fresh "E" in
        destruct (Qltb a b) eqn:E;
        [apply Qltb_lt in E | apply Qltb_ge in E];
        cbn [andb]; try (exfalso; lra)
    | |- context [Qleb ?a ?b] =>
        let E := fresh "E" in
        destruct (Qleb a b) eqn:E;
        [apply Qleb_le in E | apply not_true_iff_false in E; rewrite Qleb_le in E];
        cbn [andb]; try (exfalso; lra)
    end.

(** X26. The nine colour bands of [getTemperatureColor] cover the scale
    from -50 to 100 degrees without a gap: a temperature in [-50, 100) gets
    the colour of the band that holds it, a temperature below -50
    (or minus infinity) the navy of extreme cold, and a temperature of 100
    or more, plus infinity and [NaN] the dark red of extreme heat. *)
Theorem temperature_bands_cover_the_scale (tempCelsius : number) :
  match tempCelsius with
  | Num q =>
      ((q < -50)%Q -> ClimateModel.getTemperatureColor tempCelsius = "#000080")
      /\ ((100 <= q)%Q -> ClimateModel.getTemperatureColor tempCelsius = "#800000")
      /\ ((-50 <= q < 100)%Q ->
          exists range,
            In range ClimateModel.ranges
            /\ (ClimateModel.min range <= q < ClimateModel.max range)%Q
            /\ ClimateModel.getTemperatureColor tempCelsius = ClimateModel.color range)
  | NegInfinity => ClimateModel.getTemperatureColor tempCelsius = "#000080"
  | _ => ClimateModel.getTemperatureColor tempCelsius = "#800000"
  end.
Proof.
  destruct tempCelsius as [q | | |]; try reflexivity.
  unfold ClimateModel.getTemperatureColor, ClimateModel.ranges.
  cbn [ClimateModel.firstRange ClimateModel.min ClimateModel.max ClimateModel.color
       Number_atLeast Number_less].
  split; [| split].
  - intros H. band; reflexivity.
  - intros H. band; reflexivity.
  - intros [H0 H1].
    pose (choose n :=
            nth n ClimateModel.ranges
              {| ClimateModel.min := 0; ClimateModel.max := 0; ClimateModel.color := "" |}).
    band;
      let pick n :=
        solve [exists (choose n);
               split; [simpl; tauto | split; [simpl; lra | reflexivity]]] in
      first [ pick 0%nat | pick 1%nat | pick 2%nat | pick 3%nat | pick 4%nat
            | pick 5%nat | pick 6%nat | pick 7%nat | pick 8%nat ].
Qed.

(** ** The tick scheduler *)

Module SchedulerFacts.
Import Scheduler.

Local Open Scope list_scope.

Lemma hasMultiplier_Exists (value : Q) (options : list SimulationSpeedOption) :
  hasMultiplier value options = true
  <-> Exists (fun option => (multiplier option == value)%Q) options.
Proof.
  unfold hasMultiplier. rewrite existsb_exists, List.Exists_exists.
  split; intros [x [H E]]; exists x; (split; [exact H |]); now apply Qeq_bool_iff.
Qed.

Lemma positive_multipliers (options : list SimulationSpeedOption) :
  existsb (fun option => Qleb (multiplier option) 0) options = false
  <-> Forall (fun option => (0 < multiplier option)%Q) options.
Proof.
  induction options as [| x rest IH]; simpl.
  - split; [constructor | reflexivity].
  - rewrite orb_false_iff, IH. split.
    + intros [E F]. constructor; [| exact F].
      apply not_true_iff_false in E. rewrite Qleb_le in E. lra.
    + intros F. inversion F as [| ? ? P F']; subst. split; [| exact F'].
      apply not_true_iff_false. rewrite Qleb_le. lra.
Qed.

Lemma copied_options (options : list SimulationSpeedOption) :
  map (fun option => {| label := label option; multiplier := multiplier option |}) options
  = options.
Proof.
  induction options as [| [l m] rest IH]; simpl; [reflexivity | now rewrite IH].
Qed.

Lemma maximum_le (a b : Q) : (a <= maximum a b)%Q.
Proof. unfold maximum. qcases; lra. Qed.

(** *** The listeners' view of the effects *)

Lemma ticksOf_app (listener : EventBus.Listener) (first second : list Effect) :
  ticksOf listener (first ++ second) = ticksOf listener first ++ ticksOf listener second.
Proof.
  induction first as [| [called [event | state] | delay |] rest IH]; simpl;
    try reflexivity; try exact IH; [].
  destruct (Nat.eqb called listener); simpl; now rewrite IH.
Qed.

Lemma ticksOf_calls (listener : EventBus.Listener) (event : SimulationTickEvent)
    (set : EventBus.ListenerSet) :
  List.NoDup set ->
  ticksOf listener (map (fun called => Call called (Tick event)) set)
  = if EventBus.Set_has listener set then [event] else [].
Proof.
  induction set as [| x rest IH]; intros N; [reflexivity |].
  inversion N as [| ? ? Hx N']; subst. specialize (IH N'). simpl.
  unfold EventBus.Set_has in *. simpl.
  rewrite Nat.eqb_sym. destruct (Nat.eqb_spec listener x) as [-> | D]; simpl.
  - rewrite IH. destruct (existsb (Nat.eqb x) rest) eqn:E; [| reflexivity].
    exfalso. apply Hx. now apply BusFacts.Set_has_In.
  - exact IH.
Qed.

Lemma ticksOf_publish_tick (listener : EventBus.Listener) (event : SimulationTickEvent)
    (set : EventBus.ListenerSet) (s : Scheduler) :
  bus s !! "tick" = Some set -> List.NoDup set -> In listener set ->
  ticksOf listener (publish "tick" (Tick event) s) = [event].
Proof.
  intros L N I. unfold publish, EventBus.emit.
  unfold EventBus.ListenerMap, EventBus.ListenerSet, EventBus.Listener in *.
  rewrite L, List.map_map. cbv beta iota.
  unfold EventBus.ListenerMap, EventBus.ListenerSet, EventBus.Listener in *.
  pose proof (ticksOf_calls listener event set N) as T.
  unfold EventBus.ListenerMap, EventBus.ListenerSet, EventBus.Listener in T. rewrite T.
  apply BusFacts.Set_has_In in I. now rewrite I.
Qed.

Lemma ticksOf_states (listener : EventBus.Listener) (state : SimulationState)
    (s : Scheduler) :
  ticksOf listener (publish "state" (StateChange state) s) = [].
Proof.
  unfold publish, EventBus.emit. destruct (bus s !! "state") as [set |]; [| reflexivity].
  rewrite List.map_map. induction set as [| x rest IH]; [reflexivity | exact IH].
Qed.

(** *** The loop of fixed steps *)

Lemma framesAfter_S (first : Z) (count : nat) :
  framesAfter first (S count) = (first + 1) :: framesAfter (first + 1) count.
Proof.
  unfold framesAfter. cbn [seq map]. f_equal; [lia |].
  rewrite <- List.seq_shift, List.map_map. apply List.map_ext. intros k. lia.
Qed.

(** One step of the loop, and the case analysis on its condition. *)
Ltac stepping IH fuel a steps s :=
  cbn [stepLoop];
  destruct (Qleb (fixedDeltaMs s) (accumulator s)
            && Qltb (inject_Z steps) (maxStepsPerFrame s)) eqn:C;
  [ apply andb_true_iff in C; destruct C as [C1 C2];
    apply Qleb_le in C1; apply Qltb_lt in C2;
    match goal with
    | |- context [stepLoop fuel a (steps + 1) ?s1] =>
        let s' := fresh "s1" in
        set (s' := s1) in *;
        let H := fresh "H" in
        pose proof (IH (steps + 1) s') as H;
        destruct (stepLoop fuel a (steps + 1) s') as [[steps' s''] effects] eqn:R
    end
  | ].

Lemma stepLoop_keeps (fuel : nat) (a : Q) (steps : Z) (s : Scheduler) :
  let '(steps', s', _) := stepLoop fuel a steps s in
  fixedDeltaMs s' = fixedDeltaMs s
  /\ frameIntervalMs s' = frameIntervalMs s
  /\ maxStepsPerFrame s' = maxStepsPerFrame s
  /\ speedOptions s' = speedOptions s
  /\ running s' = running s
  /\ speed s' = speed s
  /\ lastTime s' = lastTime s
  /\ timerHandle s' = timerHandle s
  /\ bus s' = bus s
  /\ steps <= steps' <= steps + Z.of_nat fuel
  /\ frame s' = frame s + (steps' - steps).
Proof.
  revert steps s. induction fuel as [| fuel IH]; intros steps s.
  - simpl. repeat split; lia.
  - stepping IH fuel a steps s.
    + subst s1. cbn [assign fixedDeltaMs frameIntervalMs maxStepsPerFrame speedOptions
                     running speed lastTime timerHandle bus frame] in H.
      destruct H as (H1 & H2 & H3 & H4 & H5 & H6 & H7 & H8 & H9 & H10 & H11).
      repeat split; try assumption; lia.
    + repeat split; lia.
Qed.

Lemma stepLoop_bounds (fuel : nat) (a : Q) (steps : Z) (s : Scheduler) :
  (0 < fixedDeltaMs s)%Q -> (0 <= accumulator s)%Q -> (0 <= elapsedMs s)%Q ->
  let '(_, s', _) := stepLoop fuel a steps s in
  (0 <= accumulator s' <= accumulator s)%Q /\ (elapsedMs s <= elapsedMs s')%Q.
Proof.
  revert steps s. induction fuel as [| fuel IH]; intros steps s F A E.
  - simpl. lra.
  - stepping IH fuel a steps s.
    + subst s1. cbn [assign fixedDeltaMs accumulator elapsedMs] in H.
      destruct H as [H1 H2]; lra.
    + lra.
Qed.

Lemma stepLoop_exit (fuel : nat) (a : Q) (steps : Z) (s : Scheduler) :
  (maxStepsPerFrame s <= inject_Z (steps + Z.of_nat fuel))%Q ->
  let '(steps', s', _) := stepLoop fuel a steps s in
  (accumulator s' < fixedDeltaMs s')%Q \/ (maxStepsPerFrame s' <= inject_Z steps')%Q.
Proof.
  revert steps s. induction fuel as [| fuel IH]; intros steps s M.
  - simpl. right. now rewrite Z.add_0_r in M.
  - stepping IH fuel a steps s.
    + apply H. subst s1. cbn [assign maxStepsPerFrame].
      now replace (steps + 1 + Z.of_nat fuel) with (steps + Z.of_nat (S fuel)) by lia.
    + apply andb_false_iff in C. destruct C as [C | C].
      * left. apply not_true_iff_false in C. rewrite Qleb_le in C. lra.
      * right. now apply Qltb_ge in C.
Qed.

Lemma stepLoop_whole (fuel : nat) (a : Q) (steps : Z) (s : Scheduler) (n : Z) :
  (maxStepsPerFrame s == inject_Z n)%Q -> steps <= n ->
  let '(steps', _, _) := stepLoop fuel a steps s in steps' <= n.
Proof.
  revert steps s. induction fuel as [| fuel IH]; intros steps s M L.
  - exact L.
  - stepping IH fuel a steps s.
    + apply H; [exact M |]. rewrite M in C2. rewrite <- Zlt_Qlt in C2. lia.
    + exact L.
Qed.

(** More turns of the loop than [stepBound] change nothing: the loop has ended. *)
Lemma stepLoop_ended (fuel more : nat) (a : Q) (steps : Z) (s : Scheduler) :
  (maxStepsPerFrame s <= inject_Z (steps + Z.of_nat fuel))%Q ->
  stepLoop (fuel + more) a steps s = stepLoop fuel a steps s.
Proof.
  revert steps s. induction fuel as [| fuel IH]; intros steps s M.
  - rewrite Z.add_0_r in M. apply Qltb_ge in M.
    destruct more as [| more]; [reflexivity |].
    cbn [Nat.add stepLoop]. now rewrite M, andb_false_r.
  - cbn [Nat.add stepLoop]. rewrite IH; [reflexivity |].
    cbn [assign maxStepsPerFrame].
    now replace (steps + 1 + Z.of_nat fuel) with (steps + Z.of_nat (S fuel)) by lia.
Qed.

Lemma stepBound_enough (s : Scheduler) :
  (1 <= maxStepsPerFrame s)%Q ->
  (maxStepsPerFrame s <= inject_Z (0 + Z.of_nat (stepBound s)))%Q.
Proof.
  intros M. unfold stepBound.
  pose proof (Qle_ceiling (maxStepsPerFrame s)) as C.
  assert (0 <= Qceiling (maxStepsPerFrame s)).
  { rewrite Zle_Qle. change (inject_Z 0) with 0%Q. lra. }
  rewrite Z.add_0_l, Z2Nat.id by assumption. exact C.
Qed.

Lemma stepLoop_ticks (fuel : nat) (a : Q) (steps : Z) (s : Scheduler)
    (listener : EventBus.Listener) (set : EventBus.ListenerSet) :
  bus s !! "tick" = Some set -> List.NoDup set -> In listener set ->
  let '(steps', s', effects) := stepLoop fuel a steps s in
  map tick_frame (ticksOf listener effects)
  = framesAfter (frame s) (Z.to_nat (steps' - steps))
  /\ Forall (fun event => tick_speed event = a
                          /\ tick_fixedDeltaMs event = fixedDeltaMs s)
       (ticksOf listener effects).
Proof.
  revert steps s. induction fuel as [| fuel IH]; intros steps s L N I.
  - simpl. rewrite Z.sub_diag. split; [reflexivity | constructor].
  - pose proof (stepLoop_keeps (S fuel) a steps s) as K. revert K.
    cbn [stepLoop].
    destruct (Qleb (fixedDeltaMs s) (accumulator s)
              && Qltb (inject_Z steps) (maxStepsPerFrame s)) eqn:C.
    + match goal with
      | |- context [stepLoop fuel a (steps + 1) ?s1] => set (s1' := s1) in *
      end.
      pose proof (IH (steps + 1) s1' L N I) as H.
      pose proof (stepLoop_keeps fuel a (steps + 1) s1') as K1.
      destruct (stepLoop fuel a (steps + 1) s1') as [[steps' s''] effects] eqn:R.
      intros _. destruct H as [H1 H2].
      rewrite ticksOf_app, (ticksOf_publish_tick listener _ set s1' L N I).
      split.
      * cbn [app map tick_frame]. rewrite H1.
        replace (Z.to_nat (steps' - steps)) with (S (Z.to_nat (steps' - (steps + 1))))
          by lia.
        rewrite framesAfter_S. reflexivity.
      * constructor; [split; reflexivity | exact H2].
    + intros _. simpl. rewrite Z.sub_diag. split; [reflexivity | constructor].
Qed.

(** *** The operations *)

Lemma scheduleLoop_fst (s : Scheduler) :
  fst (scheduleLoop s)
  = assign s (running s) (speed s) (lastTime s) (accumulator s) (frame s) (elapsedMs s)
      (timerHandle s || running s) (bus s).
Proof.
  destruct s as [f i m o r sp l a fr e t b]. unfold scheduleLoop. simpl.
  destruct r, t; reflexivity.
Qed.

Lemma scheduleLoop_ticks (listener : EventBus.Listener) (s : Scheduler) :
  ticksOf listener (snd (scheduleLoop s)) = [].
Proof. unfold scheduleLoop. destruct (negb (running s) || timerHandle s); reflexivity. Qed.

(** A scheduler that differs from a steady one in its accumulator, frame,
    elapsed time and timer only. *)
Lemma steady_same (s s' : Scheduler) :
  steady s ->
  fixedDeltaMs s' = fixedDeltaMs s -> frameIntervalMs s' = frameIntervalMs s ->
  maxStepsPerFrame s' = maxStepsPerFrame s -> speedOptions s' = speedOptions s ->
  running s' = running s -> speed s' = speed s ->
  (lastTime s = None <-> lastTime s' = None) ->
  (0 <= accumulator s')%Q -> 0 <= frame s' -> (0 <= elapsedMs s')%Q ->
  (timerHandle s' = true -> running s' = true) ->
  steady s'.
Proof.
  intros (F & I & M & P & H & A & N & E & T & R) E1 E2 E3 E4 E5 E6 E7 A' N' E' T'.
  unfold steady. rewrite E1, E2, E3, E4, E5, E6.
  repeat split; try assumption.
  - now rewrite <- E5.
  - intros X. apply R in X. tauto.
  - intros X. apply R. tauto.
Qed.

Lemma scheduleLoop_steady (s : Scheduler) : steady s -> steady (fst (scheduleLoop s)).
Proof.
  intros S. pose proof S as (F & I & M & P & H & A & N & E & T & R).
  rewrite scheduleLoop_fst.
  apply (steady_same s); try reflexivity; try assumption.
  cbn [assign timerHandle running]. intros X. apply orb_true_iff in X. tauto.
Qed.

(** The fields of an assigned scheduler. *)
Ltac fields :=
  cbn [assign fixedDeltaMs frameIntervalMs maxStepsPerFrame speedOptions running speed
       lastTime accumulator frame elapsedMs timerHandle bus] in *.

(** The case analysis of [loop] for a running scheduler. *)
Ltac looping s currentTime :=
  unfold loop;
  match goal with R : running s = true |- _ => rewrite R; cbn [negb] end;
  cbv zeta;
  cbn [assign fixedDeltaMs frameIntervalMs maxStepsPerFrame speedOptions running
       speed lastTime accumulator frame elapsedMs timerHandle bus];
  destruct (lastTime s) as [last |] eqn:L;
  [ destruct (Qleb (currentTime - last) 0) eqn:D;
    [ | apply not_true_iff_false in D; rewrite Qleb_le in D;
        match goal with
        | |- context [stepLoop ?fuel ?a 0 ?s2] =>
            let s2' := fresh "s2" in
            set (s2' := s2) in *;
            pose proof (stepLoop_keeps (stepBound s2') a 0 s2') as K;
            pose proof (stepLoop_bounds (stepBound s2') a 0 s2') as B;
            pose proof (stepLoop_exit (stepBound s2') a 0 s2') as X;
            destruct (stepLoop (stepBound s2') a 0 s2') as [[steps s3] calls] eqn:W
        end ]
  | ].

Lemma loop_steady (currentTime : Q) (s : Scheduler) :
  steady s -> running s = true -> steady (fst (loop currentTime s)).
Proof.
  intros S R. pose proof S as (F & I & M & P & H & A & N & E & T & RL).
  looping s currentTime.
  - apply scheduleLoop_steady.
    apply (steady_same s); fields; try congruence; try assumption.
    rewrite ?L. split; discriminate.
  - assert (Q0 : (0 < speed s)%Q).
    { apply hasMultiplier_Exists in H. apply List.Exists_exists in H.
      destruct H as [x [Hx Ex]]. rewrite List.Forall_forall in P.
      specialize (P x Hx). simpl in P. lra. }
    assert (A2 : (0 <= accumulator s2)%Q).
    { subst s2. cbn [assign accumulator]. nra. }
    specialize (B F A2 E).
    destruct K as (K1 & K2 & K3 & K4 & K5 & K6 & K7 & K8 & K9 & K10 & K11).
    destruct B as [B1 B2].
    subst s2. cbn [assign fixedDeltaMs frameIntervalMs maxStepsPerFrame speedOptions
                   running speed lastTime accumulator frame elapsedMs timerHandle bus] in *.
    match goal with
    | |- context [scheduleLoop ?s4] =>
        pose proof (scheduleLoop_steady s4) as Z4;
        destruct (scheduleLoop s4) as [s5 timer]
    end.
    cbn [fst] in *. apply Z4.
    destruct (Qeq_bool (inject_Z steps) (maxStepsPerFrame s3)
              && Qleb (fixedDeltaMs s3) (accumulator s3)).
    + apply (steady_same s); cbn [assign fixedDeltaMs frameIntervalMs maxStepsPerFrame
                                    speedOptions running speed lastTime accumulator frame
                                    elapsedMs timerHandle bus];
        try assumption; try congruence; try lia; try lra.
      * rewrite ?K7, ?L. split; discriminate.
      * apply ShuffleFacts.Qrem_range; [lra | now rewrite K1].
    + apply (steady_same s); try assumption; try congruence; try lia; try lra.
      rewrite ?K7, ?L. split; discriminate.
  - exfalso. apply RL in R. rewrite ?L in R. now apply R.
Qed.

Lemma scheduleLoop_drained (s : Scheduler) : drained s -> drained (fst (scheduleLoop s)).
Proof. intros D. rewrite scheduleLoop_fst. exact D. Qed.

Lemma loop_drained (currentTime : Q) (s : Scheduler) :
  steady s -> running s = true -> wholeSteps s -> drained s ->
  drained (fst (loop currentTime s)).
Proof.
  intros S R [n Wn] Dr. pose proof S as (F & I & M & P & H & A & N & E & T & RL).
  looping s currentTime.
  - apply scheduleLoop_drained. exact Dr.
  - pose proof (stepLoop_whole (stepBound s2) (speed s) 0 s2 n) as Wh.
    rewrite W in Wh. specialize (X (stepBound_enough s2 M)).
    assert (N0 : 0 <= n).
    { rewrite Zle_Qle, <- Wn. change (inject_Z 0) with 0%Q. lra. }
    specialize (Wh Wn N0).
    assert (Q0 : (0 < speed s)%Q).
    { apply hasMultiplier_Exists in H. apply List.Exists_exists in H.
      destruct H as [x [Hx Ex]]. rewrite List.Forall_forall in P.
      specialize (P x Hx). simpl in P. lra. }
    assert (A2 : (0 <= accumulator s2)%Q).
    { subst s2. cbn [assign accumulator]. nra. }
    specialize (B F A2 E). destruct B as [B1 B2].
    destruct K as (K1 & K2 & K3 & K4 & K5 & K6 & K7 & K8 & K9 & K10 & K11).
    subst s2. fields.
    match goal with
    | |- context [scheduleLoop ?s4] =>
        pose proof (scheduleLoop_drained s4) as Z4;
        destruct (scheduleLoop s4) as [s5 timer]
    end.
    cbn [fst] in *. apply Z4. unfold drained.
    destruct (Qeq_bool (inject_Z steps) (maxStepsPerFrame s3)
              && Qleb (fixedDeltaMs s3) (accumulator s3)) eqn:C.
    + fields. apply andb_true_iff in C. destruct C as [_ C]. apply Qleb_le in C.
      apply ShuffleFacts.Qrem_range; [lra | now rewrite K1].
    + apply andb_false_iff in C. destruct C as [C | C].
      * destruct X as [X | X]; [exact X |]. exfalso.
        apply not_true_iff_false in C. apply C. apply Qeq_bool_iff.
        rewrite K3 in *. rewrite Wn in *. rewrite <- Zle_Qle in X.
        apply inject_Z_injective. lia.
      * apply not_true_iff_false in C. rewrite Qleb_le in C. lra.
  - apply scheduleLoop_drained. exact Dr.
Qed.

Lemma loop_ticks (currentTime : Q) (s : Scheduler) (listener : EventBus.Listener)
    (set : EventBus.ListenerSet) :
  steady s -> running s = true ->
  bus s !! "tick" = Some set -> List.NoDup set -> In listener set ->
  exists count : nat,
    (count <= stepBound s)%nat
    /\ frame (fst (loop currentTime s)) = frame s + Z.of_nat count
    /\ map tick_frame (ticksOf listener (snd (loop currentTime s)))
       = framesAfter (frame s) count
    /\ Forall (fun event => tick_speed event = speed s
                            /\ tick_fixedDeltaMs event = fixedDeltaMs s)
         (ticksOf listener (snd (loop currentTime s))).
Proof.
  intros S R Lk Nd In. pose proof S as (F & I & M & P & H & A & N & E & T & RL).
  assert (Idle : forall s1 : Scheduler,
             frame s1 = frame s ->
             exists count : nat,
               (count <= stepBound s)%nat
               /\ frame (fst (scheduleLoop s1)) = frame s + Z.of_nat count
               /\ map tick_frame (ticksOf listener (snd (scheduleLoop s1)))
                  = framesAfter (frame s) count
               /\ Forall (fun event => tick_speed event = speed s
                                       /\ tick_fixedDeltaMs event = fixedDeltaMs s)
                    (ticksOf listener (snd (scheduleLoop s1)))).
  { intros s1 E1. exists 0%nat. rewrite scheduleLoop_fst, scheduleLoop_ticks.
    fields. repeat split; [lia | lia | constructor]. }
  looping s currentTime.
  - apply Idle. reflexivity.
  - pose proof (stepLoop_ticks (stepBound s2) (speed s) 0 s2 listener set) as Tk.
    rewrite W in Tk.
    destruct K as (K1 & K2 & K3 & K4 & K5 & K6 & K7 & K8 & K9 & K10 & K11).
    subst s2. fields. specialize (Tk Lk Nd In). destruct Tk as [T1 T2].
    match goal with
    | |- context [scheduleLoop ?s4] =>
        pose proof (scheduleLoop_fst s4) as Z4;
        pose proof (scheduleLoop_ticks listener s4) as Z5;
        destruct (scheduleLoop s4) as [s5 timer]
    end.
    cbn [fst snd] in *. exists (Z.to_nat steps).
    rewrite ticksOf_app, Z5, List.app_nil_r. rewrite Z.sub_0_r in *.
    unfold stepBound in *. fields.
    repeat split; try assumption; [lia |].
    rewrite Z4.
    destruct (Qeq_bool (inject_Z steps) (maxStepsPerFrame s3)
              && Qleb (fixedDeltaMs s3) (accumulator s3)); fields; lia.
  - exfalso. apply RL in R. rewrite ?L in R. now apply R.
Qed.

Lemma play_steady (currentTime : Q) (s : Scheduler) :
  steady s -> steady (fst (play currentTime s)).
Proof.
  intros S. pose proof S as (F & I & M & P & H & A & N & E & T & RL).
  unfold play. destruct (running s) eqn:R; [exact S |].
  match goal with
  | |- context [scheduleLoop ?s1] =>
      pose proof (scheduleLoop_steady s1) as Z1; destruct (scheduleLoop s1) as [s2 timer]
  end.
  cbn [fst] in *. apply Z1. unfold steady. fields.
  repeat split; try assumption; try reflexivity; discriminate.
Qed.

Lemma pause_steady (s : Scheduler) : steady s -> steady (fst (pause s)).
Proof.
  intros S. pose proof S as (F & I & M & P & H & A & N & E & T & RL).
  unfold pause. destruct (running s) eqn:R; [| exact S].
  cbn [negb fst]. unfold steady. fields.
  repeat split; try assumption; try discriminate. intros X. now contradiction X.
Qed.

Lemma perform_steady (rt : Runtime) (s : Scheduler) (operation : Operation) :
  steady s -> steady (fst (perform rt s operation)).
Proof.
  intros S. pose proof S as (F & I & M & P & H & A & N & E & T & RL).
  destruct operation as [t | | t | value | listener | listener | event listener | | t];
    cbn [perform].
  - now apply play_steady.
  - now apply pause_steady.
  - unfold toggle. destruct (running s); [now apply pause_steady | now apply play_steady].
  - unfold setSpeed. destruct (negb (hasMultiplier value (speedOptions s))) eqn:C;
      [exact S |].
    destruct (Qeq_bool value (speed s)); [exact S |].
    apply negb_false_iff in C. cbn [fst]. unfold steady. fields.
    repeat split; try assumption; apply RL.
  - cbn [fst]. unfold onTick. apply (steady_same s); fields; tauto.
  - cbn [fst]. unfold onStateChange. apply (steady_same s); fields; tauto.
  - cbn [fst]. unfold unsubscribe. apply (steady_same s); fields; tauto.
  - unfold dispose. pose proof (pause_steady s S) as Z1.
    destruct (pause s) as [s1 effects]. cbn [fst] in *.
    pose proof Z1 as (F1 & I1 & M1 & P1 & H1 & A1 & N1 & E1 & T1 & RL1).
    apply (steady_same s1); fields; try tauto; try lia; lra.
  - destruct (timerHandle s) eqn:Th; [| exact S].
    unfold timerFired. apply loop_steady; [| fields; tauto].
    apply (steady_same s); fields; tauto.
Qed.

Lemma session_steady (rt : Runtime) (operations : list Operation) (s : Scheduler) :
  steady s -> steady (fst (session rt s operations)).
Proof.
  revert s. induction operations as [| operation rest IH]; intros s S; [exact S |].
  cbn [session]. pose proof (perform_steady rt s operation S) as Z1.
  destruct (perform rt s operation) as [s1 effects]. cbn [fst] in Z1.
  specialize (IH s1 Z1). destruct (session rt s1 rest) as [s2 later]. exact IH.
Qed.

(** No operation changes the length of a step or the bound of the steps. *)
Lemma loop_setup (currentTime : Q) (s : Scheduler) :
  fixedDeltaMs (fst (loop currentTime s)) = fixedDeltaMs s
  /\ maxStepsPerFrame (fst (loop currentTime s)) = maxStepsPerFrame s.
Proof.
  unfold loop. destruct (negb (running s)); [split; reflexivity |].
  destruct (lastTime s) as [last |]; [| rewrite scheduleLoop_fst; split; reflexivity].
  cbv zeta. destruct (Qleb (currentTime - last) 0);
    [rewrite scheduleLoop_fst; split; reflexivity |].
  match goal with
  | |- context [stepLoop ?fuel ?a 0 ?s2] =>
      pose proof (stepLoop_keeps fuel a 0 s2) as K;
      destruct (stepLoop fuel a 0 s2) as [[steps s3] calls]
  end.
  destruct K as (K1 & K2 & K3 & _).
  match goal with
  | |- context [scheduleLoop ?s4] =>
      pose proof (scheduleLoop_fst s4) as Z4; destruct (scheduleLoop s4) as [s5 timer]
  end.
  cbn [fst] in *. rewrite Z4. fields.
  destruct (Qeq_bool (inject_Z steps) (maxStepsPerFrame s3)
            && Qleb (fixedDeltaMs s3) (accumulator s3)); fields; split; assumption.
Qed.

Lemma perform_setup (rt : Runtime) (s : Scheduler) (operation : Operation) :
  fixedDeltaMs (fst (perform rt s operation)) = fixedDeltaMs s
  /\ maxStepsPerFrame (fst (perform rt s operation)) = maxStepsPerFrame s.
Proof.
  assert (Pl : forall t, fixedDeltaMs (fst (play t s)) = fixedDeltaMs s
                         /\ maxStepsPerFrame (fst (play t s)) = maxStepsPerFrame s).
  { intros t. unfold play. destruct (running s); [split; reflexivity |].
    match goal with
    | |- context [scheduleLoop ?s1] =>
        pose proof (scheduleLoop_fst s1) as Z1; destruct (scheduleLoop s1) as [s2 timer]
    end.
    cbn [fst] in *. rewrite Z1. split; reflexivity. }
  assert (Pa : fixedDeltaMs (fst (pause s)) = fixedDeltaMs s
               /\ maxStepsPerFrame (fst (pause s)) = maxStepsPerFrame s).
  { unfold pause. destruct (negb (running s)); split; reflexivity. }
  destruct operation as [t | | t | value | listener | listener | event listener | | t];
    cbn [perform]; try (split; reflexivity).
  - apply Pl.
  - exact Pa.
  - unfold toggle. destruct (running s); [exact Pa | apply Pl].
  - unfold setSpeed. destruct (negb (hasMultiplier value (speedOptions s)));
      [split; reflexivity |].
    destruct (Qeq_bool value (speed s)); split; reflexivity.
  - unfold dispose. destruct (pause s) as [s1 effects]. exact Pa.
  - destruct (timerHandle s); [| split; reflexivity].
    unfold timerFired.
    match goal with |- context [loop t ?s0] => exact (loop_setup t s0) end.
Qed.

Lemma perform_drained (rt : Runtime) (s : Scheduler) (operation : Operation) :
  steady s -> wholeSteps s -> drained s -> drained (fst (perform rt s operation)).
Proof.
  intros S Wh Dr. pose proof S as (F & I & M & P & H & A & N & E & T & RL).
  assert (Pl : forall t, drained (fst (play t s))).
  { intros t. unfold play. destruct (running s); [exact Dr |].
    match goal with
    | |- context [scheduleLoop ?s1] =>
        pose proof (scheduleLoop_drained s1) as Z1; destruct (scheduleLoop s1) as [s2 timer]
    end.
    apply Z1. exact Dr. }
  assert (Pa : drained (fst (pause s))).
  { unfold pause. destruct (negb (running s)); exact Dr. }
  destruct operation as [t | | t | value | listener | listener | event listener | | t];
    cbn [perform]; try exact Dr.
  - apply Pl.
  - exact Pa.
  - unfold toggle. destruct (running s); [exact Pa | apply Pl].
  - unfold setSpeed. destruct (negb (hasMultiplier value (speedOptions s))); [exact Dr |].
    destruct (Qeq_bool value (speed s)); exact Dr.
  - unfold dispose. pose proof (perform_setup rt s Pause) as [E1 _]. cbn [perform] in E1.
    destruct (pause s) as [s1 effects]. cbn [fst] in *. unfold drained. fields.
    rewrite E1. exact F.
  - destruct (timerHandle s) eqn:Th; [| exact Dr].
    unfold timerFired. apply loop_drained; try assumption; [| fields; tauto].
    apply (steady_same s); fields; tauto.
Qed.

Lemma session_drained (rt : Runtime) (operations : list Operation) (s : Scheduler) :
  steady s -> wholeSteps s -> drained s -> drained (fst (session rt s operations)).
Proof.
  revert s. induction operations as [| operation rest IH]; intros s S Wh Dr; [exact Dr |].
  cbn [session]. pose proof (perform_steady rt s operation S) as Z1.
  pose proof (perform_drained rt s operation S Wh Dr) as Z2.
  pose proof (perform_setup rt s operation) as [_ Z3].
  destruct (perform rt s operation) as [s1 effects]. cbn [fst] in *.
  assert (Wh1 : wholeSteps s1).
  { destruct Wh as [n Wn]. exists n. now rewrite Z3. }
  specialize (IH s1 Z1 Wh1 Z2). destruct (session rt s1 rest) as [s2 later]. exact IH.
Qed.

Lemma createTickScheduler_outcome (options : SimulationTickSchedulerOptions) (now : Q) :
  match createTickScheduler options now with
  | Ok (s, _) =>
      acceptable options /\ steady s /\ drained s
      /\ running s = option_autoStart options /\ frame s = 0
  | Throw _ => ~ acceptable options
  end.
Proof.
  unfold createTickScheduler, acceptable. cbv zeta. rewrite !copied_options.
  destruct options as [fd fi ms sp isp auto b].
  cbn [option_fixedDeltaMs option_frameIntervalMs option_maxStepsPerFrame option_speeds
       option_initialSpeedMultiplier option_autoStart option_bus].
  set (fixed := match fd with Some value => value | None => DEFAULT_FIXED_DELTA_MS end).
  set (speeds := match sp with Some given => given | None => DEFAULT_SIMULATION_SPEEDS end).
  destruct (Qleb fixed 0) eqn:C1.
  { intros (A1 & _). apply Qleb_le in C1. lra. }
  apply not_true_iff_false in C1. rewrite Qleb_le in C1.
  destruct speeds as [| first rest] eqn:Sp.
  { intros (_ & A2 & _). now apply A2. }
  destruct (existsb (fun option => Qleb (multiplier option) 0) (first :: rest)) eqn:C2.
  { intros (_ & _ & A3 & _). apply positive_multipliers in A3. congruence. }
  apply positive_multipliers in C2.
  set (initial := match isp with Some value => value | None => multiplier first end).
  destruct (negb (hasMultiplier initial (first :: rest))) eqn:C3.
  { intros (_ & _ & _ & A4). apply negb_true_iff in C3. subst initial.
    destruct isp as [value |].
    - apply hasMultiplier_Exists in A4. congruence.
    - unfold hasMultiplier in C3. cbn [existsb] in C3.
      now rewrite Qeq_bool_refl in C3. }
  apply negb_false_iff in C3.
  assert (A4 : match isp with
               | Some value =>
                   Exists (fun option => (multiplier option == value)%Q) (first :: rest)
               | None => True
               end).
  { subst initial. destruct isp; [now apply hasMultiplier_Exists | exact I]. }
  assert (M1 : forall x, (1 <= maximum 1 x)%Q) by (intros x; apply maximum_le).
  assert (M0 : forall x, (0 <= maximum 0 x)%Q) by (intros x; apply maximum_le).
  destruct auto.
  - unfold play, scheduleLoop. fields. cbn [negb orb]. fields.
    split; [repeat split; try assumption; try lra; discriminate |].
    split; [| split; [unfold drained; fields; lra | split; reflexivity]].
    unfold steady. fields.
    repeat split; try assumption; try apply M1; try apply M0; try lra; try lia;
      try discriminate; try reflexivity.
  - split; [repeat split; try assumption; try lra; discriminate |].
    split; [| split; [unfold drained; fields; lra | split; reflexivity]].
    unfold steady. fields.
    repeat split; try assumption; try apply M1; try apply M0; try lra; try lia;
      try discriminate; try reflexivity.
    intros X. now contradiction X.
Qed.

Lemma created_steady (options : SimulationTickSchedulerOptions) (now : Q)
    (s : Scheduler) (effects : list Effect) :
  createTickScheduler options now = Ok (s, effects) -> steady s /\ drained s.
Proof.
  intros C. pose proof (createTickScheduler_outcome options now) as O.
  rewrite C in O. tauto.
Qed.

End SchedulerFacts.

(** X27. For options that are finite numbers, [createTickScheduler] returns
    a scheduler exactly when they have a positive fixed step, at least one
    speed option, positive multipliers only and an initial speed among them,
    and throws for the others.  The scheduler that it returns runs exactly if [autoStart] was
    set, is at frame 0 with less than one step of time accumulated, and its
    speed is one of the speed options. *)
Theorem scheduler_options_are_checked
    (options : Scheduler.SimulationTickSchedulerOptions) (now : Q) :
  match Scheduler.createTickScheduler options now with
  | Ok (s, _) =>
      acceptable options /\ steady s /\ drained s
      /\ Scheduler.running s = Scheduler.option_autoStart options
      /\ Scheduler.frame s = 0
  | Throw _ => ~ acceptable options
  end.
Proof. apply SchedulerFacts.createTickScheduler_outcome. Qed.



(** X29. When the timer of a steady scheduler fires, at a finite clock
    reading and with listeners that do not call the scheduler, a listener of
    the event [tick] receives the frames that follow the frame of the scheduler,
    one by one and in order, at most as many as [maxStepsPerFrame] rounded
    up, each with the fixed step of the scheduler and the speed that it had
    when the timer fired; the scheduler is at the last of these frames
    afterwards. *)
Theorem timer_delivers_consecutive_frames (currentTime : Q) (s : Scheduler.Scheduler)
    (listener : EventBus.Listener) (set : EventBus.ListenerSet) :
  steady s ->
  Scheduler.bus s !! "tick" = Some set -> List.NoDup set -> In listener set ->
  exists count : nat,
    (count <= Scheduler.stepBound s)%nat
    /\ Scheduler.frame (fst (Scheduler.timerFired currentTime s))
       = Scheduler.frame s + Z.of_nat count
    /\ map Scheduler.tick_frame
         (ticksOf listener (snd (Scheduler.timerFired currentTime s)))
       = framesAfter (Scheduler.frame s) count
    /\ Forall (fun event => Scheduler.tick_speed event = Scheduler.speed s
                            /\ Scheduler.tick_fixedDeltaMs event = Scheduler.fixedDeltaMs s)
         (ticksOf listener (snd (Scheduler.timerFired currentTime s))).
Proof.
  intros S L N I. pose proof S as (F & I0 & M & P & H & A & N0 & E & T & RL).
  unfold Scheduler.timerFired.
  destruct (Scheduler.running s) eqn:R.
  - match goal with
    | |- context [Scheduler.loop currentTime ?s0] =>
        apply (SchedulerFacts.loop_ticks currentTime s0 listener set)
    end; try assumption; try reflexivity.
    apply (SchedulerFacts.steady_same s); SchedulerFacts.fields;
      try tauto; try congruence; try discriminate.
  - exists 0%nat. unfold Scheduler.loop. SchedulerFacts.fields. cbn [negb fst snd].
    SchedulerFacts.fields. repeat split; [lia | lia | constructor].
Qed.

Lemma timer_delivers_consecutive_frames_witness :
  exists s effects,
    Scheduler.createTickScheduler
      {| Scheduler.option_fixedDeltaMs := None;
         Scheduler.option_frameIntervalMs := None;
         Scheduler.option_maxStepsPerFrame := None;
         Scheduler.option_speeds := None;
         Scheduler.option_initialSpeedMultiplier := None;
         Scheduler.option_autoStart := true;
         Scheduler.option_bus := Some (EventBus.on "tick" 7%nat EventBus.createEventBus) |}
      0 = Ok (s, effects)
    /\ map Scheduler.tick_frame (ticksOf 7%nat (snd (Scheduler.timerFired 120 s))) = [1; 2]
    /\ exists count : nat,
         (count <= Scheduler.stepBound s)%nat
         /\ Scheduler.frame (fst (Scheduler.timerFired 120 s))
            = Scheduler.frame s + Z.of_nat count
         /\ map Scheduler.tick_frame (ticksOf 7%nat (snd (Scheduler.timerFired 120 s)))
            = framesAfter (Scheduler.frame s) count
         /\ Forall (fun event => Scheduler.tick_speed event = Scheduler.speed s
                                 /\ Scheduler.tick_fixedDeltaMs event
                                    = Scheduler.fixedDeltaMs s)
              (ticksOf 7%nat (snd (Scheduler.timerFired 120 s))).
Proof.
  eexists. eexists. split; [reflexivity |]. split; [vm_compute; reflexivity |].
  apply (timer_delivers_consecutive_frames 120 _ 7%nat [7%nat]).
  - unfold steady. cbn.
    repeat split; try reflexivity; try discriminate; try (repeat constructor; fail).
  - vm_compute. reflexivity.
  - repeat constructor. intros [].
  - left. reflexivity.
Defined.


